(** * BladeRunner: a shallow embedding of the agent's control subsystems

    The development follows the Python package [bladerunner]:
    [permissions.py], [safety.py], [tool_tracker.py], [semantic_memory.py],
    [evaluation.py] and the retry executor and main loop of [agent.py].
    Each Python class is a module below; methods keep their names.  Objects
    that Python mutates in place are threaded explicitly as state; what the
    code reads from its environment (console input, the completion service,
    the clock, the outcome of a disk write) is an explicit argument. *)

From Stdlib Require Import ZArith QArith String Ascii List Bool Lia DecimalString.
From stdpp Require Import gmap strings list sorting.

Local Open Scope string_scope.
Local Open Scope Z_scope.

#[local] Set Warnings "-register-all".

(** ** Python [str] primitives used by the package

    A Rocq [string] is read as a Python [str] whose code points are below 256
    (Latin-1); on such strings the functions below agree with CPython 3. *)
Module PyStr.

(** [c.isspace()] for a code point below 256. *)
Definition isspace (c : ascii) : bool :=
  let n := nat_of_ascii c in
  ((9 <=? n) && (n <=? 13) || (28 <=? n) && (n <=? 32)
   || (n =? 133) || (n =? 160))%nat.

(** [c.lower()] for a code point below 256: A-Z and the accented capitals
    0xC0-0xDE (0xD7, the multiplication sign, apart). *)
Definition lower_char (c : ascii) : ascii :=
  let n := nat_of_ascii c in
  if ((65 <=? n) && (n <=? 90)
      || (192 <=? n) && (n <=? 222) && negb (n =? 215))%nat
  then ascii_of_nat (n + 32) else c.

(** [s.lower()] *)
Fixpoint lower (s : string) : string :=
  match s with
  | EmptyString => EmptyString
  | String c r => String (lower_char c) (lower r)
  end.

(** [s.lstrip()] *)
Fixpoint lstrip (s : string) : string :=
  match s with
  | String c r => if isspace c then lstrip r else s
  | EmptyString => EmptyString
  end.

(** the string read backwards, [s[::-1]] *)
Fixpoint rev_append (s acc : string) : string :=
  match s with
  | EmptyString => acc
  | String c r => rev_append r (String c acc)
  end.

Definition reverse (s : string) : string := rev_append s EmptyString.

(** [s.rstrip()] *)
Definition rstrip (s : string) : string := reverse (lstrip (reverse s)).

(** [s.strip()] *)
Definition strip (s : string) : string := rstrip (lstrip s).

(** [s.startswith(p)] *)
Fixpoint startswith (s p : string) : bool :=
  match p, s with
  | EmptyString, _ => true
  | String a p', String b s' => Ascii.eqb a b && startswith s' p'
  | String _ _, EmptyString => false
  end.

(** [sub in s] *)
Fixpoint contains (s sub : string) : bool :=
  startswith s sub
  || match s with
     | EmptyString => false
     | String _ r => contains r sub
     end.

(** [s[:n]], for [n >= 0] *)
Fixpoint take (n : nat) (s : string) : string :=
  match n, s with
  | S k, String c r => String c (take k r)
  | _, _ => EmptyString
  end.

(** [s[n:]], for [n >= 0] *)
Fixpoint drop (n : nat) (s : string) : string :=
  match n, s with
  | S k, String _ r => drop k r
  | _, _ => s
  end.

(** [s.split()]: the maximal runs of characters that are not white space.
    [cur] is the run being read, backwards. *)
Fixpoint split_ws_aux (s cur : string) : list string :=
  match s with
  | EmptyString =>
      match cur with EmptyString => [] | _ => [reverse cur] end
  | String c r =>
      if isspace c
      then match cur with
           | EmptyString => split_ws_aux r EmptyString
           | _ => reverse cur :: split_ws_aux r EmptyString
           end
      else split_ws_aux r (String c cur)
  end.

Definition split_ws (s : string) : list string := split_ws_aux s EmptyString.

(** [s.split(sep)[0]] for a one-character separator: the text before the
    first [sep], all of [s] when there is none. *)
Fixpoint before_first (sep : ascii) (s : string) : string :=
  match s with
  | EmptyString => EmptyString
  | String c r => if Ascii.eqb c sep then EmptyString
                  else String c (before_first sep r)
  end.

(** [s.split(sep)] for a non-empty [sep]: left to right, occurrences do not
    overlap.  [fuel] bounds the scan; [length s + 1] is enough. *)
Fixpoint split_sep_aux (fuel : nat) (sep s cur : string) : list string :=
  match fuel with
  | O => [reverse cur]
  | S fuel' =>
      match s with
      | EmptyString => [reverse cur]
      | String c r =>
          if startswith s sep
          then reverse cur
               :: split_sep_aux fuel' sep (drop (String.length sep) s) EmptyString
          else split_sep_aux fuel' sep r (String c cur)
      end
  end.

Definition split_sep (sep s : string) : list string :=
  split_sep_aux (S (String.length s)) sep s EmptyString.

(** [str(n)] for an integer *)
Definition str_of_Z (n : Z) : string :=
  NilZero.string_of_int (Z.to_int n).

End PyStr.

(** ** Exceptions and results

    A Python call either returns a value or raises; the exceptions the
    embedded code can meet are listed by class. *)
Inductive py_exn : Type :=
| ValueError (msg : string)
| IndexError
| EOFError
| KeyboardInterrupt
| OtherException (msg : string).

Inductive result (A : Type) : Type :=
| Return (a : A)
| Raise (e : py_exn).

Arguments Return {A} a.
Arguments Raise {A} e.

(** ** Python [float]

    The package divides counters ([int / int]), writes float literals and
    compares and sorts the results.  A [float] is kept abstract: [of_Q q] is
    the float nearest to the rational [q] (a literal such as [0.5] is
    [of_Q (1#2)], and [a / b] on integers is the correctly rounded quotient
    [of_Q (a / b)]); the order is that of finite floats: a strict weak
    order.  NaN, which none of the embedded operations produces from the
    counters and ratios they work on, is not a value of [float].  Exact
    rationals are one instance ([QFloat] below). *)
Class PyFloat : Type := {
  float : Type;
  of_Q : Q -> float;
  flt : float -> float -> bool;       (* a < b *)
  fge : float -> float -> bool;       (* a >= b *)
  fadd : float -> float -> float;
  fsub : float -> float -> float;
  fdiv : float -> float -> float;
  fnonzero : float -> bool;           (* truth value of a float *)
  of_Q_proper : forall p q : Q, Qeq p q -> of_Q p = of_Q q;
  flt_asym : forall a b, flt a b = true -> flt b a = false;
  flt_negtrans : forall a b c, flt a b = false -> flt b c = false -> flt a c = false
}.

(** [a / b] on integers, for [b <> 0].  (Python raises ZeroDivisionError
    for [b = 0]; the embedded code divides by a count it has just
    incremented or tested to be positive.) *)
Definition truediv `{PyFloat} (a b : Z) : float := of_Q (Qmake a (Z.to_pos b)).

(** [float(n)] *)
Definition of_int `{PyFloat} (n : Z) : float := of_Q (inject_Z n).

(** Exact rationals as floats: no rounding. *)
Definition QFloat : PyFloat :=
  {| float := Q;
     of_Q := Qred;
     flt := fun a b => negb (Qle_bool b a);
     fge := fun a b => Qle_bool b a;
     fadd := fun a b => Qred (a + b);
     fsub := fun a b => Qred (a - b);
     fdiv := fun a b => Qred (a / b);
     fnonzero := fun a => negb (Qeq_bool a 0);
     of_Q_proper := Qred_complete;
     flt_asym := ltac:(
       intros a b; rewrite negb_true_iff, negb_false_iff; intros Hba;
       apply Qle_bool_iff; destruct (Qlt_le_dec b a) as [Hlt | Hle];
       [apply Qlt_le_weak in Hlt; apply Qle_bool_iff in Hlt; congruence
       | exact Hle]);
     flt_negtrans := ltac:(
       intros a b c; rewrite !negb_false_iff, !Qle_bool_iff; intros Hba Hcb;
       eapply Qle_trans; eassumption) |}.

(** ** Python [dict] with string keys

    A dict keeps its keys in insertion order: assigning to a key already
    present replaces the value in place, a new key goes last. *)
Module Dict.

Definition dict (V : Type) : Type := list (string * V).

Fixpoint get {V : Type} (k : string) (d : dict V) : option V :=
  match d with
  | [] => None
  | (k', v) :: d' => if String.eqb k k' then Some v else get k d'
  end.

Fixpoint set {V : Type} (k : string) (v : V) (d : dict V) : dict V :=
  match d with
  | [] => [(k, v)]
  | (k', v') :: d' =>
      if String.eqb k k' then (k, v) :: d' else (k', v') :: set k v d'
  end.

Definition keys {V : Type} (d : dict V) : list string := map fst d.

End Dict.

(** ** [sorted(items, key=key, reverse=True)]

    The result is in descending order of [key] and stable: items whose keys
    are not ordered by [<] keep their relative order.  Each item moves right
    past the items whose key is strictly greater.  [lt] is [<] on the keys. *)
Section SortedReverse.
Context {A K : Type} (lt : K -> K -> bool) (key : A -> K).

Fixpoint insert_desc (x : A) (l : list A) : list A :=
  match l with
  | [] => [x]
  | y :: l' => if lt (key x) (key y) then y :: insert_desc x l' else x :: l
  end.

Definition sorted_reverse (l : list A) : list A := foldr insert_desc [] l.

(** [a] may stand before [b]: the key of [a] is not below that of [b]. *)
Definition not_below (a b : A) : Prop := lt (key a) (key b) = false.

End SortedReverse.

(** [l[:n]] for any integer [n]: a negative [n] counts from the end. *)
Definition slice_to {A : Type} (n : Z) (l : list A) : list A :=
  if 0 <=? n then take (Z.to_nat n) l
  else take (length l - Z.to_nat (- n)) l.

(** ** Regular expressions of the detector

    The five patterns [safety.py] hands to [re.search] are built from
    literal characters, [\b], [\s+] and [\s*].  [re.search] answers whether
    the pattern matches at some position; the matcher below tries every
    position and every length of a run of white space, as the backtracking
    matcher of CPython does. *)
Module PyRe.

(** [\w] on a [str] pattern, for a code point below 256: the alphanumeric
    characters and the underscore. *)
Definition isword (c : ascii) : bool :=
  let n := nat_of_ascii c in
  ((48 <=? n) && (n <=? 57) || (65 <=? n) && (n <=? 90) || (n =? 95)
   || (97 <=? n) && (n <=? 122) || (n =? 170) || (n =? 178) || (n =? 179)
   || (n =? 181) || (n =? 185) || (n =? 186) || (188 <=? n) && (n <=? 190)
   || (192 <=? n) && (n <=? 214) || (216 <=? n) && (n <=? 246)
   || (248 <=? n) && (n <=? 255))%nat.

Inductive atom : Type :=
| Lit (c : ascii)     (* the character itself *)
| Boundary            (* \b *)
| SpacePlus           (* \s+ *)
| SpaceStar.          (* \s* *)

(** The pattern text read as atoms. *)
Fixpoint compile (pattern : string) : list atom :=
  match pattern with
  | String "\" (String "b" rest) => Boundary :: compile rest
  | String "\" (String "s" (String "+" rest)) => SpacePlus :: compile rest
  | String "\" (String "s" (String "*" rest)) => SpaceStar :: compile rest
  | String c rest => Lit c :: compile rest
  | EmptyString => []
  end.

(** Is the character next to a position, if any, a word character? *)
Definition word_at (c : option ascii) : bool :=
  match c with Some c => isword c | None => false end.

Definition first_char (s : string) : option ascii :=
  match s with String c _ => Some c | EmptyString => None end.

(** The pattern matches a prefix of [s]; [prev] is the character before
    [s] in the subject, if any. *)
Fixpoint match_here (re : list atom) : option ascii -> string -> bool :=
  match re with
  | [] => fun _ _ => true
  | Lit c :: re' => fun _ s =>
      match s with
      | String d s' => Ascii.eqb c d && match_here re' (Some d) s'
      | EmptyString => false
      end
  | Boundary :: re' => fun prev s =>
      xorb (word_at prev) (word_at (first_char s)) && match_here re' prev s
  | SpaceStar :: re' =>
      fix star (prev : option ascii) (s : string) : bool :=
        match_here re' prev s
        || match s with
           | String d s' => PyStr.isspace d && star (Some d) s'
           | EmptyString => false
           end
  | SpacePlus :: re' => fun _ s =>
      match s with
      | String d s' =>
          PyStr.isspace d
          && (fix star (prev : option ascii) (s : string) : bool :=
                match_here re' prev s
                || match s with
                   | String d s' => PyStr.isspace d && star (Some d) s'
                   | EmptyString => false
                   end) (Some d) s'
      | EmptyString => false
      end
  end.

(** The pattern matches at some position of [s], from the start of [s] on. *)
Fixpoint search_from (re : list atom) (prev : option ascii) (s : string) : bool :=
  match_here re prev s
  || match s with
     | String c s' => search_from re (Some c) s'
     | EmptyString => false
     end.

(** [re.search(pattern, s)] is not [None]. *)
Definition search (pattern s : string) : bool :=
  search_from (compile pattern) None s.

End PyRe.

(** ** permissions.py *)
Module Permissions.

Inductive PermissionLevel : Type := ALLOW | DENY | ASK.

(** [PermissionLevel(value)]: the member whose value is [value]; the Enum
    lookup raises [ValueError] for any other string. *)
Definition PermissionLevel_of (value : string) : result PermissionLevel :=
  if String.eqb value "allow" then Return ALLOW
  else if String.eqb value "deny" then Return DENY
  else if String.eqb value "ask" then Return ASK
  else Raise (ValueError value).

(** The value of an Enum member, [level.value]. *)
Definition level_value (level : PermissionLevel) : string :=
  match level with ALLOW => "allow" | DENY => "deny" | ASK => "ask" end.

(** One category's rule dict: each of the keys "default", "allow" and
    "deny" may be absent. *)
Record Rules : Type := mkRules {
  rules_default : option string;
  rules_allow : option (list string);
  rules_deny : option (list string)
}.

(** A profile: [rules["files"]["read"]], [rules["files"]["write"]], [rules["bash"]]. *)
Record Profile : Type := mkProfile {
  files_read : Rules;
  files_write : Rules;
  bash : Rules
}.

Definition permissive : Profile :=
  {| files_read := mkRules (Some "allow") None None;
     files_write := mkRules (Some "allow") None None;
     bash := mkRules (Some "allow") None None |}.

Definition standard : Profile :=
  {| files_read :=
       mkRules (Some "allow") None (Some ["**/secret*"; "**/.env*"; "**/password*"]);
     files_write :=
       mkRules (Some "ask") (Some ["test/**"; "docs/**"; "*.md"])
               (Some ["**/production/**"; "**/prod/**"]);
     bash :=
       mkRules (Some "ask") None
               (Some ["rm -rf *"; "sudo *"; "curl * | *"; "wget * | *"]) |}.

Definition strict : Profile :=
  {| files_read := mkRules (Some "ask") None (Some ["**/secret*"; "**/.env*"]);
     files_write := mkRules (Some "deny") (Some ["test/**"]) None;
     bash := mkRules (Some "deny") (Some ["ls *"; "cat *"; "grep *"; "echo *"]) None |}.

(** [profiles.get(profile, profiles["standard"])] *)
Definition _load_profile (profile : string) : Profile :=
  if String.eqb profile "permissive" then permissive
  else if String.eqb profile "standard" then standard
  else if String.eqb profile "strict" then strict
  else standard.

(** [PermissionChecker(profile=...)]: the object holds the rules of its
    profile. *)
Definition PermissionChecker (profile : string) : Profile := _load_profile profile.

(** [rules.get(key, [])] and [rules.get("default", "ask")] *)
Definition get_patterns (o : option (list string)) : list string :=
  match o with Some l => l | None => [] end.

Definition get_default (rules : Rules) : string :=
  match rules_default rules with Some d => d | None => "ask" end.

Section Checker.

(** [fnmatch.fnmatch(name, pat)] of the Python standard library. *)
Variable fnmatch : string -> string -> bool.

(** [for pattern in patterns: if fnmatch(target, pattern): return level]:
    [true] when the loop returns, [false] when it runs to its end. *)
Fixpoint loop_returns (target : string) (patterns : list string) : bool :=
  match patterns with
  | [] => false
  | pattern :: rest =>
      if fnmatch target pattern then true else loop_returns target rest
  end.

Definition _check_permission (target : string) (rules : Rules)
  : result PermissionLevel :=
  if loop_returns target (get_patterns (rules_deny rules)) then Return DENY
  else if loop_returns target (get_patterns (rules_allow rules)) then Return ALLOW
  else PermissionLevel_of (get_default rules).

Definition check_file_read (self : Profile) (file_path : string) :=
  _check_permission file_path (files_read self).

Definition check_file_write (self : Profile) (file_path : string) :=
  _check_permission file_path (files_write self).

Definition check_bash_command (self : Profile) (command : string) :=
  _check_permission command (bash self).

(** The target matches some pattern of the list. *)
Definition matches_any (target : string) (patterns : list string) : Prop :=
  exists pattern, In pattern patterns /\ fnmatch target pattern = true.

End Checker.

(** [fnmatch.fnmatch] on a POSIX system (no case folding) for patterns
    without a bracket expression, which is every pattern of the built-in
    profiles: [*] matches any run of characters, also an empty one and also
    across [/]; [?] matches one character; any other character matches
    itself. *)
Fixpoint glob (pat : string) : string -> bool :=
  match pat with
  | EmptyString => fun name =>
      match name with EmptyString => true | _ => false end
  | String c pat' =>
      if Ascii.eqb c "*" then
        fix star (name : string) : bool :=
          glob pat' name
          || match name with
             | EmptyString => false
             | String _ name' => star name'
             end
      else if Ascii.eqb c "?" then fun name =>
        match name with
        | String _ name' => glob pat' name'
        | EmptyString => false
        end
      else fun name =>
        match name with
        | String d name' => Ascii.eqb c d && glob pat' name'
        | EmptyString => false
        end
  end.

Definition posix_fnmatch (name pat : string) : bool := glob pat name.

(** A pattern text without the wild cards [*] and [?] (and, as every
    pattern here, without a bracket expression): it matches itself only. *)
Fixpoint plain (s : string) : bool :=
  match s with
  | EmptyString => true
  | String c r => negb (Ascii.eqb c "*") && negb (Ascii.eqb c "?") && plain r
  end.

End Permissions.

(** ** safety.py: the approval cache of [CriticalOperation] *)
Module Safety.

(** The two sets of [__init__] that record decisions, [approved_operations]
    and [denied_operations]; the pattern tables of the detector play no part
    in approval. *)
Record CriticalOperation : Type := mkCriticalOperation {
  approved_operations : gset string;
  denied_operations : gset string
}.

(** The state [__init__] builds. *)
Definition init : CriticalOperation :=
  {| approved_operations := ∅; denied_operations := ∅ |}.

(** What a call of the built-in [input] yields: a line, or one of the two
    exceptions the method handles. *)
Inductive console_input : Type :=
| Line (text : string)
| Interrupt     (* KeyboardInterrupt *)
| EndOfInput.   (* EOFError *)

(** What the method writes to the console. *)
Inductive console_event : Type :=
| Prompted (operation reason details : string)  (* [input(msg)] showed [msg] *)
| PreviouslyApproved (operation : string)
| PreviouslyDenied (operation : string)
| Cancelled.

(** [f"{operation}:{details}"[:100]] *)
Definition _hash_operation (operation details : string) : string :=
  PyStr.take 100 (operation ++ ":" ++ details).

(** [prompt_approval]: the returned flag, the object after the call and the
    console events of the call.  [stdin] is what [input] yields if the method
    gets to call it. *)
Definition prompt_approval (self : CriticalOperation)
    (operation reason details : string) (stdin : console_input)
  : bool * CriticalOperation * list console_event :=
  let op_hash := _hash_operation operation details in
  if decide (op_hash ∈ approved_operations self) then
    (true, self, [PreviouslyApproved operation])
  else if decide (op_hash ∈ denied_operations self) then
    (false, self, [PreviouslyDenied operation])
  else
    match stdin with
    | Line text =>
        let response := PyStr.lower (PyStr.strip text) in
        if String.eqb response "y" || String.eqb response "yes" then
          (true, self, [Prompted operation reason details])
        else if String.eqb response "a" || String.eqb response "always" then
          (true,
           {| approved_operations := approved_operations self ∪ {[op_hash]};
              denied_operations := denied_operations self |},
           [Prompted operation reason details])
        else
          (false,
           {| approved_operations := approved_operations self;
              denied_operations := denied_operations self ∪ {[op_hash]} |},
           [Prompted operation reason details])
    | Interrupt | EndOfInput =>
        (false, self, [Prompted operation reason details; Cancelled])
    end.

(** A request for approval together with what the console would answer. *)
Record request : Type := mkRequest {
  req_operation : string;
  req_reason : string;
  req_details : string;
  req_stdin : console_input
}.

Definition serve (self : CriticalOperation) (r : request) :=
  prompt_approval self (req_operation r) (req_reason r) (req_details r) (req_stdin r).

(** The calls of one process, in order: the final object and, per call, the
    returned flag and the console events. *)
Fixpoint run (self : CriticalOperation) (rs : list request)
  : CriticalOperation * list (bool * list console_event) :=
  match rs with
  | [] => (self, [])
  | r :: rs' =>
      let '(b, self', ev) := serve self r in
      let '(final, out) := run self' rs' in
      (final, (b, ev) :: out)
  end.

(** The call asked the operator. *)
Definition prompted (ev : list console_event) : bool :=
  existsb (fun e => match e with Prompted _ _ _ => true | _ => false end) ev.

(** The operator's answers, as the method tells them apart. *)
Definition says_yes (text : string) : bool :=
  let response := PyStr.lower (PyStr.strip text) in
  String.eqb response "y" || String.eqb response "yes".

Definition says_always (text : string) : bool :=
  let response := PyStr.lower (PyStr.strip text) in
  negb (says_yes text)
  && (String.eqb response "a" || String.eqb response "always").

Definition says_no (text : string) : bool :=
  negb (says_yes text) && negb (says_always text).

(** How often a run asked the operator about the pair [(operation, details)],
    counting the prompts whose answer satisfies [answer]. *)
Fixpoint prompts_where (answer : console_input -> bool)
    (operation details : string) (self : CriticalOperation)
    (rs : list request) : nat :=
  match rs with
  | [] => O
  | r :: rs' =>
      let '(_, self', ev) := serve self r in
      ((if String.eqb (req_operation r) operation
           && String.eqb (req_details r) details
           && prompted ev && answer (req_stdin r)
        then 1 else 0) + prompts_where answer operation details self' rs')%nat
  end.

Definition prompts_for : string -> string -> CriticalOperation -> list request -> nat :=
  prompts_where (fun _ => true).

(** The answers the method records: "always" and every denial. *)
Definition recorded_answer (stdin : console_input) : bool :=
  match stdin with
  | Line text => says_always text || says_no text
  | Interrupt | EndOfInput => false
  end.

(** The decision recorded for a key, if any: approval is looked up first. *)
Definition cached (self : CriticalOperation) (key : string) : option bool :=
  if decide (key ∈ approved_operations self) then Some true
  else if decide (key ∈ denied_operations self) then Some false
  else None.

(** *** The detectors of [CriticalOperation]

    The pattern tables [__init__] builds, and the three methods that read
    them. *)

Definition rm_patterns : list string :=
  ["\brm\s+-"; "\brm\s+/"; ">>\s*/dev/null"].

Definition dd_patterns : list string :=
  ["\bdd\s+if="; "\bdd\s+of="].

Definition dangerous_bash_cmds : Dict.dict string :=
  [("mkfs", "Format filesystem");
   ("fdisk", "Partition disk");
   ("parted", "Partition disk");
   ("dd", "Low-level disk write");
   (":`", "Execute shell")].

Definition critical_file_paths : Dict.dict string :=
  [("/etc", "System configuration");
   ("/sys", "System kernel interface");
   ("/proc", "Process information");
   ("~/.ssh", "SSH keys");
   ("~/.aws", "AWS credentials");
   (".env", "Environment variables (may contain secrets)")].

(** [critical_extensions] is a Python set: the order in which a loop visits
    its members is not specified.  The members, in the order of the source
    text: *)
Definition critical_extensions : list string := [".key"; ".pem"; ".p12"; ".pfx"].


(** [s.endswith(suffix)] *)
Definition endswith (s suffix : string) : bool :=
  PyStr.startswith (PyStr.reverse s) (PyStr.reverse suffix).

(** [for key, reason in table.items(): if key in text: return reason] *)
Fixpoint first_contained (text : string) (table : Dict.dict string) : option string :=
  match table with
  | [] => None
  | (key, reason) :: rest =>
      if PyStr.contains text key then Some reason else first_contained text rest
  end.

(** [is_critical_bash] *)
Definition is_critical_bash (command : string) : bool * option string :=
  let cmd_lower := PyStr.lower command in
  if existsb (fun pattern => PyRe.search pattern cmd_lower) rm_patterns
  then (true, Some "Delete files with 'rm' command")
  else if existsb (fun pattern => PyRe.search pattern cmd_lower) dd_patterns
  then (true, Some "Disk write with 'dd' command")
  else
    match first_contained cmd_lower dangerous_bash_cmds with
    | Some description => (true, Some description)
    | None => (false, None)
    end.

(** [for ext in self.critical_extensions: if file_path.endswith(ext): ...];
    [order] is the order in which the set is visited. *)
Fixpoint first_extension (file_path : string) (order : list string) : option string :=
  match order with
  | [] => None
  | ext :: rest =>
      if endswith file_path ext then Some ext else first_extension file_path rest
  end.

(** [is_critical_file_write], with the set [critical_extensions] visited in
    the order [order]. *)
Definition is_critical_file_write (order : list string) (file_path : string)
  : bool * option string :=
  let path_lower := PyStr.lower file_path in
  match first_contained path_lower critical_file_paths with
  | Some reason => (true, Some ("Write to sensitive path: " ++ reason))
  | None =>
      match first_extension file_path order with
      | Some ext => (true, Some ("Write to " ++ ext ++ " file (possible secret)"))
      | None => (false, None)
      end
  end.



End Safety.

(** ** tool_tracker.py *)
Module ToolTracker.
Section WithFloat.
Context `{PyFloat}.

(** The value [record_execution] keeps per tool name. *)
Record ToolStat : Type := mkToolStat {
  total : Z;
  successful : Z;
  failed : Z;
  success_rate : float;
  last_used : option string;
  errors : gmap string Z
}.

(** The entry created on first sight of a tool name. *)
Definition new_stat : ToolStat :=
  {| total := 0; successful := 0; failed := 0; success_rate := of_Q 0;
     last_used := None; errors := ∅ |}.

Record SessionStat : Type := mkSessionStat {
  calls : Z;
  successes : Z;
  failures : Z
}.

(** A JSON document, as [json.dump] writes and [json.load] reads it; an
    object lists its members in order. *)
Inductive json : Type :=
| JNull
| JInt (n : Z)
| JFloat (x : float)
| JStr (s : string)
| JObj (members : list (string * json)).

(** [tool_stats.json] on disk: missing, a JSON document, or text that
    [json.load] rejects (what a write that failed half way leaves). *)
Inductive file : Type :=
| Missing
| Document (doc : json)
| Unreadable.

(** The outcome of one attempt to write the file: it succeeds, or an
    exception is raised and the file is left as [remains]. *)
Inductive disk_write : Type :=
| WriteOk
| WriteFails (remains : file).

Record ToolTracker : Type := mkToolTracker {
  stats : Dict.dict ToolStat;
  session_stats : Dict.dict SessionStat;
  stats_file : file
}.

(** What [json.dump(self.stats, f)] writes. *)
Definition stat_to_json (st : ToolStat) : json :=
  JObj [("total", JInt (total st));
        ("successful", JInt (successful st));
        ("failed", JInt (failed st));
        ("success_rate", JFloat (success_rate st));
        ("last_used", match last_used st with Some t => JStr t | None => JNull end);
        ("errors", JObj (map (fun kv => (fst kv, JInt (snd kv))) (map_to_list (errors st))))].

Definition stats_to_json (table : Dict.dict ToolStat) : json :=
  JObj (map (fun kv => (fst kv, stat_to_json (snd kv))) table).

(** Reading a loaded document back as a statistics table.  [json.load]
    builds each dict member by member, a later member replacing an earlier
    one of the same name.  A document that is no statistics table is outside
    the embedding ([None]). *)
Definition json_int (j : json) : option Z :=
  match j with JInt n => Some n | _ => None end.

Fixpoint load_errors (members : list (string * json)) (acc : gmap string Z)
  : option (gmap string Z) :=
  match members with
  | [] => Some acc
  | (k, j) :: rest =>
      match json_int j with
      | Some n => load_errors rest (<[k := n]> acc)
      | None => None
      end
  end.

Definition stat_of_json (j : json) : option ToolStat :=
  match j with
  | JObj members =>
      match Dict.get "total" members, Dict.get "successful" members,
            Dict.get "failed" members, Dict.get "success_rate" members,
            Dict.get "last_used" members, Dict.get "errors" members with
      | Some (JInt t), Some (JInt s), Some (JInt f), Some (JFloat r),
        Some lu, Some (JObj errs) =>
          match load_errors errs ∅,
                match lu with
                | JStr ts => Some (Some ts)
                | JNull => Some None
                | _ => None
                end with
          | Some e, Some l => Some (mkToolStat t s f r l e)
          | _, _ => None
          end
      | _, _, _, _, _, _ => None
      end
  | _ => None
  end.

Fixpoint load_table (members : list (string * json)) (acc : Dict.dict ToolStat)
  : option (Dict.dict ToolStat) :=
  match members with
  | [] => Some acc
  | (k, j) :: rest =>
      match stat_of_json j with
      | Some st => load_table rest (Dict.set k st acc)
      | None => None
      end
  end.

Definition stats_of_json (j : json) : option (Dict.dict ToolStat) :=
  match j with
  | JObj members => load_table members []
  | _ => None
  end.

(** [_load_stats]: the table in the file; the empty table when the file is
    missing or [json.load] raises. *)
Definition _load_stats (f : file) : Dict.dict ToolStat :=
  match f with
  | Missing => []
  | Unreadable => []
  | Document doc =>
      match stats_of_json doc with Some table => table | None => [] end
  end.

(** [__init__]: the tracker over the statistics file of its directory. *)
Definition init (f : file) : ToolTracker :=
  {| stats := _load_stats f; session_stats := []; stats_file := f |}.

(** [_save_stats]: rewrite the file with the whole table; an exception is
    swallowed. *)
Definition _save_stats (self : ToolTracker) (disk : disk_write) : ToolTracker :=
  {| stats := stats self;
     session_stats := session_stats self;
     stats_file := match disk with
                   | WriteOk => Document (stats_to_json (stats self))
                   | WriteFails remains => remains
                   end |}.

(** [record_execution(tool_name, success, error)]; [now] is
    [datetime.now().isoformat()] and [disk] the outcome of the write. *)
Definition record_execution (self : ToolTracker) (tool_name : string)
    (success : bool) (error : option string) (now : string) (disk : disk_write)
  : ToolTracker :=
  let st0 := match Dict.get tool_name (stats self) with
             | Some st => st
             | None => new_stat
             end in
  let total' := total st0 + 1 in
  let successful' := if success then successful st0 + 1 else successful st0 in
  let failed' := if success then failed st0 else failed st0 + 1 in
  let errors' :=
    if success then errors st0
    else match error with
         | Some (String c e) =>
             let error_type := PyStr.before_first ":" (String c e) in
             <[error_type := default 0 (errors st0 !! error_type) + 1]> (errors st0)
         | _ => errors st0
         end in
  let st := {| total := total'; successful := successful'; failed := failed';
               success_rate := truediv successful' total';
               last_used := Some now; errors := errors' |} in
  let ss0 := match Dict.get tool_name (session_stats self) with
             | Some ss => ss
             | None => mkSessionStat 0 0 0
             end in
  let ss := {| calls := calls ss0 + 1;
               successes := if success then successes ss0 + 1 else successes ss0;
               failures := if success then failures ss0 else failures ss0 + 1 |} in
  _save_stats {| stats := Dict.set tool_name st (stats self);
                 session_stats := Dict.set tool_name ss (session_stats self);
                 stats_file := stats_file self |} disk.

(** [get_success_rate] *)
Definition get_success_rate (self : ToolTracker) (tool_name : string) : float :=
  match Dict.get tool_name (stats self) with
  | None => of_Q (1 # 2)
  | Some st => success_rate st
  end.

(** One entry of the ranking. *)
Record Ranked : Type := mkRanked {
  tool : string;
  ranked_success_rate : float;
  ranked_total : Z;
  ranked_successful : Z
}.

(** [get_reliability_ranking] *)
Definition get_reliability_ranking (self : ToolTracker) : list Ranked :=
  let tools :=
    omap (fun kv : string * ToolStat =>
            if 3 <=? total (snd kv)
            then Some (mkRanked (fst kv) (success_rate (snd kv))
                                (total (snd kv)) (successful (snd kv)))
            else None) (stats self) in
  sorted_reverse flt ranked_success_rate tools.

(** One recorded execution, as [record_execution] receives it. *)
Record execution : Type := mkExecution {
  ex_tool : string;
  ex_success : bool;
  ex_error : option string;
  ex_now : string;
  ex_disk : disk_write
}.

Definition record_all (self : ToolTracker) (log : list execution) : ToolTracker :=
  fold_left (fun t e => record_execution t (ex_tool e) (ex_success e) (ex_error e)
                                          (ex_now e) (ex_disk e)) log self.

(** How many executions of [tool_name] in a log succeeded, and failed. *)
Definition count_success (tool_name : string) (log : list execution) : Z :=
  Z.of_nat (length (filter (fun e => ex_tool e = tool_name ∧ ex_success e = true) log)).

Definition count_failure (tool_name : string) (log : list execution) : Z :=
  Z.of_nat (length (filter (fun e => ex_tool e = tool_name ∧ ex_success e = false) log)).

(** The entry a tool name has, or would start from. *)
Definition entry (t : ToolTracker) (name : string) : ToolStat := default new_stat (Dict.get name (stats t)).

(** [get_recommendation]: the entry of the ranking the recommendation is
    formatted from ("Recommend: <tool> (<rate>% success rate)"), [None] when
    the method returns [None]. *)
Definition get_recommendation (self : ToolTracker) : option Ranked :=
  match get_reliability_ranking self with
  | [] => None
  | best_tool :: _ =>
      if fge (ranked_success_rate best_tool) (of_Q (8 # 10)) then Some best_tool
      else None
  end.

(** The key under which [record_execution] counts a failure in [errors]:
    [error.split(":")[0]], when an error text is given and is not empty. *)
Definition error_type (error : option string) : option string :=
  match error with
  | Some (String c e) => Some (PyStr.before_first ":" (String c e))
  | _ => None
  end.

(** How many failed executions of [tool_name] in a log fall under the key
    [key]. *)
Definition count_errors (tool_name key : string) (log : list execution) : Z :=
  Z.of_nat (length (filter (fun e => ex_tool e = tool_name ∧ ex_success e = false
                                     ∧ error_type (ex_error e) = Some key) log)).

End WithFloat.
End ToolTracker.

(** ** semantic_memory.py *)
Module SemanticMemory.
Section WithFloat.
Context `{PyFloat}.

(** [set(s.lower().split())] *)
Definition words (s : string) : gset string :=
  list_to_set (PyStr.split_ws (PyStr.lower s)).

(** [SimpleTextSimilarity.jaccard_similarity] *)
Definition jaccard_similarity (str1 str2 : string) : float :=
  let words1 := words str1 in
  let words2 := words str2 in
  if decide (words1 = ∅) then of_Q 0
  else if decide (words2 = ∅) then of_Q 0
  else
    let intersection := Z.of_nat (size (words1 ∩ words2)) in
    let union := Z.of_nat (size (words1 ∪ words2)) in
    if 0 <? union then truediv intersection union else of_Q 0.

(** [SimpleTextSimilarity.token_overlap] *)
Definition token_overlap (str1 str2 : string) : float :=
  jaccard_similarity str1 str2.

(** A stored solution.  [tools_used] is [list(tools)] of a Python set, whose
    order is unspecified: it is kept as the set. *)
Record Solution : Type := mkSolution {
  task : string;
  steps : list string;
  timestamp : string;
  tools_used : gset string
}.

(** The object: the list in memory and the lines of [solutions.jsonl]. *)
Record SemanticMemory : Type := mkSemanticMemory {
  solutions : list Solution;
  memory_file : list Solution
}.

(** [__init__]: [_load_solutions] reads the lines of the file. *)
Definition init (lines : list Solution) : SemanticMemory :=
  {| solutions := lines; memory_file := lines |}.

(** The body of the loop of [_extract_tools] for one step: the tool name to
    add, if any.  [step.split("tool:")[1]] and [.split()[0]] raise IndexError
    when the list is too short. *)
Definition extract_tool (step : string) : result (option string) :=
  if PyStr.contains (PyStr.lower step) "tool:" then
    match PyStr.split_sep "tool:" step with
    | _ :: part :: _ =>
        match PyStr.split_ws (PyStr.strip part) with
        | tool :: _ => Return (Some tool)
        | [] => Raise IndexError
        end
    | _ => Raise IndexError
    end
  else Return None.

Fixpoint _extract_tools_from (execution_path : list string) (tools : gset string)
  : result (gset string) :=
  match execution_path with
  | [] => Return tools
  | step :: rest =>
      match extract_tool step with
      | Raise e => Raise e
      | Return None => _extract_tools_from rest tools
      | Return (Some tool) => _extract_tools_from rest (tools ∪ {[tool]})
      end
  end.

Definition _extract_tools (execution_path : list string) : result (gset string) :=
  _extract_tools_from execution_path ∅.

(** [_persist_solution]: append a line; a failed write is swallowed and
    leaves the file as it was. *)
Definition _persist_solution (self : SemanticMemory) (solution : Solution)
    (disk_ok : bool) : SemanticMemory :=
  {| solutions := solutions self;
     memory_file := if disk_ok then memory_file self ++ [solution]
                    else memory_file self |}.

(** [store_solution]; [now] is [datetime.now().isoformat()]. *)
Definition store_solution (self : SemanticMemory) (task_description : string)
    (execution_path : list string) (success : bool) (now : string) (disk_ok : bool)
  : result SemanticMemory :=
  if negb success then Return self
  else
    match _extract_tools execution_path with
    | Raise e => Raise e
    | Return tools =>
        let solution := {| task := task_description; steps := execution_path;
                           timestamp := now; tools_used := tools |} in
        Return (_persist_solution
                  {| solutions := solutions self ++ [solution];
                     memory_file := memory_file self |} solution disk_ok)
    end.

(** The entries the loop of [find_similar_solutions] collects, each with its
    similarity to the query. *)
Definition scored (task_description : string) (threshold : float)
    (stored : list Solution) : list (Solution * float) :=
  omap (fun solution =>
          let similarity := token_overlap task_description (task solution) in
          if fge similarity threshold then Some (solution, similarity) else None)
       stored.

(** [find_similar_solutions(task_description, threshold, limit)] *)
Definition find_similar_solutions (self : SemanticMemory) (task_description : string)
    (threshold : float) (limit : Z) : list Solution :=
  match solutions self with
  | [] => []
  | _ =>
      let similarities := scored task_description threshold (solutions self) in
      map fst (slice_to limit (sorted_reverse flt snd similarities))
  end.

(** [get_memory_context] formats the solutions found with the default
    threshold 0.3 and limit 3; the text is empty exactly when none is found.
    The solutions listed stand for the text. *)
Definition get_memory_context (self : SemanticMemory) (task_description : string)
  : list Solution :=
  find_similar_solutions self task_description (of_Q (3 # 10)) 3.

(** [clear_memory] *)
Definition clear_memory (self : SemanticMemory) : SemanticMemory :=
  {| solutions := []; memory_file := [] |}.

End WithFloat.
End SemanticMemory.

(** ** evaluation.py *)
Module Evaluation.
Section WithFloat.
Context `{PyFloat}.

Record TaskExecution : Type := mkTaskExecution {
  task_id : string;
  prompt : string;
  start_time : float;
  end_time : option float;
  success : bool;
  iterations : Z;
  total_tokens : Z;
  prompt_tokens : Z;
  completion_tokens : Z;
  tools_used : list string;
  error_message : option string;
  model : option string
}.

(** The property [duration]: [None] while [end_time] is unset (or zero). *)
Definition duration (e : TaskExecution) : option float :=
  match end_time e with
  | Some t => if fnonzero t then Some (fsub t (start_time e)) else None
  | None => None
  end.

(** The document [_update_summary] writes ([most_used_tools] is derived
    from [tool_usage] and left out). *)
Record Summary : Type := mkSummary {
  last_updated : string;
  total_tasks : Z;
  successful_tasks : Z;
  failed_tasks : Z;
  success_rate : float;
  avg_iterations_per_task : float;
  avg_duration_seconds : float;
  total_tokens_used : Z;
  avg_tokens_per_task : float;
  tool_usage : Dict.dict Z;
  model_performance : Dict.dict (Z * Z)
}.

(** The evaluator: the task in flight, the history in memory, the lines of
    [executions.jsonl] and the document in [evaluation_summary.json]. *)
Record AgentEvaluator : Type := mkAgentEvaluator {
  current_execution : option TaskExecution;
  executions_history : list TaskExecution;
  executions_file : list TaskExecution;
  summary_file : option Summary
}.

(** [__init__] over a directory holding [lines] and [summary]: [_load_history]
    reads the lines. *)
Definition init (lines : list TaskExecution) (summary : option Summary)
  : AgentEvaluator :=
  {| current_execution := None; executions_history := lines;
     executions_file := lines; summary_file := summary |}.

(** [start_task]; [id_clock] is [int(time.time() * 1000)] and [now] the
    second reading of the clock. *)
Definition start_task (self : AgentEvaluator) (prompt : string)
    (model : option string) (id_clock : Z) (now : float)
  : string * AgentEvaluator :=
  let task_id := "task_" ++ PyStr.str_of_Z id_clock in
  (task_id,
   {| current_execution :=
        Some {| task_id := task_id; prompt := prompt; start_time := now;
                end_time := None; success := false; iterations := 0;
                total_tokens := 0; prompt_tokens := 0; completion_tokens := 0;
                tools_used := []; error_message := None; model := model |};
      executions_history := executions_history self;
      executions_file := executions_file self;
      summary_file := summary_file self |}).

(** The methods that update the task in flight, if there is one. *)
Definition update_current (self : AgentEvaluator)
    (f : TaskExecution -> TaskExecution) : AgentEvaluator :=
  {| current_execution := f <$> current_execution self;
     executions_history := executions_history self;
     executions_file := executions_file self;
     summary_file := summary_file self |}.

Definition record_iteration (self : AgentEvaluator) : AgentEvaluator :=
  update_current self (fun e =>
    mkTaskExecution (task_id e) (prompt e) (start_time e) (end_time e) (success e)
      (iterations e + 1) (total_tokens e) (prompt_tokens e) (completion_tokens e)
      (tools_used e) (error_message e) (model e)).

Definition record_tool_use (self : AgentEvaluator) (tool_name : string)
  : AgentEvaluator :=
  update_current self (fun e =>
    mkTaskExecution (task_id e) (prompt e) (start_time e) (end_time e) (success e)
      (iterations e) (total_tokens e) (prompt_tokens e) (completion_tokens e)
      (tools_used e ++ [tool_name]) (error_message e) (model e)).

Definition record_tokens (self : AgentEvaluator) (total prompt_ completion : Z)
  : AgentEvaluator :=
  update_current self (fun e =>
    mkTaskExecution (task_id e) (prompt e) (start_time e) (end_time e) (success e)
      (iterations e) (total_tokens e + total) (prompt_tokens e + prompt_)
      (completion_tokens e + completion)
      (tools_used e) (error_message e) (model e)).

(** [sum(...)] over the history. *)
Definition sum_Z (l : list Z) : Z := fold_left Z.add l 0.

(** [sum(durations)]: the integer 0 when the list is empty, else the floats
    added from the left. *)
Definition sum_float (l : list float) : float :=
  match l with
  | [] => of_int 0
  | d :: l' => fold_left fadd l' d
  end.

(** The loop that counts tool names. *)
Definition count_tools (all_tools : list string) : Dict.dict Z :=
  fold_left (fun tool_counts tool =>
               Dict.set tool (default 0 (Dict.get tool tool_counts) + 1) tool_counts)
            all_tools [].

(** The loop that counts tasks per model. *)
Definition count_models (history : list TaskExecution) : Dict.dict (Z * Z) :=
  fold_left (fun model_stats e =>
               match model e with
               | Some (String c m) =>
                   let name := String c m in
                   let '(t, s) := default (0, 0) (Dict.get name model_stats) in
                   Dict.set name (t + 1, if success e then s + 1 else s) model_stats
               | _ => model_stats
               end)
            history [].

(** The summary [_update_summary] computes from a non-empty history;
    [stamp] is [datetime.now().isoformat()]. *)
Definition summarize (history : list TaskExecution) (stamp : string) : Summary :=
  let total_tasks := Z.of_nat (length history) in
  let successful_tasks :=
    sum_Z (map (fun _ => 1) (filter (fun e => success e = true) history)) in
  let failed_tasks := total_tasks - successful_tasks in
  let total_iterations := sum_Z (map iterations history) in
  let total_tokens := sum_Z (map total_tokens history) in
  let durations :=
    omap (fun e => match duration e with
                   | Some d => if fnonzero d then Some d else None
                   | None => None
                   end) history in
  let avg_duration :=
    match durations with
    | [] => of_int 0
    | _ => fdiv (sum_float durations) (of_int (Z.of_nat (length durations)))
    end in
  {| last_updated := stamp;
     total_tasks := total_tasks;
     successful_tasks := successful_tasks;
     failed_tasks := failed_tasks;
     success_rate :=
       if 0 <? total_tasks then truediv successful_tasks total_tasks else of_int 0;
     avg_iterations_per_task :=
       if 0 <? total_tasks then truediv total_iterations total_tasks else of_int 0;
     avg_duration_seconds := avg_duration;
     total_tokens_used := total_tokens;
     avg_tokens_per_task :=
       if 0 <? total_tasks then truediv total_tokens total_tasks else of_int 0;
     tool_usage := count_tools (concat (map tools_used history));
     model_performance := count_models history |}.

(** [_update_summary]: nothing for an empty history; else the summary is
    recomputed from the whole history and written ([disk_ok]: the write
    succeeds; a failure is reported and swallowed). *)
Definition _update_summary (self : AgentEvaluator) (stamp : string)
    (disk_ok : bool) : AgentEvaluator :=
  match executions_history self with
  | [] => self
  | _ =>
      {| current_execution := current_execution self;
         executions_history := executions_history self;
         executions_file := executions_file self;
         summary_file := if disk_ok
                         then Some (summarize (executions_history self) stamp)
                         else summary_file self |}
  end.

(** [end_task(success, error_message)]; [now] is [time.time()], [stamp] the
    time stamp of the summary, [line_ok] and [summary_ok] the outcomes of the
    two writes. *)
Definition end_task (self : AgentEvaluator) (success : bool)
    (error_message : option string) (now : float) (stamp : string)
    (line_ok summary_ok : bool) : AgentEvaluator :=
  match current_execution self with
  | None => self
  | Some e =>
      let finished :=
        mkTaskExecution (task_id e) (prompt e) (start_time e) (Some now) success
          (iterations e) (total_tokens e) (prompt_tokens e) (completion_tokens e)
          (tools_used e) error_message (model e) in
      let appended :=
        {| current_execution := Some finished;
           executions_history := executions_history self ++ [finished];
           executions_file := if line_ok then executions_file self ++ [finished]
                              else executions_file self;
           summary_file := summary_file self |} in
      let summarized := _update_summary appended stamp summary_ok in
      {| current_execution := None;
         executions_history := executions_history summarized;
         executions_file := executions_file summarized;
         summary_file := summary_file summarized |}
  end.

(** [get_summary]: the document in the summary file, [{}] when there is none. *)
Definition get_summary (self : AgentEvaluator) : option Summary :=
  summary_file self.

(** What a caller records between [start_task] and [end_task]. *)
Inductive recording : Type :=
| Iteration
| ToolUse (tool_name : string)
| Tokens (total prompt_ completion : Z).

Definition record (self : AgentEvaluator) (r : recording) : AgentEvaluator :=
  match r with
  | Iteration => record_iteration self
  | ToolUse tool_name => record_tool_use self tool_name
  | Tokens total prompt_ completion => record_tokens self total prompt_ completion
  end.

(** The total tokens a script records. *)
Fixpoint tokens_recorded (script : list recording) : Z :=
  match script with
  | [] => 0
  | Tokens total _ _ :: rest => total + tokens_recorded rest
  | _ :: rest => tokens_recorded rest
  end.

(** What the caller of one task supplies, and what its environment does. *)
Record task_run : Type := mkTaskRun {
  run_prompt : string;
  run_model : option string;
  run_id_clock : Z;
  run_start : float;
  run_script : list recording;
  run_error : option string;
  run_end : float;
  run_stamp : string;
  run_line_ok : bool
}.

(** One task from [start_task] to [end_task]. *)
Definition complete_task (self : AgentEvaluator) (r : task_run) (success : bool)
    (summary_ok : bool) : AgentEvaluator :=
  end_task
    (fold_left record (run_script r)
       (start_task self (run_prompt r) (run_model r) (run_id_clock r) (run_start r)).2)
    success (run_error r) (run_end r) (run_stamp r) (run_line_ok r) summary_ok.

(** [l[n:]] for any integer [n]: a negative [n] counts from the end. *)
Definition slice_from {A : Type} (n : Z) (l : list A) : list A :=
  if 0 <=? n then drop (Z.to_nat n) l
  else drop (length l - Z.to_nat (- n)) l.

(** [get_recent_executions(n)]: [reversed(self.executions_history[-n:])];
    each execution stands for the dict [to_dict] makes of it. *)
Definition get_recent_executions (self : AgentEvaluator) (n : Z)
  : list TaskExecution :=
  match executions_history self with
  | [] => []
  | history => rev (slice_from (- n) history)
  end.

(** How many tasks of a history ran on [name], and how many of them
    succeeded. *)
Definition count_model (name : string) (history : list TaskExecution) : Z * Z :=
  (Z.of_nat (length (filter (fun e => model e = Some name) history)),
   Z.of_nat (length (filter (fun e => model e = Some name ∧ success e = true) history))).

End WithFloat.
End Evaluation.

(** ** sessions.py: the session log

    [save_message] appends one line to the file of the session.  A manager
    is kept with the entries it has appended: the session id that names the
    file, the message and the time stamp of the entry. *)
Module Sessions.

Record SessionManager (M : Type) : Type := mkSessionManager {
  sessions_dir : string;
  entries : list (string * M * string)
}.

Arguments mkSessionManager {M} sessions_dir entries.
Arguments sessions_dir {M} s.
Arguments entries {M} s.

(** What the file system does to one [_append_log]: the line is written
    ([now] is [datetime.now().isoformat()]), or [open], [json.dumps] or
    [write] raises, and nothing in the module handles the exception. *)
Inductive append_env : Type :=
| Appends (now : string)
| AppendRaises (e : py_exn).

(** [save_message(session_id, message)] *)
Definition save_message {M : Type} (self : SessionManager M) (session_id : string)
    (message : M) (env : append_env) : result (SessionManager M) :=
  match env with
  | Appends now =>
      Return (mkSessionManager (sessions_dir self)
                (entries self ++ [(session_id, message, now)]))
  | AppendRaises e => Raise e
  end.

End Sessions.

(** ** agent.py: the retry executor and the main loop

    [_execute_tool_with_permissions] (gating and the registry call), the
    completion service, the clock and the file system are the environment
    of these two methods: what each call of them yields is given by the
    oracles below.  The agent's state keeps what the two methods read and
    write: the switches, the conversation, the execution path, the episodic
    memory, the evaluator and the session log.  The tool tracker and the
    approval cache, which only [_execute_tool_with_permissions] touches, the
    role picked by the orchestrator (stored and printed, never read) and
    console output are left out. *)
Module Agent.
Section WithFloat.
Context `{PyFloat}.

Definition MAX_ITERATIONS : nat := 50.

Definition REFLECTION_KEYWORDS : list string :=
  ["error"; "failed"; "traceback"; "exception"; "not found";
   "permission denied"; "invalid"].

Record RetryConfig : Type := mkRetryConfig {
  max_retries : nat;
  backoff_factor : Q
}.

Definition RETRY_CONFIG : Dict.dict RetryConfig :=
  [("Bash", mkRetryConfig 3 2);
   ("Read", mkRetryConfig 2 (3 # 2));
   ("Write", mkRetryConfig 2 (3 # 2));
   ("WebSearch", mkRetryConfig 2 2)].

(** A tool call of a response.  [arguments] is [json.loads] of the argument
    text: the keys of the object, or the exception for a malformed text. *)
Record ToolCall : Type := mkToolCall {
  call_id : string;
  function_name : string;
  arguments : result (list string)
}.

(** The messages of the conversation, by what appends them:
    the plan ([assistant], "[Plan]" and the plan), the memory context
    ([assistant]), the prompt ([user]), a response of the model
    ([assistant], with its tool calls), a reflection ([assistant],
    "[Reflecting on <tool> error]" and the reflection) and a tool result
    ([tool]). *)
Inductive Message : Type :=
| PlanMessage (plan : string)
| MemoryMessage (similar : list SemanticMemory.Solution)
| UserMessage (prompt : string)
| AssistantMessage (content : option string) (tool_calls : list ToolCall)
| ReflectionMessage (function_name reflection : string)
| ToolMessage (tool_call_id content : string).

Inductive history_entry : Type :=
| PlanEntry (content : string)
| ReflectionEntry (tool content : string).

Record Agent : Type := mkAgent {
  model : string;
  enable_planning : bool;
  enable_reflection : bool;
  enable_retry : bool;
  enable_streaming : bool;
  enable_memory : bool;
  enable_evaluation : bool;
  messages : list Message;
  last_tool_output : string;
  execution_history : list history_entry;
  current_execution_path : list string;
  semantic_memory : SemanticMemory.SemanticMemory;
  evaluator : Evaluation.AgentEvaluator;
  session_manager : option (Sessions.SessionManager Message);
  session_id : option string
}.

Definition set_messages (self : Agent) (m : list Message) : Agent :=
  mkAgent (model self) (enable_planning self) (enable_reflection self)
    (enable_retry self) (enable_streaming self) (enable_memory self)
    (enable_evaluation self) m (last_tool_output self) (execution_history self)
    (current_execution_path self) (semantic_memory self) (evaluator self)
    (session_manager self) (session_id self).

Definition set_last_tool_output (self : Agent) (out : string) : Agent :=
  mkAgent (model self) (enable_planning self) (enable_reflection self)
    (enable_retry self) (enable_streaming self) (enable_memory self)
    (enable_evaluation self) (messages self) out (execution_history self)
    (current_execution_path self) (semantic_memory self) (evaluator self)
    (session_manager self) (session_id self).

Definition set_execution_history (self : Agent) (h : list history_entry) : Agent :=
  mkAgent (model self) (enable_planning self) (enable_reflection self)
    (enable_retry self) (enable_streaming self) (enable_memory self)
    (enable_evaluation self) (messages self) (last_tool_output self) h
    (current_execution_path self) (semantic_memory self) (evaluator self)
    (session_manager self) (session_id self).

Definition set_current_execution_path (self : Agent) (path : list string) : Agent :=
  mkAgent (model self) (enable_planning self) (enable_reflection self)
    (enable_retry self) (enable_streaming self) (enable_memory self)
    (enable_evaluation self) (messages self) (last_tool_output self)
    (execution_history self) path (semantic_memory self) (evaluator self)
    (session_manager self) (session_id self).

Definition set_semantic_memory (self : Agent)
    (m : SemanticMemory.SemanticMemory) : Agent :=
  mkAgent (model self) (enable_planning self) (enable_reflection self)
    (enable_retry self) (enable_streaming self) (enable_memory self)
    (enable_evaluation self) (messages self) (last_tool_output self)
    (execution_history self) (current_execution_path self) m (evaluator self)
    (session_manager self) (session_id self).

Definition set_evaluator (self : Agent) (ev : Evaluation.AgentEvaluator) : Agent :=
  mkAgent (model self) (enable_planning self) (enable_reflection self)
    (enable_retry self) (enable_streaming self) (enable_memory self)
    (enable_evaluation self) (messages self) (last_tool_output self)
    (execution_history self) (current_execution_path self) (semantic_memory self) ev
    (session_manager self) (session_id self).

Definition set_session_manager (self : Agent)
    (manager : option (Sessions.SessionManager Message)) : Agent :=
  mkAgent (model self) (enable_planning self) (enable_reflection self)
    (enable_retry self) (enable_streaming self) (enable_memory self)
    (enable_evaluation self) (messages self) (last_tool_output self)
    (execution_history self) (current_execution_path self) (semantic_memory self)
    (evaluator self) manager (session_id self).

(** [str(e)]; an [EOFError] is the one [input()] raises at the end of the
    input. *)
Definition exn_text (e : py_exn) : string :=
  match e with
  | ValueError msg => msg
  | OtherException msg => msg
  | IndexError => "list index out of range"
  | EOFError => "EOF when reading a line"
  | KeyboardInterrupt => ""
  end.

(** [except Exception] catches every exception but [KeyboardInterrupt]. *)
Definition is_Exception (e : py_exn) : bool :=
  match e with KeyboardInterrupt => false | _ => true end.

(** What one call of [_execute_tool_with_permissions] yields: the string it
    returns, with [executed] telling whether the registry call returned (the
    tool use is then recorded and the step appended to the execution path),
    or the exception that leaves it. *)
Inductive attempt_outcome : Type :=
| Returned (output : string) (executed : bool)
| Raised (e : py_exn).

(** The environment of one attempt: the outcome of the execution and, should
    the executor ask for a reflection, what the completion service answers:
    a text ([None] for no choice or no content) or an exception. *)
Record attempt_env : Type := mkAttemptEnv {
  outcome : attempt_outcome;
  reflection_reply : result (option string)
}.

(** [_should_reflect_on_output] *)
Definition _should_reflect_on_output (self : Agent) (output : string) : bool :=
  if negb (enable_reflection self) then false
  else
    let output_lower := PyStr.lower output in
    existsb (fun keyword => PyStr.contains output_lower keyword) REFLECTION_KEYWORDS.

(** [_reflect_on_execution]: the reflection (the empty string for none) and
    the agent, whose execution history gains an entry with the reflection. *)
Definition _reflect_on_execution (self : Agent) (tool_name output : string)
    (reply : result (option string)) : result (string * Agent) :=
  if negb (enable_reflection self) || negb (_should_reflect_on_output self output)
  then Return ("", self)
  else
    match reply with
    | Return (Some (String c r)) =>
        let reflection := String c r in
        Return (reflection,
                set_execution_history self
                  (execution_history self ++ [ReflectionEntry tool_name reflection]))
    | Return _ => Return ("", self)
    | Raise e => if is_Exception e then Return ("", self) else Raise e
    end.

(** The effect on the agent of an execution that reached the registry and
    returned. *)
Definition after_execution (self : Agent) (tc : ToolCall) : Agent :=
  let self1 :=
    if enable_evaluation self
    then set_evaluator self
           (Evaluation.record_tool_use (evaluator self) (function_name tc))
    else self in
  let keys := match arguments tc with Return ks => ks | Raise _ => [] end in
  let step := "tool:" ++ function_name tc ++ "("
              ++ String.concat ", " keys ++ ")" in
  set_current_execution_path self1 (current_execution_path self1 ++ [step]).

(** What the executor did besides returning: the waits it slept, in order. *)
Definition sleeps : Type := list Q.

(** [if attempt < max_retries - 1: time.sleep(backoff_factor ** attempt)] *)
Definition backoff (cfg : RetryConfig) (attempt : nat) (slept : sleeps) : sleeps :=
  if (attempt <? max_retries cfg - 1)%nat
  then (slept ++ [Qpower (backoff_factor cfg) (Z.of_nat attempt)])%list
  else slept.

(** The loop [for attempt in range(max_retries)] from [attempt] on, with
    [remaining] rounds to go. *)
Fixpoint retry_loop (cfg : RetryConfig) (tc : ToolCall) (env : nat -> attempt_env)
    (remaining attempt : nat) (self : Agent) (last_error : option string)
    (slept : sleeps) : result string * Agent * sleeps :=
  match remaining with
  | O =>
      let out := match last_error with
                 | Some (String c r) => String c r
                 | _ => "Tool execution failed after retries"
                 end in
      (Return out, set_last_tool_output self out, slept)
  | S remaining' =>
      let caught (self' : Agent) (e : py_exn) :=
        retry_loop cfg tc env remaining' (S attempt) self'
                   (Some (exn_text e)) (backoff cfg attempt slept) in
      match outcome (env attempt) with
      | Raised e =>
          if is_Exception e then caught self e else (Raise e, self, slept)
      | Returned output executed =>
          let self1 := if executed then after_execution self tc else self in
          if negb (_should_reflect_on_output self1 output) then
            (Return output, set_last_tool_output self1 output, slept)
          else
            match arguments tc with
            | Raise e =>
                if is_Exception e then caught self1 e else (Raise e, self1, slept)
            | Return _ =>
                match _reflect_on_execution self1 (function_name tc) output
                        (reflection_reply (env attempt)) with
                | Raise e => (Raise e, self1, slept)
                | Return (reflection, self2) =>
                    let self3 :=
                      match reflection with
                      | EmptyString => self2
                      | _ => set_messages self2
                               (messages self2
                                ++ [ReflectionMessage (function_name tc) reflection])
                      end in
                    retry_loop cfg tc env remaining' (S attempt) self3
                               (Some output) (backoff cfg attempt slept)
                end
            end
      end
  end.

(** [_execute_tool_with_retry(tool_call)] *)
Definition _execute_tool_with_retry (self : Agent) (tc : ToolCall)
    (env : nat -> attempt_env) : result string * Agent * sleeps :=
  if negb (enable_retry self) then
    match outcome (env O) with
    | Raised e => (Raise e, self, [])
    | Returned output executed =>
        (Return output, if executed then after_execution self tc else self, [])
    end
  else
    let cfg := default (mkRetryConfig 1 1) (Dict.get (function_name tc) RETRY_CONFIG) in
    retry_loop cfg tc env (max_retries cfg) O self None [].

(** What the completion service yields for the request of one iteration: a
    response without choices, a message (with its tool calls, none for a
    final answer), or an exception raised by the call. *)
Inductive model_response : Type :=
| NoChoices
| Responds (content : option string) (tool_calls : list ToolCall)
| Fails (e : py_exn).

(** The environment of one call of [execute]: the clock readings of
    [start_task], the reply to the planning request, per iteration the
    response of the model, per iteration, tool call and attempt the
    environment of the attempt, what [store_solution] and [end_task] read
    (time stamps, outcomes of the disk writes), and what the file system
    does to each [save_message]: of the prompt, of the response of an
    iteration, of the result of a tool call of an iteration. *)
Record run_env : Type := mkRunEnv {
  clock_id : Z;
  clock_start : float;
  plan_reply : result (option string);
  responses : nat -> model_response;
  attempts : nat -> nat -> nat -> attempt_env;
  memory_now : string;
  memory_disk_ok : bool;
  clock_end : float;
  stamp : string;
  line_ok : bool;
  summary_ok : bool;
  prompt_save : Sessions.append_env;
  response_save : nat -> Sessions.append_env;
  result_save : nat -> nat -> Sessions.append_env
}.

(** [if self.session_manager and self.session_id:
        self.session_manager.save_message(self.session_id, message)] *)
Definition save_to_session (self : Agent) (message : Message)
    (env : Sessions.append_env) : result Agent :=
  match session_manager self, session_id self with
  | Some manager, Some (String c id) =>
      match Sessions.save_message manager (String c id) message env with
      | Return manager' => Return (set_session_manager self (Some manager'))
      | Raise e => Raise e
      end
  | _, _ => Return self
  end.

(** [_create_plan] *)
Definition _create_plan (self : Agent) (reply : result (option string))
  : result (string * Agent) :=
  if negb (enable_planning self) then Return ("", self)
  else
    match reply with
    | Return (Some (String c r)) =>
        let plan := String c r in
        Return (plan, set_execution_history self
                        (execution_history self ++ [PlanEntry plan]))
    | Return _ => Return ("", self)
    | Raise e => if is_Exception e then Return ("", self) else Raise e
    end.

(** [self.evaluator.end_task(...)] under [if self.enable_evaluation]. *)
Definition finish (self : Agent) (env : run_env) (success : bool)
    (error_message : option string) : Agent :=
  if enable_evaluation self
  then set_evaluator self
         (Evaluation.end_task (evaluator self) success error_message
            (clock_end env) (stamp env) (line_ok env) (summary_ok env))
  else self.

(** The two handlers of the loop's [try]. *)
Definition handle (self : Agent) (env : run_env) (e : py_exn) : string * Agent :=
  match e with
  | KeyboardInterrupt =>
      (String (ascii_of_nat 10) "Interrupted by user",
       finish self env false (Some "Interrupted by user"))
  | _ => ("Error: " ++ exn_text e, finish self env false (Some (exn_text e)))
  end.

(** [for tool_call in message.tool_calls]: run each call, append its
    result and save it to the session; [pos] is the position of the call in
    the response. *)
Fixpoint dispatch (self : Agent) (tool_calls : list ToolCall) (pos : nat)
    (env : nat -> nat -> attempt_env) (saves : nat -> Sessions.append_env)
  : result unit * Agent :=
  match tool_calls with
  | [] => (Return tt, self)
  | tc :: rest =>
      match _execute_tool_with_retry self tc (env pos) with
      | (Return output, self1, _) =>
          let tool_msg := ToolMessage (call_id tc) output in
          let self2 := set_messages self1 (messages self1 ++ [tool_msg]) in
          match save_to_session self2 tool_msg (saves pos) with
          | Return self3 => dispatch self3 rest (S pos) env saves
          | Raise e => (Raise e, self2)
          end
      | (Raise e, self1, _) => (Raise e, self1)
      end
  end.

(** The final answer: store the solution, end the task, return the text. *)
Definition final_answer (self : Agent) (prompt : string) (content : option string)
    (env : run_env) : string * Agent :=
  let final_response := default "" content in
  let stored :=
    match enable_memory self, current_execution_path self with
    | true, _ :: _ =>
        match SemanticMemory.store_solution (semantic_memory self) prompt
                (current_execution_path self) true (memory_now env)
                (memory_disk_ok env) with
        | Return m => Return (set_semantic_memory self m)
        | Raise e => Raise e
        end
    | _, _ => Return self
    end in
  match stored with
  | Return self1 => (final_response, finish self1 env true None)
  | Raise e => handle self env e
  end.

(** [for iteration in range(MAX_ITERATIONS)] from [iteration] on, with
    [remaining] rounds to go, and the code after the loop. *)
Fixpoint agent_loop (remaining iteration : nat) (self : Agent) (prompt : string)
    (stream : bool) (env : run_env) : string * Agent :=
  match remaining with
  | O =>
      ("Warning: Reached max iterations ("
       ++ PyStr.str_of_Z (Z.of_nat MAX_ITERATIONS) ++ ")",
       finish self env false (Some "Max iterations reached"))
  | S remaining' =>
      let self1 :=
        if enable_evaluation self
        then set_evaluator self (Evaluation.record_iteration (evaluator self))
        else self in
      let respond (content : option string) (tool_calls : list ToolCall) :=
        let assistant_msg := AssistantMessage content tool_calls in
        let self2 := set_messages self1 (messages self1 ++ [assistant_msg]) in
        match save_to_session self2 assistant_msg (response_save env iteration) with
        | Raise e => handle self2 env e
        | Return saved =>
            match tool_calls with
            | [] => final_answer saved prompt content env
            | _ :: _ =>
                match dispatch saved tool_calls O (attempts env iteration)
                        (result_save env iteration) with
                | (Return _, self3) =>
                    agent_loop remaining' (S iteration) self3 prompt stream env
                | (Raise e, self3) => handle self3 env e
                end
            end
        end in
      match responses env iteration with
      | Fails e => handle self1 env e
      | NoChoices =>
          if stream then respond (Some "") []
          else ("Error: No response from model", self1)
      | Responds content tool_calls => respond content tool_calls
      end
  end.

(** [execute(prompt, use_streaming)] *)
Definition execute (self : Agent) (prompt : string) (use_streaming : bool)
    (env : run_env) : result (string * Agent) :=
  let self1 :=
    if enable_evaluation self
    then set_evaluator self
           (snd (Evaluation.start_task (evaluator self) prompt (Some (model self))
                   (clock_id env) (clock_start env)))
    else self in
  let memory_context :=
    if enable_memory self
    then SemanticMemory.get_memory_context (semantic_memory self1) prompt
    else [] in
  let self2 := set_current_execution_path self1 [] in
  match (if enable_planning self2 then _create_plan self2 (plan_reply env)
         else Return ("", self2)) with
  | Raise e => Raise e
  | Return (plan, self3) =>
      let self4 :=
        match plan with
        | EmptyString => self3
        | _ => set_messages self3 (messages self3 ++ [PlanMessage plan])
        end in
      let self5 :=
        match memory_context with
        | [] => self4
        | _ => set_messages self4 (messages self4 ++ [MemoryMessage memory_context])
        end in
      let user_msg := UserMessage prompt in
      let self6 := set_messages self5 (messages self5 ++ [user_msg]) in
      match save_to_session self6 user_msg (prompt_save env) with
      | Raise e => Raise e
      | Return saved =>
          let stream := use_streaming || enable_streaming self in
          Return (agent_loop MAX_ITERATIONS O saved prompt stream env)
      end
  end.

Definition is_reflection (m : Message) : Prop :=
  match m with ReflectionMessage _ _ => True | _ => False end.

(** Whether the agent logs its messages to a session. *)
Definition saving (self : Agent) : bool :=
  match session_manager self, session_id self with
  | Some _, Some (String _ _) => true
  | _, _ => false
  end.

(** What the executor leaves alone: the switches, whether a session is
    logged, and the evaluator but for the tool uses it records. *)
Definition preserved (a b : Agent) : Prop :=
  enable_reflection b = enable_reflection a
  /\ enable_retry b = enable_retry a
  /\ enable_evaluation b = enable_evaluation a
  /\ saving b = saving a
  /\ exists names,
       evaluator b = fold_left Evaluation.record_tool_use names (evaluator a).

(** Every save of the run returns. *)
Definition saves_return (env : run_env) : Prop :=
  (exists now, prompt_save env = Sessions.Appends now)
  /\ (forall i, exists now, response_save env i = Sessions.Appends now)
  /\ (forall i pos, exists now, result_save env i pos = Sessions.Appends now).

(** No [KeyboardInterrupt] comes from the environment of an attempt; with
    retries off, no exception at all leaves the execution. *)
Definition quiet_attempt (retry : bool) (a : attempt_env) : Prop :=
  (forall e, outcome a = Raised e -> retry = true /\ is_Exception e = true)
  /\ (forall e, reflection_reply a = Raise e -> is_Exception e = true).

Definition quiet_call (tc : ToolCall) : Prop :=
  forall e, arguments tc = Raise e -> is_Exception e = true.

(** The reflection the executor gets from a reply: its text, or nothing. *)
Definition reflection_text (reply : result (option string)) : string :=
  match reply with
  | Return (Some text) => text
  | _ => ""
  end.

(** The message attempt [i] appends, if its reflection has text. *)
Definition appended (name : string) (env : nat -> attempt_env) (i : nat) : option Message :=
  match reflection_text (reflection_reply (env i)) with
  | EmptyString => None
  | text => Some (ReflectionMessage name text)
  end.

(** An attempt the retry loop goes on from: the execution raises an
    [Exception]; or it returns an output that calls for reflection, and then
    either re-reading the arguments raises an [Exception] or the reflection
    is asked for (its request does not end in [KeyboardInterrupt]). *)
Definition failed_attempt (self : Agent) (tc : ToolCall) (a : attempt_env) : Prop :=
  match outcome a with
  | Raised e => is_Exception e = true
  | Returned output _ =>
      _should_reflect_on_output self output = true
      /\ match arguments tc with
         | Raise e => is_Exception e = true
         | Return _ =>
             forall e, reflection_reply a = Raise e -> is_Exception e = true
         end
  end.

(** An attempt the executor stops at: the execution returns an output that
    does not call for reflection, or a [KeyboardInterrupt] leaves the
    execution, the re-reading of the arguments or the reflection request. *)
Definition final_attempt (self : Agent) (tc : ToolCall) (a : attempt_env) : Prop :=
  match outcome a with
  | Raised e => is_Exception e = false
  | Returned output _ =>
      _should_reflect_on_output self output = false
      \/ match arguments tc with
         | Raise e => is_Exception e = false
         | Return _ =>
             exists e, reflection_reply a = Raise e /\ is_Exception e = false
         end
  end.

(** What the loop keeps as [last_error] after a failed attempt. *)
Definition failure_text (tc : ToolCall) (a : attempt_env) : string :=
  match outcome a with
  | Raised e => exn_text e
  | Returned output _ =>
      match arguments tc with
      | Raise e => exn_text e
      | Return _ => output
      end
  end.

(** The message a failed attempt appends: the reflection on the output it
    returned, when the arguments are read back and the reflection has
    text; an attempt that raised appends nothing. *)
Definition reflection_of (tc : ToolCall) (a : attempt_env) : option Message :=
  match outcome a, arguments tc with
  | Returned _ _, Return _ =>
      match reflection_text (reflection_reply a) with
      | EmptyString => None
      | text => Some (ReflectionMessage (function_name tc) text)
      end
  | _, _ => None
  end.

(** The wait after attempt [i]: [backoff_factor ** i]. *)
Definition wait_time (cfg : RetryConfig) (i : nat) : Q :=
  Qpower (backoff_factor cfg) (Z.of_nat i).

(** The evaluator tracks a task in flight: its files and history are those
    of [ev0], and the task has the given prompt, model and iteration count. *)
Definition tracked (ev0 ev : Evaluation.AgentEvaluator) (p : string)
    (m : option string) (k : Z) : Prop :=
  Evaluation.executions_history ev = Evaluation.executions_history ev0
  /\ Evaluation.executions_file ev = Evaluation.executions_file ev0
  /\ Evaluation.summary_file ev = Evaluation.summary_file ev0
  /\ exists e, Evaluation.current_execution ev = Some e
               /\ Evaluation.iterations e = k
               /\ Evaluation.prompt e = p
               /\ Evaluation.model e = m.



(** The response of an iteration asks for tools, nothing in them or in
    their attempts interrupts the run and, where a session is logged, the
    saves of the response and of the results of its tool calls return. *)
Definition tool_round (retry logged : bool) (env : run_env) (i : nat) : Prop :=
  (exists content tool_calls,
     responses env i = Responds content tool_calls
     /\ tool_calls <> [] /\ Forall quiet_call tool_calls)
  /\ (forall pos k, quiet_attempt retry (attempts env i pos k))
  /\ (logged = true ->
      (exists now, response_save env i = Sessions.Appends now)
      /\ forall pos, exists now, result_save env i pos = Sessions.Appends now).

(** The save of the prompt returns, where a session is logged. *)
Definition prompt_saved (logged : bool) (env : run_env) : Prop :=
  logged = true -> exists now, prompt_save env = Sessions.Appends now.

(** A step from which [_extract_tools] reads a tool name. *)
Definition extractable (step : string) : Prop :=
  exists tool, SemanticMemory.extract_tool step = Return (Some tool).

(** What the loop keeps of the memory between the start of [execute] and
    the final answer: the switch, the stored solutions, and an execution
    path of steps that name their tool. *)
Definition memory_kept (self a : Agent) : Prop :=
  enable_memory a = enable_memory self
  /\ semantic_memory a = semantic_memory self
  /\ Forall extractable (current_execution_path a).

(** The messages [execute] saves to the session: the prompt, the responses
    of the model and the results of the tool calls.  The plan, the memory
    context and the reflections are appended to the conversation only. *)
Definition logged (m : Message) : bool :=
  match m with
  | UserMessage _ | AssistantMessage _ _ | ToolMessage _ _ => true
  | PlanMessage _ | MemoryMessage _ | ReflectionMessage _ _ => false
  end.

(** The session log keeps up with the conversation: since the conversation
    was [before] and the log of the manager [log], the conversation of [a]
    has gained [new] and the log, under the session id [id], the logged
    messages among them. *)
Definition log_follows (id : string) (before : list Message)
    (log : list (string * Message)) (a : Agent) (new : list Message) : Prop :=
  messages a = (before ++ new)%list
  /\ session_id a = Some id
  /\ exists manager,
       session_manager a = Some manager
       /\ map fst (Sessions.entries manager)
          = (log ++ map (pair id) (List.filter logged new))%list.

(** The log has kept up with the conversation of [a], whatever the
    conversation has gained. *)
Definition log_kept (id : string) (before : list Message)
    (log : list (string * Message)) (a : Agent) : Prop :=
  exists new, log_follows id before log a new.

End WithFloat.
End Agent.

(** ** tools/base.py: the tool registry

    A tool is its name and what a call of its [execute] with given keyword
    arguments does: it returns a text, raises [TypeError] (as Python does
    for a missing or an unexpected keyword), raises another [Exception], or
    is interrupted from the keyboard. *)
Module ToolRegistry.

(** An argument of a tool call, as [json.loads] gives it: a string, or a
    value of another JSON type, of which the callers use the name of its
    Python type, its [str()] and its truth value. *)
Inductive value : Type :=
| Str (s : string)
| Other (type_name text : string) (truth : bool).

Inductive tool_outcome : Type :=
| ToolReturns (text : string)
| ToolTypeError (msg : string)
| ToolRaises (msg : string)
| ToolInterrupted.

Record Tool : Type := mkTool {
  name : string;
  tool_execute : Dict.dict value -> tool_outcome
}.

(** [self.tools] *)
Definition ToolRegistry : Type := Dict.dict Tool.

Definition init : ToolRegistry := [].

(** [register(tool)]: [self.tools[tool.name] = tool] *)
Definition register (self : ToolRegistry) (tool : Tool) : ToolRegistry :=
  Dict.set (name tool) tool self.

(** [get(name)] *)
Definition get (self : ToolRegistry) (tool_name : string) : option Tool :=
  Dict.get tool_name self.

(** [execute(name, **kwargs)] *)
Definition execute (self : ToolRegistry) (tool_name : string)
    (kwargs : Dict.dict value) : result string :=
  match get self tool_name with
  | None => Return ("Error: Unknown tool '" ++ tool_name ++ "'")
  | Some tool =>
      match tool_execute tool kwargs with
      | ToolReturns text => Return text
      | ToolTypeError msg =>
          Return ("Error: Invalid arguments for " ++ tool_name ++ ": " ++ msg)
      | ToolRaises msg => Return ("Error executing " ++ tool_name ++ ": " ++ msg)
      | ToolInterrupted => Raise KeyboardInterrupt
      end
  end.

End ToolRegistry.

(** ** agent.py: [_execute_tool_with_permissions]

    The gate between a tool call of the model and the registry.  The state
    is the part of the agent the method reads and writes; the environment of
    a call is the console input, the order in which the set of critical
    extensions is visited, and what the tracker reads (the time stamp, the
    outcome of its disk write).  The argument text of the call is given as
    [json.loads] reads it: a JSON object, or the [JSONDecodeError]. *)
Module Gate.
Section WithFloat.
Context `{PyFloat}.

Import ToolRegistry.

(** [fnmatch.fnmatch] of the Python standard library, on strings. *)
Variable fnmatch : string -> string -> bool.

Record Agent : Type := mkAgent {
  registry : ToolRegistry;
  require_approval : bool;
  critical_checker : Safety.CriticalOperation;
  use_permissions : bool;
  permission_checker : option Permissions.Profile;
  enable_tool_tracking : bool;
  tool_tracker : ToolTracker.ToolTracker;
  enable_evaluation : bool;
  evaluator : Evaluation.AgentEvaluator;
  current_execution_path : list string
}.

Record call_env : Type := mkCallEnv {
  stdin : list Safety.console_input;   (* what [input] yields, call by call *)
  extension_order : list string;
  collision : string -> string;        (* the text of Python's TypeError for a
                                          keyword given twice *)
  now : string;
  disk : ToolTracker.disk_write
}.

(** What a call does besides returning: the console events of the approval
    cache, a prompt of the permission checker, the call of a tool's
    [execute]. *)
Inductive event : Type :=
| Approval (e : Safety.console_event)
| PermissionPrompt (operation details : string)
| Executed (tool_name : string) (kwargs : Dict.dict value).

(** How a phase of the method ends: the method goes on, returns a text, or
    an exception leaves it. *)
Inductive verdict : Type :=
| Proceed
| Answer (text : string)
| Throw (e : py_exn).

(** The truth value of an argument, and its text in an f-string. *)
Definition truthy (v : value) : bool :=
  match v with
  | Str s => negb (String.eqb s "")
  | Other _ _ truth => truth
  end.

Definition text_of (v : value) : string :=
  match v with Str s => s | Other _ text _ => text end.

(** The next line of the console: end of input when nothing is left. *)
Definition next_input (stdin : list Safety.console_input) : Safety.console_input :=
  hd Safety.EndOfInput stdin.

(** permissions.py, [prompt_user]: [input(...).strip().lower() in {"y", "yes"}];
    the exceptions of [input] are not handled. *)
Definition prompt_user (operation details : string) (line : Safety.console_input)
  : result bool :=
  match line with
  | Safety.Line text =>
      let response := PyStr.lower (PyStr.strip text) in
      Return (String.eqb response "y" || String.eqb response "yes")
  | Safety.Interrupt => Raise KeyboardInterrupt
  | Safety.EndOfInput => Raise EOFError
  end.

(** [command.lower()] on a value that is no string: AttributeError. *)
Definition no_attribute (type_name attribute : string) : py_exn :=
  OtherException ("'" ++ type_name ++ "' object has no attribute '" ++ attribute ++ "'").

(** [if is_critical: approved = prompt_approval(operation, reason, details);
    if not approved: return refusal] *)
Definition ask_approval (checker : Safety.CriticalOperation) (operation : string)
    (critical : bool * option string) (details refusal : string)
    (stdin : list Safety.console_input)
  : verdict * Safety.CriticalOperation * list Safety.console_input * list event :=
  if critical.1 then
    let reason := default "None" critical.2 in
    let '(approved, checker', events) :=
      Safety.prompt_approval checker operation reason details (next_input stdin) in
    (if approved then Proceed else Answer refusal,
     checker',
     if Safety.prompted events then tl stdin else stdin,
     map Approval events)
  else (Proceed, checker, stdin, []).

(** The block under [if self.require_approval]. *)
Definition approval_phase (self : Agent) (function_name : string)
    (arguments : Dict.dict value) (env : call_env)
  : verdict * Safety.CriticalOperation * list Safety.console_input * list event :=
  if negb (require_approval self) then (Proceed, critical_checker self, stdin env, [])
  else if String.eqb function_name "Bash" then
    match default (Str "") (Dict.get "command" arguments) with
    | Str command =>
        ask_approval (critical_checker self) "Execute bash command"
          (Safety.is_critical_bash command) command
          "Error: Critical operation denied by user" (stdin env)
    | Other type_name _ _ =>
        (Throw (no_attribute type_name "lower"), critical_checker self, stdin env, [])
    end
  else if String.eqb function_name "Write" then
    match default (Str "") (Dict.get "file_path" arguments) with
    | Str file_path =>
        ask_approval (critical_checker self) "Write to critical file"
          (Safety.is_critical_file_write (extension_order env) file_path) file_path
          "Error: Critical file write denied by user" (stdin env)
    | Other type_name _ _ =>
        (Throw (no_attribute type_name "lower"), critical_checker self, stdin env, [])
    end
  else (Proceed, critical_checker self, stdin env, []).

(** [_check_permission] on an argument: [fnmatch] raises TypeError on a
    target that is no string, so the check raises as soon as it has a
    pattern to try. *)
Definition check_value (rules : Permissions.Rules) (target : value)
  : result Permissions.PermissionLevel :=
  match target with
  | Str s => Permissions._check_permission fnmatch s rules
  | Other type_name _ _ =>
      match (Permissions.get_patterns (Permissions.rules_deny rules)
             ++ Permissions.get_patterns (Permissions.rules_allow rules))%list with
      | [] => Permissions.PermissionLevel_of (Permissions.get_default rules)
      | _ :: _ =>
          Raise (OtherException
                   ("expected str, bytes or os.PathLike object, not " ++ type_name))
      end
  end.

(** [a or b] on the results of [arguments.get]. *)
Definition or_else (a b : option value) : option value :=
  match a with
  | Some v => if truthy v then Some v else b
  | None => b
  end.

(** One permission check of the method: the target, its level, the
    operation shown to the user, and the two texts returned on a denial. *)
Record permission_check : Type := mkPermissionCheck {
  target : value;
  level : result Permissions.PermissionLevel;
  operation : string;
  denied : string;
  refused : string
}.

(** The check the method makes for a call, if any: one of the three
    branches under [if self.use_permissions and self.permission_checker],
    entered with a target that is true. *)
Definition permission_request (checker : Permissions.Profile) (function_name : string)
    (arguments : Dict.dict value) : option permission_check :=
  if String.eqb function_name "Read" || String.eqb function_name "ReadImage" then
    match or_else (Dict.get "file_path" arguments) (Dict.get "image_path" arguments) with
    | Some file_path =>
        if truthy file_path then
          Some {| target := file_path;
                  level := check_value (Permissions.files_read checker) file_path;
                  operation := "Read file";
                  denied := "Error: Permission denied to read '"
                            ++ text_of file_path ++ "'";
                  refused := "Error: User denied permission to read '"
                             ++ text_of file_path ++ "'" |}
        else None
    | None => None
    end
  else if String.eqb function_name "Write" then
    match Dict.get "file_path" arguments with
    | Some file_path =>
        if truthy file_path then
          Some {| target := file_path;
                  level := check_value (Permissions.files_write checker) file_path;
                  operation := "Write file";
                  denied := "Error: Permission denied to write '"
                            ++ text_of file_path ++ "'";
                  refused := "Error: User denied permission to write '"
                             ++ text_of file_path ++ "'" |}
        else None
    | None => None
    end
  else if String.eqb function_name "Bash" then
    match Dict.get "command" arguments with
    | Some command =>
        if truthy command then
          Some {| target := command;
                  level := check_value (Permissions.bash checker) command;
                  operation := "Execute command";
                  denied := "Error: Permission denied to execute command: "
                            ++ text_of command;
                  refused := "Error: User denied permission to execute: "
                             ++ text_of command |}
        else None
    | None => None
    end
  else None.

(** [if perm == DENY: return denied; elif perm == ASK: if not
    prompt_user(operation, target): return refused] *)
Definition ask_permission (check : permission_check)
    (stdin : list Safety.console_input)
  : verdict * list Safety.console_input * list event :=
  match level check with
  | Raise e => (Throw e, stdin, [])
  | Return Permissions.DENY => (Answer (denied check), stdin, [])
  | Return Permissions.ALLOW => (Proceed, stdin, [])
  | Return Permissions.ASK =>
      let prompt := PermissionPrompt (operation check) (text_of (target check)) in
      match prompt_user (operation check) (text_of (target check)) (next_input stdin) with
      | Return true => (Proceed, tl stdin, [prompt])
      | Return false => (Answer (refused check), tl stdin, [prompt])
      | Raise e => (Throw e, tl stdin, [prompt])
      end
  end.

(** The block under [if self.use_permissions and self.permission_checker]. *)
Definition permission_phase (self : Agent) (function_name : string)
    (arguments : Dict.dict value) (stdin : list Safety.console_input)
  : verdict * list Safety.console_input * list event :=
  match use_permissions self, permission_checker self with
  | true, Some checker =>
      match permission_request checker function_name arguments with
      | Some check => ask_permission check stdin
      | None => (Proceed, stdin, [])
      end
  | _, _ => (Proceed, stdin, [])
  end.

(** [f"tool:{function_name}({', '.join(arguments.keys())})"] *)
Definition step_of (function_name : string) (arguments : Dict.dict value) : string :=
  "tool:" ++ function_name ++ "(" ++ String.concat ", " (Dict.keys arguments) ++ ")".

(** [self.registry.execute(function_name, **arguments)].  An argument named
    as a parameter of [execute] ("self", "name") is a keyword given twice:
    the call raises TypeError before the registry is entered. *)
Definition colliding (arguments : Dict.dict value) : option string :=
  find (fun key => String.eqb key "self" || String.eqb key "name") (Dict.keys arguments).

Definition call_registry (self : Agent) (function_name : string)
    (arguments : Dict.dict value) (env : call_env) : result string :=
  match colliding arguments with
  | Some key => Raise (OtherException (collision env key))
  | None => ToolRegistry.execute (registry self) function_name arguments
  end.

(** The [try] block: the registry call and the book-keeping after it. *)
Definition execution_phase (self : Agent) (function_name : string)
    (arguments : Dict.dict value) (env : call_env)
  : result string * Agent * list event :=
  let events :=
    match colliding arguments, ToolRegistry.get (registry self) function_name with
    | None, Some _ => [Executed function_name arguments]
    | _, _ => []
    end in
  let track (success : bool) (error : option string) :=
    if enable_tool_tracking self
    then ToolTracker.record_execution (tool_tracker self) function_name success error
           (now env) (disk env)
    else tool_tracker self in
  match call_registry self function_name arguments env with
  | Return result =>
      let success := negb (PyStr.startswith result "Error:") in
      (Return result,
       {| registry := registry self;
          require_approval := require_approval self;
          critical_checker := critical_checker self;
          use_permissions := use_permissions self;
          permission_checker := permission_checker self;
          enable_tool_tracking := enable_tool_tracking self;
          tool_tracker := track success (if success then None else Some result);
          enable_evaluation := enable_evaluation self;
          evaluator := if enable_evaluation self
                       then Evaluation.record_tool_use (evaluator self) function_name
                       else evaluator self;
          current_execution_path :=
            current_execution_path self ++ [step_of function_name arguments] |},
       events)
  | Raise e =>
      if Agent.is_Exception e then
        (Return ("Error executing " ++ function_name ++ ": " ++ Agent.exn_text e),
         {| registry := registry self;
            require_approval := require_approval self;
            critical_checker := critical_checker self;
            use_permissions := use_permissions self;
            permission_checker := permission_checker self;
            enable_tool_tracking := enable_tool_tracking self;
            tool_tracker := track false (Some (Agent.exn_text e));
            enable_evaluation := enable_evaluation self;
            evaluator := evaluator self;
            current_execution_path := current_execution_path self |},
         events)
      else (Raise e, self, events)
  end.

Definition set_critical_checker (self : Agent) (checker : Safety.CriticalOperation)
  : Agent :=
  {| registry := registry self;
     require_approval := require_approval self;
     critical_checker := checker;
     use_permissions := use_permissions self;
     permission_checker := permission_checker self;
     enable_tool_tracking := enable_tool_tracking self;
     tool_tracker := tool_tracker self;
     enable_evaluation := enable_evaluation self;
     evaluator := evaluator self;
     current_execution_path := current_execution_path self |}.

(** [_execute_tool_with_permissions(tool_call)]: what it returns or raises,
    the agent after the call, and the events of the call. *)
Definition _execute_tool_with_permissions (self : Agent) (function_name : string)
    (arguments : result (Dict.dict value)) (env : call_env)
  : result string * Agent * list event :=
  match arguments with
  | Raise e => (Return ("Error: Invalid JSON arguments: " ++ Agent.exn_text e), self, [])
  | Return arguments =>
      let '(approval, checker, stdin1, events1) :=
        approval_phase self function_name arguments env in
      let self1 := set_critical_checker self checker in
      match approval with
      | Answer text => (Return text, self1, events1)
      | Throw e => (Raise e, self1, events1)
      | Proceed =>
          let '(permission, stdin2, events2) :=
            permission_phase self1 function_name arguments stdin1 in
          match permission with
          | Answer text => (Return text, self1, (events1 ++ events2)%list)
          | Throw e => (Raise e, self1, (events1 ++ events2)%list)
          | Proceed =>
              let '(result, self2, events3) :=
                execution_phase self1 function_name arguments env in
              (result, self2, (events1 ++ events2 ++ events3)%list)
          end
      end
  end.

(** The call entered a tool. *)
Definition executed (events : list event) : bool :=
  existsb (fun e => match e with Executed _ _ => true | _ => false end) events.

End WithFloat.
End Gate.

(** ** Scenarios

    Concrete inputs for the properties below, with exact rationals as
    floats. *)

(** Two requests to run different commands whose keys agree: the first 100
    characters of "operation:details" are the same. *)
Definition long_command (tail : string) : string :=
  "rm -rf /srv/data/projects/alpha/build/output/artifacts/cache/tmp/session-0001/logs/"
  ++ tail.

(** The log of the tracker's ranking test: three good writes, one good and
    two failed shell commands. *)
Definition ranking_log : list (ToolTracker.execution (H := QFloat)) :=
  [ToolTracker.mkExecution "Write" true None "t1" ToolTracker.WriteOk;
   ToolTracker.mkExecution "Write" true None "t2" ToolTracker.WriteOk;
   ToolTracker.mkExecution "Write" true None "t3" ToolTracker.WriteOk;
   ToolTracker.mkExecution "Bash" true None "t4" ToolTracker.WriteOk;
   ToolTracker.mkExecution "Bash" false (Some "RuntimeError: failed") "t5"
     ToolTracker.WriteOk;
   ToolTracker.mkExecution "Bash" false (Some "RuntimeError: failed") "t6"
     ToolTracker.WriteOk].

(** The scenario of the memory's test: one solution stored, one call with
    [success=false], then a query that shares three of five words with the
    stored task. *)
Definition sorting_memory : SemanticMemory.SemanticMemory :=
  match SemanticMemory.store_solution (SemanticMemory.init [])
          "write python sorting function"
          ["tool: Write implemented function"; "tool: Bash ran tests"]
          true "2024-01-01T00:00:00" true with
  | Return m => m
  | Raise _ => SemanticMemory.init []
  end.

(** The two tasks of the evaluator's summary test. *)
Definition task_one : Evaluation.task_run (H := QFloat) :=
  Evaluation.mkTaskRun (H := QFloat) "task 1" (Some "model-a") 1700000000000 1700000000%Q
    [Evaluation.ToolUse "Read"; Evaluation.Tokens 100 0 0] None 1700000002%Q "stamp-1" true.

Definition task_two : Evaluation.task_run (H := QFloat) :=
  Evaluation.mkTaskRun (H := QFloat) "task 2" (Some "model-b") 1700000003000 1700000003%Q
    [Evaluation.ToolUse "Write"; Evaluation.Tokens 50 0 0] (Some "test error") 1700000004%Q
    "stamp-2" true.

(** A shell command that fails three times; the completion service has
    nothing to say about the first two failures and answers the third. *)
Definition failing_call : Agent.ToolCall :=
  Agent.mkToolCall "call_1" "Bash" (Return ["command"]).

Definition failing_env (i : nat) : Agent.attempt_env :=
  Agent.mkAttemptEnv (Agent.Returned "Error: command failed" true)
    (if (i =? 2)%nat then Return (Some "Check the path and try again.")
     else Return None).

Definition fresh_agent : Agent.Agent (H := QFloat) :=
  Agent.mkAgent "haiku" true true true false true true
    [Agent.UserMessage "clean the build directory";
     Agent.AssistantMessage None [failing_call]]
    "" [] [] (SemanticMemory.init []) (Evaluation.init [] None) None None.

(** A shell command that fails once and works at the second attempt, with
    a reflection on the failure. *)
Definition recovering_env (i : nat) : Agent.attempt_env :=
  Agent.mkAttemptEnv
    (if (i =? 0)%nat then Agent.Returned "Error: command failed" true
     else Agent.Returned "done" true)
    (Return (Some "Create the directory first.")).

(** A run whose every response asks for one more shell command. *)
Definition looping_call : Agent.ToolCall :=
  Agent.mkToolCall "call_1" "Bash" (Return ["command"]).

Definition looping_env : Agent.run_env (H := QFloat) :=
  Agent.mkRunEnv (H := QFloat) 1700000000000 1700000000%Q (Return None)
    (fun _ => Agent.Responds None [looping_call])
    (fun _ _ _ => Agent.mkAttemptEnv (Agent.Returned "ok" true) (Return None))
    "2024-01-01T00:00:00" true 1700000060%Q "2024-01-01T00:01:00" true true
    (Sessions.Appends "2024-01-01T00:00:01")
    (fun _ => Sessions.Appends "2024-01-01T00:00:02")
    (fun _ _ => Sessions.Appends "2024-01-01T00:00:03").

(** An agent that logs its messages to the session "demo". *)
Definition looping_agent (evaluation : bool) : Agent.Agent (H := QFloat) :=
  Agent.mkAgent "haiku" true true true false true evaluation [] "" [] []
    (SemanticMemory.init []) (Evaluation.init [] None)
    (Some (Sessions.mkSessionManager "/home/user/.bladerunner/sessions" []))
    (Some "demo").

(** The same run on a disk that is full when the first response is saved. *)
Definition full_disk_env : Agent.run_env (H := QFloat) :=
  Agent.mkRunEnv (H := QFloat) 1700000000000 1700000000%Q (Return None)
    (fun _ => Agent.Responds None [looping_call])
    (fun _ _ _ => Agent.mkAttemptEnv (Agent.Returned "ok" true) (Return None))
    "2024-01-01T00:00:00" true 1700000060%Q "2024-01-01T00:01:00" true true
    (Sessions.Appends "2024-01-01T00:00:01")
    (fun _ => Sessions.AppendRaises
                (OtherException "[Errno 28] No space left on device"))
    (fun _ _ => Sessions.Appends "2024-01-01T00:00:03").



(** An agent with retries on and reflection off. *)
Definition unreflective_agent : Agent.Agent (H := QFloat) :=
  Agent.mkAgent "haiku" true false true false true true [] "" [] []
    (SemanticMemory.init []) (Evaluation.init [] None) None None.


Definition silent_env : Agent.run_env (H := QFloat) :=
  Agent.mkRunEnv (H := QFloat) 1700000000000 1700000000%Q (Return None)
    (fun _ => Agent.NoChoices)
    (fun _ _ _ => Agent.mkAttemptEnv (Agent.Returned "ok" true) (Return None))
    "2024-01-01T00:00:00" true 1700000060%Q "2024-01-01T00:01:00" true true
    (Sessions.Appends "2024-01-01T00:00:01")
    (fun _ => Sessions.Appends "2024-01-01T00:00:02")
    (fun _ _ => Sessions.Appends "2024-01-01T00:00:03").

Definition failing_request_env : Agent.run_env (H := QFloat) :=
  Agent.mkRunEnv (H := QFloat) 1700000000000 1700000000%Q (Return None)
    (fun _ => Agent.Fails (OtherException "rate limit exceeded"))
    (fun _ _ _ => Agent.mkAttemptEnv (Agent.Returned "ok" true) (Return None))
    "2024-01-01T00:00:00" true 1700000060%Q "2024-01-01T00:01:00" true true
    (Sessions.Appends "2024-01-01T00:00:01")
    (fun _ => Sessions.Appends "2024-01-01T00:00:02")
    (fun _ _ => Sessions.Appends "2024-01-01T00:00:03").

(** An agent with the standard permission profile and the shell tool
    registered, at a console that is closed. *)
Definition bash_tool : ToolRegistry.Tool :=
  ToolRegistry.mkTool "Bash"
    (fun _ => ToolRegistry.ToolReturns "Command executed successfully").

Definition guarded_agent : Gate.Agent (H := QFloat) :=
  Gate.mkAgent (H := QFloat) (ToolRegistry.register ToolRegistry.init bash_tool)
    true Safety.init true (Some (Permissions.PermissionChecker "standard"))
    true (ToolTracker.init ToolTracker.Missing) true (Evaluation.init [] None) [].

Definition closed_console : Gate.call_env (H := QFloat) :=
  Gate.mkCallEnv (H := QFloat) [] Safety.critical_extensions
    (fun key => "ToolRegistry.execute() got multiple values for argument '" ++ key ++ "'")
    "2024-01-01T00:00:00" ToolTracker.WriteOk.


(** * Properties *)

(** ** The primitives on the inputs of CPython's documentation and of the
    package's tests *)

Example split_on_white_space :
  PyStr.split_ws "  write Python  code " = ["write"; "Python"; "code"].
Proof. reflexivity. Qed.

Example split_on_separator :
  PyStr.split_sep "tool:" "xtool:ytool:z" = ["x"; "y"; "z"]
  /\ PyStr.split_sep "aa" "aaa" = [""; "a"]
  /\ PyStr.split_sep "tool:" "tool:" = [""; ""].
Proof. repeat split; reflexivity. Qed.

Example strip_and_lower : PyStr.lower (PyStr.strip "  Yes ") = "yes".
Proof. reflexivity. Qed.

Example error_kind : PyStr.before_first ":" "Timeout: command stalled" = "Timeout".
Proof. reflexivity. Qed.

Example sorted_reverse_is_stable :
  map fst (sorted_reverse Z.ltb snd
             [("a", 2); ("b", 1); ("c", 2); ("d", 1); ("e", 4)])
  = ["e"; "a"; "c"; "b"; "d"].
Proof. reflexivity. Qed.

Example slices :
  slice_to (-1) [1; 2; 3; 4] = [1; 2; 3] /\ slice_to (-9) [1; 2; 3; 4] = []
  /\ slice_to 9 [1; 2; 3; 4] = [1; 2; 3; 4].
Proof. repeat split; reflexivity. Qed.

Example globs :
  Permissions.posix_fnmatch "rm -rf /" "rm -rf *" = true
  /\ Permissions.posix_fnmatch "a/b/secret.txt" "**/secret*" = true
  /\ Permissions.posix_fnmatch "secret.txt" "**/secret*" = false.
Proof. repeat split; reflexivity. Qed.

Example jaccard_of_the_tests :
  SemanticMemory.jaccard_similarity (H := QFloat) "test code" "code test" = 1%Q
  /\ SemanticMemory.jaccard_similarity (H := QFloat) "alpha beta" "beta gamma"
     = (1 # 3)%Q.
Proof. split; by vm_compute. Qed.

Example success_rate_of_the_test :
  ToolTracker.get_success_rate (H := QFloat)
    (ToolTracker.record_all (ToolTracker.init ToolTracker.Missing)
       [ToolTracker.mkExecution "Read" true None "t1" ToolTracker.WriteOk;
        ToolTracker.mkExecution "Read" true None "t2" ToolTracker.WriteOk;
        ToolTracker.mkExecution "Read" false (Some "Timeout: command stalled")
          "t3" ToolTracker.WriteOk]) "Read"
  = (2 # 3)%Q.
Proof. by vm_compute. Qed.

(** ** The permission gate *)
Section PermissionGate.
Import Permissions.
Variable fnmatch : string -> string -> bool.

Lemma loop_returns_true target patterns :
  loop_returns fnmatch target patterns = true <-> matches_any fnmatch target patterns.
Proof.
  unfold matches_any. induction patterns as [|p ps IH]; simpl.
  - split; [discriminate | intros (q & [] & _)].
  - destruct (fnmatch target p) eqn:Hp.
    + split; [|reflexivity]. intros _. exists p. auto.
    + rewrite IH. split.
      * intros (q & Hin & Hq). exists q. auto.
      * intros (q & [-> | Hin] & Hq); [congruence|]. exists q. auto.
Qed.

Lemma loop_returns_false target patterns :
  loop_returns fnmatch target patterns = false <-> ~ matches_any fnmatch target patterns.
Proof.
  rewrite <- loop_returns_true. destruct (loop_returns fnmatch target patterns).
  - split; [discriminate | intros Hn; exfalso; auto].
  - split; [discriminate | reflexivity].
Qed.

Lemma PermissionLevel_of_value level :
  PermissionLevel_of (level_value level) = Return level.
Proof. destruct level; reflexivity. Qed.

(** Every category of every profile [_load_profile] can return configures a
    default, and it names a level: the check never raises. *)
Lemma builtin_default_configured (name : string) :
  Forall (fun rules => exists level,
            rules_default rules = Some (level_value level))
         [files_read (_load_profile name); files_write (_load_profile name);
          bash (_load_profile name)].
Proof.
  unfold _load_profile.
  repeat match goal with |- context [String.eqb ?a ?b] => destruct (String.eqb a b) end;
    repeat constructor; simpl;
    first [ by exists ALLOW | by exists DENY | by exists ASK ].
Qed.

(** C1. For every rule set and every target: a target that matches a deny
    pattern is denied, also when it matches an allow pattern; else a target
    that matches an allow pattern is allowed; else the check returns the
    configured default of the category ([ASK] when none is configured). *)
Theorem check_permission_deny_allow_default (target : string) (rules : Rules) :
  let denied := matches_any fnmatch target (get_patterns (rules_deny rules)) in
  let allowed := matches_any fnmatch target (get_patterns (rules_allow rules)) in
  (denied -> _check_permission fnmatch target rules = Return DENY)
  /\ (~ denied -> allowed -> _check_permission fnmatch target rules = Return ALLOW)
  /\ (~ denied -> ~ allowed ->
      forall level, rules_default rules = Some (level_value level) ->
      _check_permission fnmatch target rules = Return level)
  /\ (~ denied -> ~ allowed -> rules_default rules = None ->
      _check_permission fnmatch target rules = Return ASK).
Proof.
  intros denied allowed. unfold _check_permission. repeat split.
  - intros Hd. apply loop_returns_true in Hd. by rewrite Hd.
  - intros Hd Ha. apply loop_returns_false in Hd. apply loop_returns_true in Ha.
    by rewrite Hd, Ha.
  - intros Hd Ha level Hdef.
    apply loop_returns_false in Hd. apply loop_returns_false in Ha.
    rewrite Hd, Ha. unfold get_default. rewrite Hdef.
    apply PermissionLevel_of_value.
  - intros Hd Ha Hdef.
    apply loop_returns_false in Hd. apply loop_returns_false in Ha.
    rewrite Hd, Ha. unfold get_default. by rewrite Hdef.
Qed.

End PermissionGate.

(** A write below [docs/] that also lies below a [prod/] directory: allowed
    by "docs/**", denied by "**/prod/**"; the standard profile denies it. *)
Lemma check_permission_deny_allow_default_witness :
  Permissions._check_permission Permissions.posix_fnmatch "docs/prod/x.md"
    (Permissions.files_write Permissions.standard) = Return Permissions.DENY
  /\ Permissions.matches_any Permissions.posix_fnmatch "docs/prod/x.md"
       (Permissions.get_patterns
          (Permissions.rules_allow (Permissions.files_write Permissions.standard))).
Proof.
  split.
  - apply (proj1 (check_permission_deny_allow_default Permissions.posix_fnmatch
                    "docs/prod/x.md" (Permissions.files_write Permissions.standard))).
    exists "**/prod/**". split; [simpl; auto | reflexivity].
  - exists "docs/**". split; [simpl; auto | reflexivity].
Defined.

(** ** The approval cache *)
Section ApprovalCache.
Import Safety.

Lemma cached_None self key :
  cached self key = None <->
  (key ∉ approved_operations self) /\ (key ∉ denied_operations self).
Proof.
  unfold cached.
  destruct (decide (key ∈ approved_operations self)),
           (decide (key ∈ denied_operations self));
    split; try discriminate; tauto.
Qed.

Lemma cached_Some self key b :
  cached self key = Some b <->
  if b then key ∈ approved_operations self
  else (key ∉ approved_operations self) /\ (key ∈ denied_operations self).
Proof.
  unfold cached.
  destruct (decide (key ∈ approved_operations self)),
           (decide (key ∈ denied_operations self)), b;
    split; try discriminate; try tauto; reflexivity.
Qed.

Lemma prompt_approval_cached self operation reason details stdin b :
  cached self (_hash_operation operation details) = Some b ->
  prompt_approval self operation reason details stdin
  = (b, self, [if b then PreviouslyApproved operation else PreviouslyDenied operation]).
Proof.
  intros Hc%cached_Some. unfold prompt_approval. destruct b.
  - rewrite decide_True by assumption. reflexivity.
  - destruct Hc as [Ha Hd].
    rewrite decide_False, decide_True by assumption. reflexivity.
Qed.

(** The method's view of the answer: one of three cases. *)
Lemma prompt_approval_miss self operation reason details text :
  cached self (_hash_operation operation details) = None ->
  prompt_approval self operation reason details (Line text)
  = let key := _hash_operation operation details in
    if says_yes text then (true, self, [Prompted operation reason details])
    else if says_always text then
      (true, mkCriticalOperation (approved_operations self ∪ {[key]})
                                 (denied_operations self),
       [Prompted operation reason details])
    else
      (false, mkCriticalOperation (approved_operations self)
                                  (denied_operations self ∪ {[key]}),
       [Prompted operation reason details]).
Proof.
  intros [Ha Hd]%cached_None. unfold prompt_approval.
  rewrite !decide_False by assumption.
  unfold says_always, says_yes. simpl.
  destruct (orb (String.eqb _ "y") _); simpl; [reflexivity|].
  destruct (orb (String.eqb _ "a") _); reflexivity.
Qed.

Lemma prompt_approval_cancel self operation reason details stdin :
  cached self (_hash_operation operation details) = None ->
  recorded_answer stdin = false ->
  (forall text, stdin = Line text -> says_yes text = true) ->
  (prompt_approval self operation reason details stdin).1.2 = self.
Proof.
  intros Hc Hr Hy. destruct stdin as [text| |].
  - rewrite prompt_approval_miss by assumption. simpl.
    by rewrite (Hy text eq_refl).
  - apply cached_None in Hc as [Ha Hd]. unfold prompt_approval.
    rewrite !decide_False by assumption. reflexivity.
  - apply cached_None in Hc as [Ha Hd]. unfold prompt_approval.
    rewrite !decide_False by assumption. reflexivity.
Qed.

Lemma prompt_approval_prompts self operation reason details stdin :
  cached self (_hash_operation operation details) = None <->
  prompted (prompt_approval self operation reason details stdin).2 = true.
Proof.
  split.
  - intros Hc. destruct stdin as [text| |].
    + rewrite prompt_approval_miss by assumption. simpl.
      destruct (says_yes text); [reflexivity|].
      destruct (says_always text); reflexivity.
    + apply cached_None in Hc as [Ha Hd]. unfold prompt_approval.
      rewrite !decide_False by assumption. reflexivity.
    + apply cached_None in Hc as [Ha Hd]. unfold prompt_approval.
      rewrite !decide_False by assumption. reflexivity.
  - destruct (cached self (_hash_operation operation details)) as [b|] eqn:Hc;
      [|reflexivity].
    rewrite (prompt_approval_cached _ _ _ _ _ b Hc). by destruct b.
Qed.

(** A recorded decision survives every later call. *)
Lemma cached_serve self r key b :
  cached self key = Some b -> cached (serve self r).1.2 key = Some b.
Proof.
  intros Hc. unfold serve.
  destruct (cached self (_hash_operation (req_operation r) (req_details r)))
    as [b'|] eqn:Hr.
  - by rewrite (prompt_approval_cached _ _ _ _ _ b' Hr).
  - assert (_hash_operation (req_operation r) (req_details r) <> key) as Hne
      by (intros Heq; rewrite Heq in Hr; congruence).
    destruct (req_stdin r) as [text| |].
    + rewrite prompt_approval_miss by assumption. simpl.
      destruct (says_yes text); [assumption|].
      apply cached_Some in Hc. apply cached_Some.
      destruct (says_always text), b; simpl;
        rewrite ?elem_of_union, ?not_elem_of_union, ?elem_of_singleton;
        intuition congruence.
    + apply cached_None in Hr as [Ha Hd]. unfold prompt_approval.
      rewrite !decide_False by assumption. assumption.
    + apply cached_None in Hr as [Ha Hd]. unfold prompt_approval.
      rewrite !decide_False by assumption. assumption.
Qed.

Lemma cached_run self rs key b :
  cached self key = Some b -> cached (run self rs).1 key = Some b.
Proof.
  revert self. induction rs as [|r rs IH]; intros self Hc; simpl; [assumption|].
  pose proof (cached_serve self r key b Hc) as Hs.
  destruct (serve self r) as [[b' self'] ev]. simpl in Hs.
  specialize (IH self' Hs). destruct (run self' rs). assumption.
Qed.

(** What an answered prompt records. *)
Lemma prompt_approval_records self operation reason details text :
  cached self (_hash_operation operation details) = None ->
  let after := (prompt_approval self operation reason details (Line text)).1.2 in
  (says_always text = true -> cached after (_hash_operation operation details) = Some true)
  /\ (says_no text = true -> cached after (_hash_operation operation details) = Some false)
  /\ (says_yes text = true -> after = self).
Proof.
  intros Hc. rewrite prompt_approval_miss by assumption.
  apply cached_None in Hc as [Ha Hd]. unfold says_no. simpl.
  destruct (says_yes text) eqn:Hy, (says_always text) eqn:Hal; simpl.
  all: split; [|split]; intros Hsay; try discriminate Hsay; try reflexivity.
  - unfold says_always in Hal. rewrite Hy in Hal. discriminate Hal.
  - apply cached_Some; simpl; set_solver.
  - apply cached_Some; simpl; set_solver.
Qed.

(** A decision recorded for one request is replayed, without a prompt, for
    every later request with the same key. *)
Lemma recorded_decision_replayed self operation reason details text later
    operation' reason' details' stdin' :
  prompted (prompt_approval self operation reason details (Line text)).2 = true ->
  _hash_operation operation' details' = _hash_operation operation details ->
  let after := (prompt_approval self operation reason details (Line text)).1.2 in
  let now := (run after later).1 in
  (says_always text = true ->
   prompt_approval now operation' reason' details' stdin'
   = (true, now, [PreviouslyApproved operation']))
  /\ (says_no text = true ->
      prompt_approval now operation' reason' details' stdin'
      = (false, now, [PreviouslyDenied operation'])).
Proof.
  intros Hp Hkey after now. apply prompt_approval_prompts in Hp.
  destruct (prompt_approval_records self operation reason details text Hp)
    as (Ha & Hn & _).
  split; intros Hsay.
  - apply (prompt_approval_cached now operation' reason' details' stdin' true).
    rewrite Hkey. apply cached_run. auto.
  - apply (prompt_approval_cached now operation' reason' details' stdin' false).
    rewrite Hkey. apply cached_run. auto.
Qed.

(** Once a decision is recorded for a key, no request with that key asks. *)
Lemma cached_no_prompt answer operation details self rs b :
  cached self (_hash_operation operation details) = Some b ->
  prompts_where answer operation details self rs = O.
Proof.
  revert self. induction rs as [|r rs IH]; intros self Hc; simpl; [reflexivity|].
  pose proof (cached_serve self r _ b Hc) as Hs.
  destruct (serve self r) as [[b' self'] ev] eqn:Hr. simpl in Hs.
  rewrite (IH self' Hs), Nat.add_0_r.
  destruct (String.eqb_spec (req_operation r) operation) as [Ho|]; [|reflexivity].
  destruct (String.eqb_spec (req_details r) details) as [Hd|]; [|reflexivity].
  unfold serve in Hr. rewrite Ho, Hd in Hr.
  rewrite (prompt_approval_cached _ _ _ _ _ b Hc) in Hr.
  injection Hr as <- <- <-. by destruct b.
Qed.

Lemma recorded_answer_cached self r :
  prompted (serve self r).2 = true ->
  recorded_answer (req_stdin r) = true ->
  exists b, cached (serve self r).1.2
              (_hash_operation (req_operation r) (req_details r)) = Some b.
Proof.
  unfold serve. intros Hp Hr. apply prompt_approval_prompts in Hp.
  destruct (req_stdin r) as [text| |]; try discriminate Hr.
  destruct (prompt_approval_records self (req_operation r) (req_reason r)
              (req_details r) text Hp) as (Ha & Hn & _).
  simpl in Hr. apply orb_true_iff in Hr as [Hr | Hr]; eauto.
Qed.

(** C2, as the code has it. In every sequence of approval requests, from
    any state of the cache, at most one prompt for a pair of operation and
    details is answered with "always" or a denial, and once it is, no later
    request for the pair prompts again.  A prompt answered with a plain
    "yes", or cancelled, records nothing: the next request for the pair
    prompts again. *)
Theorem recorded_answer_asked_once (operation details : string)
    (self : CriticalOperation) (rs : list request) :
  (prompts_where recorded_answer operation details self rs <= 1)%nat
  /\ (forall r later,
        req_operation r = operation -> req_details r = details ->
        prompted (serve self r).2 = true ->
        recorded_answer (req_stdin r) = true ->
        prompts_for operation details (serve self r).1.2 later = O)
  /\ (forall r next,
        req_operation r = operation -> req_details r = details ->
        req_operation next = operation -> req_details next = details ->
        prompted (serve self r).2 = true ->
        recorded_answer (req_stdin r) = false ->
        prompted (serve (serve self r).1.2 next).2 = true).
Proof.
  split; [|split]; cycle 2.
  { intros r next Ho Hd Ho' Hd' Hp Hrec. unfold serve in *.
    apply prompt_approval_prompts in Hp.
    rewrite prompt_approval_cancel; [| exact Hp | exact Hrec |].
    - apply prompt_approval_prompts. by rewrite Ho', Hd', <- Ho, <- Hd.
    - intros text Htext. rewrite Htext in Hrec. simpl in Hrec.
      unfold says_no in Hrec.
      destruct (says_yes text), (says_always text); done. }
  - revert self. induction rs as [|r rs IH]; intros self; simpl; [lia|].
    destruct (serve self r) as [[b self'] ev] eqn:Hr.
    destruct (String.eqb (req_operation r) operation
              && String.eqb (req_details r) details
              && prompted ev && recorded_answer (req_stdin r)) eqn:Hcount.
    + apply andb_true_iff in Hcount as [Hcount Hrec].
      apply andb_true_iff in Hcount as [Hcount Hprompt].
      apply andb_true_iff in Hcount as [Ho%String.eqb_eq Hd%String.eqb_eq].
      destruct (recorded_answer_cached self r) as [b' Hb'];
        [by rewrite Hr | assumption |].
      rewrite Hr, Ho, Hd in Hb'. simpl in Hb'.
      rewrite (cached_no_prompt _ _ _ _ _ b' Hb'). lia.
    + specialize (IH self'). lia.
  - intros r later Ho Hd Hp Hrec.
    destruct (recorded_answer_cached self r Hp Hrec) as [b Hb].
    rewrite Ho, Hd in Hb. exact (cached_no_prompt _ _ _ _ _ b Hb).
Qed.

(** C3. After the operator answers a prompt with "always", every later
    request for the same operation and details returns true without a
    prompt; after a denial, every later one returns false without a prompt. *)
Theorem always_and_denial_replayed (self : CriticalOperation)
    (operation reason details text : string) (later : list request)
    (reason' : string) (stdin' : console_input) :
  prompted (prompt_approval self operation reason details (Line text)).2 = true ->
  let after := (prompt_approval self operation reason details (Line text)).1.2 in
  let now := (run after later).1 in
  (says_always text = true ->
   prompt_approval now operation reason' details stdin'
   = (true, now, [PreviouslyApproved operation]))
  /\ (says_no text = true ->
      prompt_approval now operation reason' details stdin'
      = (false, now, [PreviouslyDenied operation])).
Proof.
  intros Hp. by apply recorded_decision_replayed.
Qed.

(** C10. The key is "operation:details" cut to 100 characters: there are two
    different requests with the same key, and the decision recorded for the
    first ("always", or a denial) is applied to the second without a prompt. *)
Theorem truncated_key_shares_decision :
  exists operation details1 details2 : string,
    details1 <> details2
    /\ _hash_operation operation details1 = _hash_operation operation details2
    /\ String.length (_hash_operation operation details1) = 100%nat
    /\ (run init [mkRequest operation "Delete files" details1 (Line "always");
                  mkRequest operation "Delete files" details2 (Line "no")]).2
       = [(true, [Prompted operation "Delete files" details1]);
          (true, [PreviouslyApproved operation])]
    /\ (run init [mkRequest operation "Delete files" details1 (Line "no");
                  mkRequest operation "Delete files" details2 (Line "always")]).2
       = [(false, [Prompted operation "Delete files" details1]);
          (false, [PreviouslyDenied operation])].
Proof.
  exists "Execute bash command", (long_command "old"), (long_command "../../etc").
  split; [discriminate|]. by vm_compute.
Qed.

End ApprovalCache.

(** A request answered "y" is asked again: two prompts for one pair. *)
Lemma yes_is_asked_again :
  Safety.prompts_for "Execute bash command" "rm -rf /tmp/data" Safety.init
    [Safety.mkRequest "Execute bash command" "Delete files with 'rm' command"
       "rm -rf /tmp/data" (Safety.Line "y");
     Safety.mkRequest "Execute bash command" "Delete files with 'rm' command"
       "rm -rf /tmp/data" (Safety.Line "y")] = 2%nat.
Proof. by vm_compute. Qed.

Lemma recorded_answer_asked_once_witness :
  Safety.prompts_for "Execute bash command" "rm -rf /tmp/data"
    (Safety.serve Safety.init
       (Safety.mkRequest "Execute bash command" "Delete files with 'rm' command"
          "rm -rf /tmp/data" (Safety.Line "No"))).1.2
    [Safety.mkRequest "Execute bash command" "Delete files with 'rm' command"
       "rm -rf /tmp/data" (Safety.Line "y")] = O.
Proof.
  apply (proj1 (proj2 (recorded_answer_asked_once "Execute bash command"
                         "rm -rf /tmp/data" Safety.init [])));
    reflexivity.
Defined.

Lemma always_and_denial_replayed_witness :
  let ask text :=
    (Safety.prompt_approval Safety.init "Write to critical file"
       "Write to sensitive path: SSH keys" "~/.ssh/config" (Safety.Line text)).1.2 in
  let other :=
    [Safety.mkRequest "Execute bash command" "Delete files with 'rm' command"
       "rm -rf /tmp/data" (Safety.Line "a")] in
  Safety.prompt_approval (Safety.run (ask " Always ") other).1
    "Write to critical file" "Write to sensitive path: SSH keys" "~/.ssh/config"
    Safety.EndOfInput
  = (true, (Safety.run (ask " Always ") other).1,
     [Safety.PreviouslyApproved "Write to critical file"])
  /\ Safety.prompt_approval (Safety.run (ask "nope") other).1
       "Write to critical file" "Write to sensitive path: SSH keys" "~/.ssh/config"
       (Safety.Line "yes")
     = (false, (Safety.run (ask "nope") other).1,
        [Safety.PreviouslyDenied "Write to critical file"]).
Proof.
  split.
  - apply (proj1 (always_and_denial_replayed Safety.init "Write to critical file"
                    "Write to sensitive path: SSH keys" "~/.ssh/config" " Always "
                    _ _ _ eq_refl)).
    reflexivity.
  - apply (proj2 (always_and_denial_replayed Safety.init "Write to critical file"
                    "Write to sensitive path: SSH keys" "~/.ssh/config" "nope"
                    _ _ _ eq_refl)).
    reflexivity.
Defined.

(** ** Dicts *)
Section DictFacts.
Context {V : Type}.
Implicit Types (d : Dict.dict V) (k : string) (v : V).

Lemma get_set_eq k v d : Dict.get k (Dict.set k v d) = Some v.
Proof.
  induction d as [|[k' v'] d IH]; simpl.
  - by rewrite String.eqb_refl.
  - destruct (String.eqb k k') eqn:E; simpl; rewrite ?String.eqb_refl, ?E; done.
Qed.

Lemma get_set_ne k k' v d : k <> k' -> Dict.get k' (Dict.set k v d) = Dict.get k' d.
Proof.
  intros Hne. induction d as [|[k0 v0] d IH]; simpl.
  - destruct (String.eqb_spec k' k); congruence.
  - destruct (String.eqb_spec k k0) as [->|]; simpl.
    + destruct (String.eqb_spec k' k0); congruence.
    + destruct (String.eqb_spec k' k0); congruence.
Qed.

Lemma get_None k d : Dict.get k d = None <-> k ∉ Dict.keys d.
Proof.
  unfold Dict.keys. induction d as [|[k' v'] d IH]; simpl.
  - split; [intros _; apply not_elem_of_nil | reflexivity].
  - rewrite not_elem_of_cons. destruct (String.eqb_spec k k'); split;
      try discriminate; try tauto.
Qed.

Lemma get_elem_of k v d : Dict.get k d = Some v -> (k, v) ∈ d.
Proof.
  induction d as [|[k' v'] d IH]; simpl; [discriminate|].
  destruct (String.eqb_spec k k') as [->|].
  - intros [= ->]. left.
  - intros Hg. right. auto.
Qed.

Lemma elem_of_get k v d : NoDup (Dict.keys d) -> (k, v) ∈ d -> Dict.get k d = Some v.
Proof.
  unfold Dict.keys. induction d as [|[k' v'] d IH]; simpl.
  - intros _ Hin. by apply elem_of_nil in Hin.
  - intros [Hk' Hnd]%NoDup_cons [Heq | Hin]%elem_of_cons.
    + injection Heq as -> ->. by rewrite String.eqb_refl.
    + destruct (String.eqb_spec k k') as [->|]; [|auto].
      exfalso. apply Hk'. apply list_elem_of_fmap. by exists (k', v).
Qed.

Lemma keys_set_present k v d :
  k ∈ Dict.keys d -> Dict.keys (Dict.set k v d) = Dict.keys d.
Proof.
  unfold Dict.keys. induction d as [|[k' v'] d IH]; simpl.
  - intros Hin. by apply elem_of_nil in Hin.
  - intros Hin. destruct (String.eqb_spec k k') as [->|Hne]; simpl; [done|].
    f_equal. apply IH. apply elem_of_cons in Hin as [|]; done.
Qed.

Lemma set_absent k v d : k ∉ Dict.keys d -> Dict.set k v d = (d ++ [(k, v)])%list.
Proof.
  unfold Dict.keys. induction d as [|[k' v'] d IH]; simpl; [done|].
  intros [Hne Hnin]%not_elem_of_cons.
  destruct (String.eqb_spec k k'); [done|]. by rewrite IH.
Qed.

Lemma set_NoDup k v d : NoDup (Dict.keys d) -> NoDup (Dict.keys (Dict.set k v d)).
Proof.
  intros Hnd. destruct (decide (k ∈ Dict.keys d)) as [Hin | Hnin].
  - by rewrite keys_set_present.
  - rewrite set_absent by done. unfold Dict.keys in *.
    rewrite fmap_app. apply NoDup_app. split; [done|]. split.
    + intros x Hx [->|[]%elem_of_nil]%elem_of_cons. done.
    + apply NoDup_singleton.
Qed.

End DictFacts.

(** ** Sorting in descending order *)
Section SortFacts.
Context {A K : Type} (lt : K -> K -> bool) (key : A -> K).
Hypothesis lt_asym : forall a b, lt a b = true -> lt b a = false.
Hypothesis lt_negtrans : forall a b c, lt a b = false -> lt b c = false -> lt a c = false.

Lemma insert_desc_perm x l : insert_desc lt key x l ≡ₚ x :: l.
Proof.
  induction l as [|y l IH]; simpl; [done|].
  destruct (lt (key x) (key y)); [|done].
  rewrite IH. apply Permutation_swap.
Qed.

Lemma sorted_reverse_perm l : sorted_reverse lt key l ≡ₚ l.
Proof.
  induction l as [|x l IH]; simpl; [done|].
  rewrite insert_desc_perm. by rewrite IH.
Qed.

Lemma insert_desc_sorted x l :
  StronglySorted (not_below lt key) l -> StronglySorted (not_below lt key) (insert_desc lt key x l).
Proof.
  induction 1 as [|y l Hs IH Hall]; simpl.
  - repeat constructor.
  - destruct (lt (key x) (key y)) eqn:Hxy.
    + constructor; [done|]. rewrite insert_desc_perm. constructor; [|done].
      by apply lt_asym.
    + constructor; [by constructor|]. constructor; [done|].
      eapply Forall_impl; [exact Hall|]. intros z Hz. unfold not_below in *.
      eauto.
Qed.

Lemma sorted_reverse_sorted l : StronglySorted (not_below lt key) (sorted_reverse lt key l).
Proof.
  induction l as [|x l IH]; simpl; [constructor|]. by apply insert_desc_sorted.
Qed.

Lemma StronglySorted_take {B : Type} (R : B -> B -> Prop) n (l : list B) :
  StronglySorted R l -> StronglySorted R (take n l).
Proof.
  intros Hs. revert n. induction Hs as [|x l Hs IH Hall]; intros [|n]; simpl;
    try constructor; [apply IH|].
  eapply Forall_forall. intros y Hy. apply (proj1 (Forall_forall _ _) Hall).
  eapply elem_of_take in Hy as (i & Hi & _). by eapply list_elem_of_lookup_2.
Qed.

End SortFacts.

(** ** The tool effectiveness tracker *)
Section ToolTrackerFacts.
Context `{PyFloat}.
Import ToolTracker.

Implicit Types (t : ToolTracker) (log : list execution) (name : string).

Lemma record_execution_same t name success error now disk :
  exists st,
    Dict.get name (stats (record_execution t name success error now disk)) = Some st
    /\ total st = total (entry t name) + 1
    /\ successful st = successful (entry t name) + (if success then 1 else 0)
    /\ failed st = failed (entry t name) + (if success then 0 else 1)
    /\ success_rate st = truediv (successful st) (total st).
Proof.
  unfold record_execution, entry. simpl. rewrite get_set_eq.
  eexists. split; [reflexivity|]. simpl.
  destruct (Dict.get name (stats t)), success; simpl; repeat split; lia.
Qed.

Lemma record_execution_other t name name' success error now disk :
  name' <> name ->
  Dict.get name (stats (record_execution t name' success error now disk))
  = Dict.get name (stats t).
Proof. intros Hne. unfold record_execution. simpl. by apply get_set_ne. Qed.

Lemma record_all_NoDup t log :
  NoDup (Dict.keys (stats t)) -> NoDup (Dict.keys (stats (record_all t log))).
Proof.
  revert t. induction log as [|e log IH]; intros t Hnd; simpl; [done|].
  apply IH. unfold record_execution. simpl. by apply set_NoDup.
Qed.

Lemma count_success_cons name e log :
  count_success name (e :: log)
  = (if bool_decide (ex_tool e = name) && ex_success e then 1 else 0)
    + count_success name log.
Proof.
  unfold count_success. rewrite filter_cons.
  destruct (decide _) as [[-> Hs] | Hn]; simpl.
  - rewrite bool_decide_eq_true_2, Hs by done. simpl. lia.
  - destruct (bool_decide_reflect (ex_tool e = name)), (ex_success e); simpl;
      try lia. exfalso. auto.
Qed.

Lemma count_failure_cons name e log :
  count_failure name (e :: log)
  = (if bool_decide (ex_tool e = name) && negb (ex_success e) then 1 else 0)
    + count_failure name log.
Proof.
  unfold count_failure. rewrite filter_cons.
  destruct (decide _) as [[-> Hs] | Hn]; simpl.
  - rewrite bool_decide_eq_true_2, Hs by done. simpl. lia.
  - destruct (bool_decide_reflect (ex_tool e = name)), (ex_success e); simpl;
      try lia. exfalso. auto.
Qed.

Lemma count_nonneg name log :
  0 <= count_success name log /\ 0 <= count_failure name log.
Proof. unfold count_success, count_failure. lia. Qed.

(** The counters after a log, from any tracker. *)
Lemma record_all_counts name log t :
  let n := count_success name log in
  let m := count_failure name log in
  (n + m = 0 ->
   Dict.get name (stats (record_all t log)) = Dict.get name (stats t))
  /\ (0 < n + m ->
      exists st,
        Dict.get name (stats (record_all t log)) = Some st
        /\ total st = total (entry t name) + n + m
        /\ successful st = successful (entry t name) + n
        /\ failed st = failed (entry t name) + m
        /\ success_rate st = truediv (successful st) (total st)).
Proof.
  revert t. induction log as [|e log IH]; intros t n m.
  - subst n m. simpl. split; [done|]. unfold count_success, count_failure.
    simpl. lia.
  - subst n m. rewrite count_success_cons, count_failure_cons.
    pose proof (count_nonneg name log) as [Hn Hm].
    simpl record_all.
    set (t1 := record_execution t (ex_tool e) (ex_success e) (ex_error e)
                 (ex_now e) (ex_disk e)).
    destruct (IH t1) as [IH0 IH1].
    destruct (bool_decide_reflect (ex_tool e = name)) as [Heq | Hne]; simpl.
    + subst name.
      destruct (record_execution_same t (ex_tool e) (ex_success e) (ex_error e)
                  (ex_now e) (ex_disk e)) as (st1 & Hget & Ht & Hs & Hf & Hr).
      fold t1 in Hget.
      assert (entry t1 (ex_tool e) = st1) as Hentry
        by (unfold entry; rewrite Hget; done).
      split; [destruct (ex_success e); simpl; lia|]. intros _.
      destruct (decide (count_success (ex_tool e) log
                        + count_failure (ex_tool e) log = 0)) as [Hz | Hnz].
      * exists st1. rewrite (IH0 Hz), Hget.
        split; [done|]. split; [|split; [|split; [|exact Hr]]];
          rewrite ?Ht, ?Hs, ?Hf; destruct (ex_success e); simpl; lia.
      * destruct IH1 as (st & Hst & Ht' & Hs' & Hf' & Hr'); [lia|].
        exists st. split; [done|]. rewrite Hentry in Ht', Hs', Hf'.
        split; [|split; [|split; [|exact Hr']]];
          rewrite ?Ht', ?Hs', ?Hf', ?Ht, ?Hs, ?Hf; destruct (ex_success e);
          simpl; lia.
    + assert (Dict.get name (stats t1) = Dict.get name (stats t)) as Hsame
        by (by apply record_execution_other).
      assert (entry t1 name = entry t name) as Hentry
        by (unfold entry; by rewrite Hsame).
      rewrite Hentry, Hsame in *. split.
      * intros Hz. apply IH0. lia.
      * intros Hpos. destruct IH1 as (st & Hst & Ht' & Hs' & Hf' & Hr'); [lia|].
        exists st. repeat split; try done; lia.
Qed.

Lemma ranking_elem_of t r :
  r ∈ get_reliability_ranking t <->
  exists k st, (k, st) ∈ stats t /\ 3 <= total st
               /\ r = mkRanked k (success_rate st) (total st) (successful st).
Proof.
  unfold get_reliability_ranking. rewrite sorted_reverse_perm, list_elem_of_omap.
  split.
  - intros ([k st] & Hin & Hf). simpl in Hf.
    destruct (Z.leb_spec 3 (total st)); [|discriminate].
    injection Hf as <-. by exists k, st.
  - intros (k & st & Hin & Hle & ->). exists (k, st). split; [done|]. simpl.
    by destruct (Z.leb_spec 3 (total st)); [|lia].
Qed.

(** C6. From an empty statistics table, after a log with [n] successful and
    [m] failed executions of a tool ([n + m > 0]): the stored entry counts
    them and its [success_rate] is [n / (n + m)]; the ranking omits the tool
    when [n + m < 3] and lists it, with that rate, when [n + m >= 3]; and the
    ranking is in descending order of success rate. *)
Theorem success_rate_and_ranking (log : list execution) (name : string) :
  let t := record_all (init Missing) log in
  let n := count_success name log in
  let m := count_failure name log in
  (0 < n + m ->
   exists st,
     Dict.get name (stats t) = Some st
     /\ total st = n + m /\ successful st = n /\ failed st = m
     /\ success_rate st = truediv n (n + m))
  /\ (n + m < 3 -> forall r, r ∈ get_reliability_ranking t -> tool r <> name)
  /\ (3 <= n + m ->
      exists r, r ∈ get_reliability_ranking t /\ tool r = name
                /\ ranked_success_rate r = truediv n (n + m))
  /\ StronglySorted
       (fun a b => flt (ranked_success_rate a) (ranked_success_rate b) = false)
       (get_reliability_ranking t).
Proof.
  intros t n m.
  destruct (record_all_counts name log (init Missing)) as [H0 Hpos].
  fold t n m in H0, Hpos.
  assert (Hstored : 0 < n + m ->
            exists st, Dict.get name (stats t) = Some st
                       /\ total st = n + m /\ successful st = n /\ failed st = m
                       /\ success_rate st = truediv n (n + m)).
  { intros Hnm. destruct (Hpos Hnm) as (st & Hget & Ht & Hs & Hf & Hr).
    unfold entry in Ht, Hs, Hf. simpl in Ht, Hs, Hf.
    exists st. rewrite Hr, Hs, Ht, !Z.add_0_l. done. }
  assert (Hnd : NoDup (Dict.keys (stats t))).
  { apply record_all_NoDup. simpl. apply NoDup_nil_2. }
  pose proof (count_nonneg name log) as [Hn Hm]. fold n in Hn. fold m in Hm.
  split; [exact Hstored|]. split; [|split].
  - intros Hlt r (k & st & Hin & Hle & ->)%ranking_elem_of. simpl. intros ->.
    apply (elem_of_get _ _ _ Hnd) in Hin.
    destruct (decide (n + m = 0)) as [Hz | Hnz].
    + rewrite (H0 Hz) in Hin. discriminate Hin.
    + destruct Hstored as (st' & Hget & Ht & _); [lia|].
      rewrite Hget in Hin. injection Hin as ->. lia.
  - intros Hge. destruct Hstored as (st & Hget & Ht & Hs & Hf & Hr); [lia|].
    exists (mkRanked name (success_rate st) (total st) (successful st)).
    split; [|done]. apply ranking_elem_of. exists name, st.
    split; [by apply get_elem_of|]. split; [lia|done].
  - apply (sorted_reverse_sorted flt ranked_success_rate flt_asym flt_negtrans).
Qed.

End ToolTrackerFacts.

Lemma success_rate_and_ranking_witness :
  exists r,
    r ∈ ToolTracker.get_reliability_ranking (H := QFloat)
          (ToolTracker.record_all (ToolTracker.init ToolTracker.Missing) ranking_log)
    /\ ToolTracker.tool r = "Bash"
    /\ ToolTracker.ranked_success_rate r = truediv (H := QFloat) 1 3.
Proof.
  apply (proj1 (proj2 (proj2 (success_rate_and_ranking (H := QFloat) ranking_log "Bash")))).
  by vm_compute.
Defined.

Example ranking_of_the_test :
  map ToolTracker.tool
    (ToolTracker.get_reliability_ranking (H := QFloat)
       (ToolTracker.record_all (ToolTracker.init ToolTracker.Missing) ranking_log))
  = ["Write"; "Bash"].
Proof. by vm_compute. Qed.

(** ** Episodic memory *)
Section SemanticMemoryFacts.
Context `{PyFloat}.
Import SemanticMemory.

Lemma scored_elem_of q threshold stored p :
  p ∈ scored q threshold stored <->
  p.1 ∈ stored /\ p.2 = token_overlap q (task p.1) /\ fge p.2 threshold = true.
Proof.
  unfold scored. rewrite list_elem_of_omap. split.
  - intros (s & Hin & Hf). simpl in Hf.
    destruct (fge (token_overlap q (task s)) threshold) eqn:Hge; [|discriminate].
    injection Hf as <-. done.
  - destruct p as [s sim]. simpl. intros (Hin & -> & Hge). exists s.
    by rewrite Hge.
Qed.

Lemma slice_to_take {A : Type} (n : Z) (l : list A) :
  exists k, slice_to n l = take k l.
Proof. unfold slice_to. destruct (0 <=? n); eauto. Qed.

Lemma StronglySorted_map {A B : Type} (R : A -> A -> Prop) (R' : B -> B -> Prop)
    (f : A -> B) (l : list A) :
  (forall x y, x ∈ l -> y ∈ l -> R x y -> R' (f x) (f y)) ->
  StronglySorted R l -> StronglySorted R' (map f l).
Proof.
  intros Hf Hs. induction Hs as [|x l Hs IH Hall]; simpl; constructor.
  - apply IH. intros a b Ha Hb. apply Hf; by right.
  - apply Forall_fmap, Forall_forall. intros y Hy. apply Hf; [left|by right|].
    by apply (proj1 (Forall_forall _ _) Hall).
Qed.

(** C7. A call of [store_solution] with [success=false] leaves the memory
    as it is, so one that changes it has [success=true]; and
    [find_similar_solutions] returns stored entries only, each with a
    token-overlap similarity to the query of at least the threshold, in
    descending order of similarity. *)
Theorem store_on_success_find_similar (self : SemanticMemory) :
  (forall task_description path now disk_ok,
     store_solution self task_description path false now disk_ok = Return self)
  /\ (forall task_description path success now disk_ok self',
        store_solution self task_description path success now disk_ok = Return self' ->
        self' <> self -> success = true)
  /\ (forall query threshold limit,
        let similarity s := token_overlap query (task s) in
        let found := find_similar_solutions self query threshold limit in
        Forall (fun s => s ∈ solutions self /\ fge (similarity s) threshold = true) found
        /\ StronglySorted (fun a b => flt (similarity a) (similarity b) = false) found).
Proof.
  split; [reflexivity|]. split.
  - intros task_description path [|] now disk_ok self' Hstore Hne; [done|].
    unfold store_solution in Hstore. simpl in Hstore. congruence.
  - intros query threshold limit similarity found. subst found.
    unfold find_similar_solutions.
    destruct (solutions self) as [|s0 stored] eqn:Hsol; [split; constructor|].
    rewrite <- Hsol. clear s0 stored Hsol.
    set (sims := scored query threshold (solutions self)).
    destruct (slice_to_take limit (sorted_reverse flt snd sims)) as [k ->].
    assert (Hin : forall p, p ∈ take k (sorted_reverse flt snd sims) ->
              p.1 ∈ solutions self /\ p.2 = similarity p.1
              /\ fge p.2 threshold = true).
    { intros p Hp. apply scored_elem_of.
      apply elem_of_take in Hp as (i & Hi & _).
      apply list_elem_of_lookup_2 in Hi. by rewrite sorted_reverse_perm in Hi. }
    split.
    + apply Forall_fmap, Forall_forall. intros p Hp. simpl.
      destruct (Hin p Hp) as (Hs & Hsim & Hge). by rewrite <- Hsim.
    + apply (StronglySorted_map (not_below flt snd)).
      * intros x y Hx Hy Hxy. unfold not_below in Hxy.
        destruct (Hin x Hx) as (_ & <- & _). destruct (Hin y Hy) as (_ & <- & _).
        done.
      * apply StronglySorted_take.
        apply (sorted_reverse_sorted flt snd flt_asym flt_negtrans).
Qed.

End SemanticMemoryFacts.

Lemma store_on_success_find_similar_witness :
  SemanticMemory.store_solution sorting_memory "failed operation"
    ["tool: Bash did something"] false "2024-01-01T00:00:01" true
  = Return sorting_memory
  /\ map SemanticMemory.task
       (SemanticMemory.find_similar_solutions (H := QFloat) sorting_memory
          "python function for sorting" (1 # 5)%Q 3)
     = ["write python sorting function"].
Proof.
  split.
  - apply (proj1 (store_on_success_find_similar (H := QFloat) sorting_memory)).
  - by vm_compute.
Defined.

(** ** The execution-metrics evaluator *)
Section EvaluationFacts.
Context `{PyFloat}.
Import Evaluation.

Lemma record_script self script e :
  current_execution self = Some e ->
  exists e',
    current_execution (fold_left record script self) = Some e'
    /\ total_tokens e' = total_tokens e + tokens_recorded script
    /\ executions_history (fold_left record script self) = executions_history self
    /\ summary_file (fold_left record script self) = summary_file self.
Proof.
  revert self e. induction script as [|r script IH]; intros self e Hcur; simpl.
  - exists e. rewrite Z.add_0_r. done.
  - destruct r as [|tool_name|total prompt_ completion]; simpl.
    + destruct (IH (record_iteration self) _
                  ltac:(unfold record_iteration, update_current; simpl;
                        rewrite Hcur; reflexivity)) as (e' & ? & ? & ? & ?).
      exists e'. done.
    + destruct (IH (record_tool_use self tool_name) _
                  ltac:(unfold record_tool_use, update_current; simpl;
                        rewrite Hcur; reflexivity)) as (e' & ? & ? & ? & ?).
      exists e'. done.
    + destruct (IH (record_tokens self total prompt_ completion) _
                  ltac:(unfold record_tokens, update_current; simpl;
                        rewrite Hcur; reflexivity)) as (e' & ? & Ht & ? & ?).
      exists e'. simpl in Ht. repeat split; try done. lia.
Qed.

(** A completed task joins the history with its outcome and tokens, and the
    summary is recomputed from the whole history when its write succeeds. *)
Lemma complete_task_history self r ok :
  exists t,
    success t = ok
    /\ total_tokens t = tokens_recorded (run_script r)
    /\ forall summary_ok,
         executions_history (complete_task self r ok summary_ok)
         = (executions_history self ++ [t])%list
         /\ (summary_ok = true ->
             get_summary (complete_task self r ok summary_ok)
             = Some (summarize (executions_history self ++ [t]) (run_stamp r))).
Proof.
  unfold complete_task.
  destruct (record_script
              (start_task self (run_prompt r) (run_model r) (run_id_clock r)
                 (run_start r)).2 (run_script r) _ eq_refl)
    as (e & Hcur & Htok & Hhist & Hsum).
  simpl in Htok, Hhist.
  eexists (mkTaskExecution _ _ _ _ ok _ (total_tokens e) _ _ _ _ _).
  split; [reflexivity|]. split; [simpl; lia|]. intros summary_ok.
  unfold end_task, get_summary, _update_summary. rewrite Hcur. simpl.
  rewrite Hhist.
  destruct (executions_history self ++ _)%list eqn:Happ.
  { by apply app_eq_nil in Happ as [_ ?]. }
  rewrite <- Happ. simpl. split; [reflexivity|]. by intros ->.
Qed.

(** C8. From an empty history, after exactly two completed tasks, one
    ended with [success=true] and 100 tokens recorded and one ended with
    [success=false] and 50 tokens recorded (in either order), the summary
    reports [total_tasks = 2], [success_rate = 0.5] and
    [total_tokens_used = 150]. *)
Theorem two_task_summary (stale : option Summary) (first second : task_run)
    (success_first summary_ok : bool) :
  let good := if success_first then first else second in
  let bad := if success_first then second else first in
  tokens_recorded (run_script good) = 100 ->
  tokens_recorded (run_script bad) = 50 ->
  let after_one := complete_task (init [] stale) first success_first summary_ok in
  let after_two := complete_task after_one second (negb success_first) true in
  exists summary,
    get_summary after_two = Some summary
    /\ total_tasks summary = 2
    /\ success_rate summary = of_Q (1 # 2)
    /\ total_tokens_used summary = 150.
Proof.
  intros good bad Hgood Hbad after_one after_two.
  destruct (complete_task_history (init [] stale) first success_first)
    as (t1 & Hs1 & Ht1 & H1).
  destruct (H1 summary_ok) as [Hh1 _]. fold after_one in Hh1.
  destruct (complete_task_history after_one second (negb success_first))
    as (t2 & Hs2 & Ht2 & H2).
  destruct (H2 true) as [_ Hsum]. fold after_two in Hsum.
  rewrite (Hsum eq_refl), Hh1. simpl.
  eexists. split; [reflexivity|].
  unfold summarize. simpl. rewrite !filter_cons, filter_nil.
  rewrite Ht1, Ht2, Hs1, Hs2.
  subst good bad. destruct success_first; simpl in *; rewrite Hgood, Hbad;
    repeat split; reflexivity.
Qed.

End EvaluationFacts.

Lemma two_task_summary_witness :
  exists summary,
    Evaluation.get_summary
      (Evaluation.complete_task
         (Evaluation.complete_task (Evaluation.init [] None) task_one true true)
         task_two false true)
    = Some summary
    /\ Evaluation.total_tasks summary = 2
    /\ Evaluation.success_rate summary = (1 # 2)%Q
    /\ Evaluation.total_tokens_used summary = 150.
Proof.
  apply (two_task_summary (H := QFloat) None task_one task_two true true);
    reflexivity.
Defined.

(** ** The statistics file *)
Section StatsFile.
Context `{PyFloat}.
Import ToolTracker.

Lemma load_errors_inserts (l : list (string * Z)) (acc : gmap string Z) :
  load_errors (map (fun kv => (kv.1, JInt kv.2)) l) acc
  = Some (fold_left (fun a kv => <[kv.1 := kv.2]> a) l acc).
Proof.
  revert acc. induction l as [|[k n] l IH]; intros acc; simpl; [done|].
  apply IH.
Qed.

Lemma fold_insert_list_to_map (l : list (string * Z)) (acc : gmap string Z) :
  NoDup l.*1 ->
  fold_left (fun a kv => <[kv.1 := kv.2]> a) l acc = list_to_map l ∪ acc.
Proof.
  revert acc. induction l as [|[k n] l IH]; intros acc Hnd; simpl.
  - by rewrite (left_id_L ∅ (∪)).
  - apply NoDup_cons in Hnd as [Hk Hnd]. rewrite (IH _ Hnd).
    rewrite <- insert_union_l. apply eq_sym, insert_union_r.
    by apply not_elem_of_list_to_map_1.
Qed.

Lemma load_errors_round_trip (m : gmap string Z) :
  load_errors (map (fun kv => (kv.1, JInt kv.2)) (map_to_list m)) ∅ = Some m.
Proof.
  rewrite load_errors_inserts, fold_insert_list_to_map
    by apply NoDup_fst_map_to_list.
  by rewrite (right_id_L ∅ (∪)), list_to_map_to_list.
Qed.

Lemma stat_round_trip (st : ToolStat) : stat_of_json (stat_to_json st) = Some st.
Proof.
  destruct st as [t s f r lu e]. unfold stat_to_json, stat_of_json. simpl.
  rewrite load_errors_round_trip. by destruct lu.
Qed.

Lemma load_table_sets (table acc : Dict.dict ToolStat) :
  load_table (map (fun kv => (kv.1, stat_to_json kv.2)) table) acc
  = Some (fold_left (fun d kv => Dict.set kv.1 kv.2 d) table acc).
Proof.
  revert acc. induction table as [|[k st] table IH]; intros acc; [done|].
  cbn [map load_table fst snd]. rewrite stat_round_trip. apply IH.
Qed.

Lemma fold_set_app {V : Type} (l acc : Dict.dict V) :
  NoDup (Dict.keys acc ++ Dict.keys l) ->
  fold_left (fun d kv => Dict.set kv.1 kv.2 d) l acc = (acc ++ l)%list.
Proof.
  revert acc. induction l as [|[k v] l IH]; intros acc Hnd; simpl.
  - by rewrite app_nil_r.
  - assert (k ∉ Dict.keys acc) as Hk.
    { apply NoDup_app in Hnd as (_ & Hdisj & _). intros Hin.
      apply (Hdisj k Hin). left. }
    rewrite set_absent by done. rewrite IH.
    + by rewrite <- app_assoc.
    + unfold Dict.keys in *. rewrite fmap_app, <- app_assoc. done.
Qed.

(** C9. For every statistics table (a dict: no key twice), writing it with
    [_save_stats] and reading the file back with [_load_stats], as a new
    tracker does, gives the same table: every tool with the same counters,
    rate, time stamp and error histogram. *)
Theorem save_then_load (t : ToolTracker) :
  NoDup (Dict.keys (stats t)) ->
  _load_stats (stats_file (_save_stats t WriteOk)) = stats t
  /\ stats (init (stats_file (_save_stats t WriteOk))) = stats t.
Proof.
  intros Hnd. assert (_load_stats (stats_file (_save_stats t WriteOk)) = stats t)
    as Hload; [|by split].
  simpl. unfold stats_to_json, stats_of_json.
  rewrite load_table_sets, fold_set_app; [done|]. by simpl.
Qed.

(** The table a tracker holds is a dict, whatever file it started from. *)
Lemma load_table_NoDup members acc table :
  NoDup (Dict.keys acc) -> load_table members acc = Some table ->
  NoDup (Dict.keys table).
Proof.
  revert acc. induction members as [|[k j] members IH]; intros acc Hnd; simpl.
  - by intros [= <-].
  - destruct (stat_of_json j); [|discriminate]. apply IH. by apply set_NoDup.
Qed.

Lemma tracker_stats_NoDup (f : file) (log : list execution) :
  NoDup (Dict.keys (stats (record_all (init f) log))).
Proof.
  apply record_all_NoDup. simpl. unfold _load_stats.
  destruct f as [|doc|]; try apply NoDup_nil_2.
  destruct (stats_of_json doc) as [table|] eqn:Hdoc; [|apply NoDup_nil_2].
  destruct doc; try discriminate. simpl in Hdoc.
  eapply load_table_NoDup; [|exact Hdoc]. apply NoDup_nil_2.
Qed.

(** A write that fails leaves the file as the failure left it: the reload
    then gives that file's table, not the one in memory. *)
Lemma failed_save_then_load (t : ToolTracker) (remains : file) :
  _load_stats (stats_file (_save_stats t (WriteFails remains))) = _load_stats remains.
Proof. reflexivity. Qed.

End StatsFile.

Lemma save_then_load_witness :
  let t := ToolTracker.record_all (H := QFloat)
             (ToolTracker.init ToolTracker.Missing) ranking_log in
  ToolTracker._load_stats
    (ToolTracker.stats_file (ToolTracker._save_stats t ToolTracker.WriteOk))
  = ToolTracker.stats t.
Proof.
  apply (proj1 (save_then_load (H := QFloat)
                  (ToolTracker.record_all (ToolTracker.init ToolTracker.Missing)
                     ranking_log)
                  (tracker_stats_NoDup ToolTracker.Missing ranking_log))).
Defined.

(** ** The retry executor *)
Section RetryExecutor.
Context `{PyFloat}.
Import Agent.

Implicit Types (self : Agent) (tc : ToolCall) (env : nat -> attempt_env).

Lemma preserved_refl a : preserved a a.
Proof. repeat split. by exists []. Qed.

Lemma preserved_trans a b c : preserved a b -> preserved b c -> preserved a c.
Proof.
  intros (? & ? & ? & ? & n1 & E1) (? & ? & ? & ? & n2 & E2).
  repeat split; try congruence. exists (n1 ++ n2)%list.
  by rewrite fold_left_app, <- E1.
Qed.

Lemma preserved_after_execution self tc : preserved self (after_execution self tc).
Proof.
  unfold after_execution. destruct (enable_evaluation self) eqn:E; simpl;
    repeat split; try done.
  - by exists [function_name tc].
  - by exists [].
Qed.

Lemma messages_after_execution self tc :
  messages (after_execution self tc) = messages self.
Proof. unfold after_execution. by destruct (enable_evaluation self). Qed.

Lemma reflect_preserved self name output reply text self' :
  _reflect_on_execution self name output reply = Return (text, self') ->
  preserved self self' /\ messages self' = messages self.
Proof.
  unfold _reflect_on_execution.
  destruct (negb (enable_reflection self) || _).
  - intros [= <- <-]. split; [apply preserved_refl | done].
  - destruct reply as [[[|c r]|]|e]; try (intros [= <- <-]; split;
      [apply preserved_refl | done]).
    + intros [= <- <-]. split; [|done]. repeat split. by exists [].
    + destruct (is_Exception e); [|discriminate].
      intros [= <- <-]. split; [apply preserved_refl | done].
Qed.

Lemma should_reflect_preserved a b output :
  preserved a b ->
  _should_reflect_on_output b output = _should_reflect_on_output a output.
Proof. intros (E & _). unfold _should_reflect_on_output. by rewrite E. Qed.

(** The loop from any attempt on: it keeps the switches, appends only
    reflection messages (at most one per round), sleeps only after attempts
    before the last, and returns when the environment is quiet. *)
Lemma retry_loop_inv cfg tc env remaining :
  forall attempt self last_error slept,
    let res := retry_loop cfg tc env remaining attempt self last_error slept in
    preserved self res.1.2
    /\ (exists ms, messages res.1.2 = (messages self ++ ms)%list
                   /\ Forall is_reflection ms /\ (length ms <= remaining)%nat)
    /\ (exists sl, res.2 = (slept ++ sl)%list
                   /\ (length sl <= max_retries cfg - 1 - attempt)%nat)
    /\ ((forall i, quiet_attempt true (env i)) -> quiet_call tc ->
        exists out, res.1.1 = Return out).
Proof.
  induction remaining as [|remaining IH]; intros attempt self last_error slept.
  - simpl. split; [repeat split; by exists []|]. split.
    + exists []. rewrite app_nil_r. repeat split; [constructor | simpl; lia].
    + split; [exists []; rewrite app_nil_r; split; [done | simpl; lia]|].
      intros _ _. eauto.
  - assert (Hsleep : exists sl,
              backoff cfg attempt slept = (slept ++ sl)%list
              /\ (length sl + (max_retries cfg - 1 - S attempt)
                  <= max_retries cfg - 1 - attempt)%nat).
    { unfold backoff. destruct (Nat.ltb_spec attempt (max_retries cfg - 1)).
      - eexists [_]. split; [done|]. simpl. lia.
      - exists []. rewrite app_nil_r. split; [done|]. simpl. lia. }
    destruct Hsleep as (sl0 & Hsl0 & Hlen0).
    assert (Hnext : forall self1 err,
              preserved self self1 ->
              (exists ms, messages self1 = (messages self ++ ms)%list
                          /\ Forall is_reflection ms /\ (length ms <= 1)%nat) ->
              let res := retry_loop cfg tc env remaining (S attempt) self1 err
                           (backoff cfg attempt slept) in
              preserved self res.1.2
              /\ (exists ms, messages res.1.2 = (messages self ++ ms)%list
                             /\ Forall is_reflection ms
                             /\ (length ms <= S remaining)%nat)
              /\ (exists sl, res.2 = (slept ++ sl)%list
                             /\ (length sl <= max_retries cfg - 1 - attempt)%nat)
              /\ ((forall i, quiet_attempt true (env i)) -> quiet_call tc ->
                  exists out, res.1.1 = Return out)).
    { intros self1 err Hp (ms1 & Hm1 & Hr1 & Hl1) res.
      destruct (IH (S attempt) self1 err (backoff cfg attempt slept))
        as (Hp' & (ms & Hm & Hr & Hl) & (sl & Hs & Hsl) & Hq).
      fold res in Hp', Hm, Hs, Hq.
      split; [by eapply preserved_trans|]. split.
      - exists (ms1 ++ ms)%list. rewrite Hm, Hm1, app_assoc.
        split; [done|]. split; [by apply Forall_app|].
        rewrite length_app. lia.
      - split; [|done]. exists (sl0 ++ sl)%list.
        rewrite Hs, Hsl0, app_assoc. split; [done|]. rewrite length_app. lia. }
    assert (Hstop : forall (r : result string) self1,
              preserved self self1 -> messages self1 = messages self ->
              ((forall i, quiet_attempt true (env i)) -> quiet_call tc ->
               exists out, r = Return out) ->
              let res := (r, self1, slept) in
              preserved self res.1.2
              /\ (exists ms, messages res.1.2 = (messages self ++ ms)%list
                             /\ Forall is_reflection ms
                             /\ (length ms <= S remaining)%nat)
              /\ (exists sl, res.2 = (slept ++ sl)%list
                             /\ (length sl <= max_retries cfg - 1 - attempt)%nat)
              /\ ((forall i, quiet_attempt true (env i)) -> quiet_call tc ->
                  exists out, res.1.1 = Return out)).
    { intros r self1 Hp Hm Hq res. simpl. split; [done|]. split.
      - exists []. rewrite app_nil_r. repeat split; [done | constructor | simpl; lia].
      - split; [|done]. exists []. rewrite app_nil_r. split; [done | simpl; lia]. }
    simpl retry_loop.
    destruct (outcome (env attempt)) as [output executed | e] eqn:Hout.
    + set (self1 := if executed then after_execution self tc else self).
      assert (preserved self self1 /\ messages self1 = messages self) as [Hp1 Hm1].
      { subst self1. destruct executed.
        - split; [apply preserved_after_execution | apply messages_after_execution].
        - split; [apply preserved_refl | done]. }
      destruct (_should_reflect_on_output self1 output) eqn:Hreflect; cbn [negb].
      * destruct (arguments tc) as [keys | e] eqn:Hargs.
        -- destruct (_reflect_on_execution self1 (function_name tc) output
                       (reflection_reply (env attempt)))
             as [[reflection self2] | e] eqn:Hr.
           ++ apply reflect_preserved in Hr as [Hp2 Hm2].
              apply Hnext.
              ** destruct reflection; (eapply preserved_trans; [exact Hp1|]);
                   [done|]. destruct Hp2 as (? & ? & ? & ? & ?). repeat split; done.
              ** destruct reflection; simpl.
                 --- exists []. rewrite app_nil_r, Hm2, Hm1.
                     repeat split; [constructor | simpl; lia].
                 --- eexists [_]. rewrite Hm2, Hm1. split; [done|].
                     split; [by repeat constructor | simpl; lia].
           ++ apply Hstop; [done..|]. intros Hquiet _.
              destruct (Hquiet attempt) as [_ Hq].
              unfold _reflect_on_execution in Hr.
              destruct (negb _ || negb _); [discriminate|].
              destruct (reflection_reply (env attempt)) as [[[|]|]|e'] eqn:Hrep;
                try discriminate.
              rewrite (Hq e' eq_refl) in Hr. discriminate.
        -- destruct (is_Exception e) eqn:He.
           ++ apply Hnext; [done|]. exists []. rewrite app_nil_r, Hm1.
              repeat split; [constructor | simpl; lia].
           ++ apply Hstop; [done..|]. intros _ Hcall.
              rewrite (Hcall e Hargs) in He. discriminate.
      * apply (Hstop (Return output) (set_last_tool_output self1 output)).
        -- eapply preserved_trans; [exact Hp1|]. repeat split. by exists [].
        -- done.
        -- eauto.
    + destruct (is_Exception e) eqn:He.
      * apply Hnext; [apply preserved_refl|]. exists []. rewrite app_nil_r.
        repeat split; [constructor | simpl; lia].
      * apply Hstop; [apply preserved_refl | done |]. intros Hquiet _.
        destruct (Hquiet attempt) as [Hq _]. destruct (Hq e Hout) as [_ He'].
        congruence.
Qed.

Lemma reflect_on_failure self name output reply :
  _should_reflect_on_output self output = true ->
  (forall e, reply = Raise e -> is_Exception e = true) ->
  exists self2,
    _reflect_on_execution self name output reply
    = Return (reflection_text reply, self2)
    /\ preserved self self2 /\ messages self2 = messages self.
Proof.
  intros Hs Hq. unfold _reflect_on_execution. rewrite Hs.
  assert (enable_reflection self = true) as ->.
  { unfold _should_reflect_on_output in Hs.
    by destruct (enable_reflection self). }
  simpl. destruct reply as [[[|c r]|]|e]; simpl.
  - eexists. split; [done|]. split; [apply preserved_refl | done].
  - eexists. split; [done|]. split; [|done]. repeat split. by exists [].
  - eexists. split; [done|]. split; [apply preserved_refl | done].
  - rewrite (Hq e eq_refl). eexists. split; [done|].
    split; [apply preserved_refl | done].
Qed.

(** The loop when every attempt fails with an output that calls for
    reflection: each attempt with a reflection text appends its message, and
    each attempt before the last sleeps. *)
Lemma retry_loop_all_fail cfg tc env keys remaining :
  arguments tc = Return keys ->
  forall attempt self last_error slept,
    (forall i, (attempt <= i < attempt + remaining)%nat ->
               exists output executed,
                 outcome (env i) = Returned output executed
                 /\ _should_reflect_on_output self output = true) ->
    (forall i e, (attempt <= i < attempt + remaining)%nat ->
                 reflection_reply (env i) = Raise e -> is_Exception e = true) ->
    let res := retry_loop cfg tc env remaining attempt self last_error slept in
    messages res.1.2
    = (messages self
       ++ omap (appended (function_name tc) env) (seq attempt remaining))%list
    /\ res.2
       = (slept ++ map (fun i => Qpower (backoff_factor cfg) (Z.of_nat i))
                     (filter (fun i => (i < max_retries cfg - 1)%nat)
                             (seq attempt remaining)))%list.
Proof.
  intros Hargs. induction remaining as [|remaining IH];
    intros attempt self last_error slept Hfail Hquiet.
  - simpl. by rewrite !app_nil_r.
  - destruct (Hfail attempt ltac:(lia)) as (output & executed & Hout & Hreflect).
    simpl retry_loop. rewrite Hout.
    set (self1 := if executed then after_execution self tc else self).
    assert (preserved self self1 /\ messages self1 = messages self) as [Hp1 Hm1].
    { subst self1. destruct executed.
      - split; [apply preserved_after_execution | apply messages_after_execution].
      - split; [apply preserved_refl | done]. }
    rewrite (should_reflect_preserved _ _ _ Hp1), Hreflect, Hargs. cbn [negb].
    destruct (reflect_on_failure self1 (function_name tc) output
                (reflection_reply (env attempt)))
      as (self2 & -> & Hp2 & Hm2).
    { by rewrite (should_reflect_preserved _ _ _ Hp1). }
    { intros e. apply Hquiet. lia. }
    set (self3 := match reflection_text (reflection_reply (env attempt)) with
                  | EmptyString => self2
                  | _ => _
                  end).
    assert (preserved self self3
            /\ messages self3
               = (messages self
                  ++ match appended (function_name tc) env attempt with
                     | Some m => [m]
                     | None => []
                     end)%list) as [Hp3 Hm3].
    { subst self3. unfold appended.
      destruct (reflection_text (reflection_reply (env attempt))); simpl.
      - split; [by eapply preserved_trans|]. by rewrite app_nil_r, Hm2, Hm1.
      - split; [|by rewrite Hm2, Hm1].
        eapply preserved_trans; [exact Hp1|]. eapply preserved_trans; [exact Hp2|].
        repeat split. by exists []. }
    destruct (IH (S attempt) self3 (Some output) (backoff cfg attempt slept))
      as [Hm Hs].
    { intros i Hi. destruct (Hfail i ltac:(lia)) as (o & x & Ho & Hr).
      exists o, x. split; [done|]. by rewrite (should_reflect_preserved _ _ _ Hp3). }
    { intros i e Hi. apply Hquiet. lia. }
    split.
    + rewrite Hm, Hm3, <- app_assoc. f_equal. simpl.
      by destruct (appended (function_name tc) env attempt).
    + rewrite Hs. unfold backoff. simpl seq. rewrite filter_cons.
      destruct (Nat.ltb_spec attempt (max_retries cfg - 1));
        destruct (decide _); try lia; simpl; by rewrite <- ?app_assoc.
Qed.

Lemma max_retries_positive tc :
  (1 <= max_retries (default (mkRetryConfig 1 1)
                       (Dict.get (function_name tc) RETRY_CONFIG)))%nat.
Proof.
  unfold RETRY_CONFIG. cbn [Dict.get].
  repeat match goal with
         | |- context [String.eqb ?a ?b] => destruct (String.eqb a b)
         end; cbn; lia.
Qed.

Lemma failed_attempt_preserved a b tc x :
  preserved a b -> failed_attempt a tc x -> failed_attempt b tc x.
Proof.
  intros Hp. unfold failed_attempt. destruct (outcome x); [|done].
  by rewrite (should_reflect_preserved _ _ _ Hp).
Qed.

(** One round of the loop on a failed attempt: the loop goes on, after the
    wait, with the message of the attempt appended. *)
Lemma retry_loop_failed_step cfg tc env remaining attempt self last_error slept :
  failed_attempt self tc (env attempt) ->
  exists self',
    retry_loop cfg tc env (S remaining) attempt self last_error slept
    = retry_loop cfg tc env remaining (S attempt) self'
        (Some (failure_text tc (env attempt))) (backoff cfg attempt slept)
    /\ preserved self self'
    /\ messages self'
       = (messages self ++ option_list (reflection_of tc (env attempt)))%list.
Proof.
  unfold failed_attempt, failure_text, reflection_of. intros Hfail. simpl retry_loop.
  destruct (outcome (env attempt)) as [output executed | e] eqn:Hout.
  - destruct Hfail as [Hreflect Hargs].
    set (self1 := if executed then after_execution self tc else self).
    assert (preserved self self1 /\ messages self1 = messages self) as [Hp1 Hm1].
    { subst self1. destruct executed.
      - split; [apply preserved_after_execution | apply messages_after_execution].
      - split; [apply preserved_refl | done]. }
    rewrite (should_reflect_preserved _ _ _ Hp1), Hreflect. cbn [negb].
    destruct (arguments tc) as [keys | e] eqn:Hkeys.
    + destruct (reflect_on_failure self1 (function_name tc) output
                  (reflection_reply (env attempt)))
        as (self2 & -> & Hp2 & Hm2); [|done|].
      { by rewrite (should_reflect_preserved _ _ _ Hp1). }
      eexists. split; [reflexivity|].
      destruct (reflection_text _); cbn [option_list].
      * split; [by eapply preserved_trans|]. by rewrite app_nil_r, Hm2, Hm1.
      * split; [|by cbn [messages set_messages]; rewrite Hm2, Hm1].
        eapply preserved_trans; [exact Hp1|]. eapply preserved_trans; [exact Hp2|].
        repeat split. by exists [].
    + rewrite Hargs. eexists. split; [reflexivity|]. split; [done|].
      by rewrite app_nil_r.
  - rewrite Hfail. eexists. split; [reflexivity|].
    split; [apply preserved_refl | by rewrite app_nil_r].
Qed.

(** The loop over [k] failed attempts: their messages and their waits. *)
Lemma retry_loop_failed cfg tc env k :
  forall remaining attempt self last_error slept,
    (forall j, (attempt <= j < attempt + k)%nat -> failed_attempt self tc (env j)) ->
    exists self',
      retry_loop cfg tc env (k + remaining) attempt self last_error slept
      = retry_loop cfg tc env remaining (attempt + k) self'
          (match k with
           | O => last_error
           | S _ => Some (failure_text tc (env (attempt + k - 1)%nat))
           end)
          (slept ++ map (fun i => Qpower (backoff_factor cfg) (Z.of_nat i))
                        (filter (fun i => (i < max_retries cfg - 1)%nat)
                                (seq attempt k)))%list
      /\ preserved self self'
      /\ messages self'
         = (messages self
            ++ omap (fun i => reflection_of tc (env i)) (seq attempt k))%list.
Proof.
  induction k as [|k IH]; intros remaining attempt self last_error slept Hfail.
  - exists self. rewrite Nat.add_0_r, !app_nil_r.
    split; [done|]. split; [apply preserved_refl | done].
  - destruct (retry_loop_failed_step cfg tc env (k + remaining) attempt self
                last_error slept) as (self1 & Hstep & Hp1 & Hm1); [apply Hfail; lia|].
    destruct (IH remaining (S attempt) self1 (Some (failure_text tc (env attempt)))
                (backoff cfg attempt slept)) as (self' & Hrest & Hp' & Hm').
    { intros j Hj. eapply failed_attempt_preserved; [exact Hp1|]. apply Hfail. lia. }
    exists self'. split; [|split; [by eapply preserved_trans|]].
    + cbn [Nat.add]. rewrite Hstep, Hrest.
      replace (S attempt + k)%nat with (attempt + S k)%nat by lia. f_equal.
      * destruct k; do 3 f_equal; lia.
      * unfold backoff. cbn [seq]. rewrite filter_cons.
        destruct (Nat.ltb_spec attempt (max_retries cfg - 1));
          destruct (decide _); try lia; simpl; by rewrite <- ?app_assoc.
    + rewrite Hm', Hm1, <- app_assoc. f_equal. cbn [seq omap list_omap].
      by destruct (reflection_of tc (env attempt)).
Qed.

(** The round of the loop at an attempt the executor stops at: nothing is
    appended and there is no wait. *)
Lemma retry_loop_final cfg tc env remaining attempt self last_error slept :
  final_attempt self tc (env attempt) ->
  let res := retry_loop cfg tc env (S remaining) attempt self last_error slept in
  messages res.1.2 = messages self /\ res.2 = slept.
Proof.
  unfold final_attempt. intros Hfinal. simpl retry_loop.
  destruct (outcome (env attempt)) as [output executed | e] eqn:Hout.
  - set (self1 := if executed then after_execution self tc else self).
    assert (preserved self self1 /\ messages self1 = messages self) as [Hp1 Hm1].
    { subst self1. destruct executed.
      - split; [apply preserved_after_execution | apply messages_after_execution].
      - split; [apply preserved_refl | done]. }
    destruct (_should_reflect_on_output self1 output) eqn:Hreflect; cbn [negb];
      [|done].
    rewrite (should_reflect_preserved _ _ _ Hp1) in Hreflect.
    destruct Hfinal as [Hgood | Hstop]; [congruence|].
    destruct (arguments tc) as [keys | e].
    + destruct Hstop as (e & Hreply & He).
      unfold _reflect_on_execution.
      rewrite (should_reflect_preserved _ _ _ Hp1), Hreflect, Hreply, He.
      assert (enable_reflection self1 = true) as ->.
      { destruct Hp1 as (-> & _). unfold _should_reflect_on_output in Hreflect.
        by destruct (enable_reflection self). }
      done.
    + by rewrite Hstop.
  - by rewrite Hfinal.
Qed.

(** Every attempt is of one of the two kinds. *)
Lemma failed_or_final self tc (a : attempt_env) :
  failed_attempt self tc a \/ final_attempt self tc a.
Proof.
  unfold failed_attempt, final_attempt.
  destruct (outcome a) as [output executed | e]; [|by destruct (is_Exception e); auto].
  destruct (_should_reflect_on_output self output); [|by right; left].
  destruct (arguments tc) as [keys | e].
  - destruct (reflection_reply a) as [reply | e] eqn:Hreply.
    + left. split; [done|]. by intros e.
    + destruct (is_Exception e) eqn:He.
      * left. split; [done|]. by intros e' [= <-].
      * right. right. by exists e.
  - destruct (is_Exception e); [by left | by right; right].
Qed.

(** The attempts of a run: some number of failed ones, up to the bound, and
    then, if the bound is not reached, one the executor stops at. *)
Lemma attempts_of_run self tc env (bound : nat) :
  exists n, (n <= bound)%nat
            /\ (forall i, (i < n)%nat -> failed_attempt self tc (env i))
            /\ ((n < bound)%nat -> final_attempt self tc (env n)).
Proof.
  induction bound as [|bound (n & Hn & Hfailed & Hfinal)].
  - exists O. split; [lia|]. split; intros; lia.
  - destruct (Nat.eq_dec n bound) as [-> | Hlt].
    + destruct (failed_or_final self tc (env bound)) as [Hf | Hf].
      * exists (S bound). split; [lia|]. split; [|lia].
        intros i Hi. destruct (Nat.eq_dec i bound) as [-> | ?]; [done|].
        apply Hfailed. lia.
      * exists bound. split; [lia|]. by split.
    + exists n. split; [lia|]. split; [done|]. intros _. apply Hfinal. lia.
Qed.

Lemma filter_below_seq (m n : nat) :
  filter (fun i => (i < m)%nat) (seq 0 n) = seq 0 (Nat.min n m).
Proof.
  induction n as [|n IH]; [done|].
  rewrite seq_S, filter_app, IH, filter_cons, filter_nil. cbn [Nat.add].
  destruct (decide (n < m)%nat).
  - replace (Nat.min (S n) m) with (S (Nat.min n m)) by lia.
    rewrite seq_S. do 2 f_equal. lia.
  - rewrite app_nil_r. f_equal. lia.
Qed.

(** C4, as the code has it. With retries on, the executor appends only
    reflection messages to the conversation, at most one per attempt, and
    sleeps only between attempts (at most [max_retries - 1] times).  When
    every attempt fails with an output that calls for reflection, each
    attempt whose reflection has text appends its message, the final
    attempt too, and each attempt but the final one sleeps.  In every run,
    with [n] the number of failed attempts before the executor stops (at an
    attempt that returns an output not calling for reflection, at an
    interrupt, or after [max_retries] attempts): what is appended is, in
    order, the reflection message of each of these [n] attempts that has
    one, and the waits are those after the first [min n (max_retries - 1)]
    attempts; the attempt the executor stops at appends nothing and is
    followed by no wait.  Every run has such an [n]. *)
Theorem reflection_after_each_failed_attempt self tc env :
  enable_retry self = true ->
  let cfg := default (mkRetryConfig 1 1) (Dict.get (function_name tc) RETRY_CONFIG) in
  let res := _execute_tool_with_retry self tc env in
  (exists ms, messages res.1.2 = (messages self ++ ms)%list
              /\ Forall is_reflection ms /\ (length ms <= max_retries cfg)%nat)
  /\ (length res.2 <= max_retries cfg - 1)%nat
  /\ (forall keys,
        arguments tc = Return keys ->
        (forall i, (i < max_retries cfg)%nat ->
                   exists output executed,
                     outcome (env i) = Returned output executed
                     /\ _should_reflect_on_output self output = true) ->
        (forall i e, (i < max_retries cfg)%nat ->
                     reflection_reply (env i) = Raise e -> is_Exception e = true) ->
        messages res.1.2
        = (messages self
           ++ omap (appended (function_name tc) env) (seq 0 (max_retries cfg)))%list
        /\ res.2
           = map (fun i => Qpower (backoff_factor cfg) (Z.of_nat i))
                 (filter (fun i => (i < max_retries cfg - 1)%nat)
                         (seq 0 (max_retries cfg))))
  /\ (forall n : nat,
        (n <= max_retries cfg)%nat ->
        (forall i, (i < n)%nat -> failed_attempt self tc (env i)) ->
        ((n < max_retries cfg)%nat -> final_attempt self tc (env n)) ->
        messages res.1.2
        = (messages self ++ omap (fun i => reflection_of tc (env i)) (seq 0 n))%list
        /\ res.2 = map (wait_time cfg) (seq 0 (Nat.min n (max_retries cfg - 1))))
  /\ (exists n : nat,
        (n <= max_retries cfg)%nat
        /\ (forall i, (i < n)%nat -> failed_attempt self tc (env i))
        /\ ((n < max_retries cfg)%nat -> final_attempt self tc (env n))).
Proof.
  intros Hretry cfg res. subst res. unfold _execute_tool_with_retry.
  rewrite Hretry. cbn [negb]. fold cfg.
  destruct (retry_loop_inv cfg tc env (max_retries cfg) O self None [])
    as (_ & Hms & (sl & Hsl & Hlen) & _).
  split; [exact Hms|]. split; [|split; [|split; [|apply attempts_of_run]]].
  - rewrite Hsl. simpl. lia.
  - intros keys Hargs Hfail Hquiet.
    destruct (retry_loop_all_fail cfg tc env keys (max_retries cfg) Hargs
                O self None []) as [Hm Hs].
    + intros i Hi. apply Hfail. lia.
    + intros i e Hi. apply Hquiet. lia.
    + split; [exact Hm | exact Hs].
  - intros n Hn Hfail Hfinal.
    remember (retry_loop cfg tc env (max_retries cfg) O self None []) as r eqn:Hr.
    replace (max_retries cfg) with (n + (max_retries cfg - n))%nat in Hr at 1 by lia.
    destruct (retry_loop_failed cfg tc env n (max_retries cfg - n) O self None [])
      as (self' & Hloop & Hp & Hm).
    { intros j Hj. apply Hfail. lia. }
    rewrite Hloop, app_nil_l, filter_below_seq in Hr. cbn [Nat.add] in Hr.
    fold (wait_time cfg) in Hr. rewrite <- Hm.
    destruct (max_retries cfg - n)%nat as [|remaining] eqn:Hrest.
    + subst r. done.
    + destruct (retry_loop_final cfg tc env remaining n self'
                  (match n with
                   | O => None
                   | S _ => Some (failure_text tc (env (n - 1)%nat))
                   end)
                  (map (wait_time cfg) (seq 0 (Nat.min n (max_retries cfg - 1)))))
        as [Hm' Hs'].
      { assert (final_attempt self tc (env n)) as Hf by (apply Hfinal; lia).
        revert Hf. unfold final_attempt. destruct (outcome (env n)); [|done].
        by rewrite (should_reflect_preserved _ _ _ Hp). }
      subst r. done.
Qed.

End RetryExecutor.

(** The reflection on the third, final attempt of the three is appended to
    the conversation, after the last sleep, and the executor returns. *)
Lemma reflection_after_final_attempt :
  let res := Agent._execute_tool_with_retry fresh_agent failing_call failing_env in
  Agent.max_retries
    (default (Agent.mkRetryConfig 1 1) (Dict.get "Bash" Agent.RETRY_CONFIG)) = 3%nat
  /\ res.1.1 = Return "Error: command failed"
  /\ Agent.messages res.1.2
     = (Agent.messages fresh_agent
        ++ [Agent.ReflectionMessage "Bash" "Check the path and try again."])%list
  /\ res.2 = [1%Q; 2%Q].
Proof. by vm_compute. Qed.

(** The command that fails three times, and the command that fails once
    and then works: one reflection message and one wait, none after the
    attempt that works. *)
Lemma reflection_after_each_failed_attempt_witness :
  (let res := Agent._execute_tool_with_retry fresh_agent failing_call failing_env in
   Agent.messages res.1.2
   = (Agent.messages fresh_agent
      ++ omap (Agent.appended "Bash" failing_env) (seq 0 3))%list
   /\ res.2 = map (fun i => Qpower 2 (Z.of_nat i))
                  (filter (fun i => (i < 2)%nat) (seq 0 3)))
  /\ (let res := Agent._execute_tool_with_retry fresh_agent failing_call
                   recovering_env in
      Agent.messages res.1.2
      = (Agent.messages fresh_agent
         ++ [Agent.ReflectionMessage "Bash" "Create the directory first."])%list
      /\ res.2 = [1%Q]).
Proof.
  split.
  - apply (proj1 (proj2 (proj2 (reflection_after_each_failed_attempt (H := QFloat)
                                  fresh_agent failing_call failing_env eq_refl)))
             ["command"] eq_refl).
    + intros i Hi. exists "Error: command failed", true. by split.
    + intros i e Hi. unfold failing_env. simpl. by destruct (i =? 2)%nat.
  - apply (proj1 (proj2 (proj2 (proj2
                    (reflection_after_each_failed_attempt (H := QFloat)
                       fresh_agent failing_call recovering_env eq_refl))))
             1%nat).
    + simpl. lia.
    + intros i Hi. assert (i = O) as -> by lia. by split.
    + intros _. by left.
Defined.

(** ** The main loop *)
Section MainLoop.
Context `{PyFloat}.
Import Agent.

Lemma tracked_start ev0 p m id_clock now :
  tracked ev0 (Evaluation.start_task ev0 p m id_clock now).2 p m 0.
Proof. repeat split. eexists. by repeat split. Qed.

Lemma tracked_iteration ev0 ev p m k :
  tracked ev0 ev p m k -> tracked ev0 (Evaluation.record_iteration ev) p m (k + 1).
Proof.
  intros (? & ? & ? & e & Hcur & <- & <- & <-). repeat split; try done.
  unfold Evaluation.record_iteration, Evaluation.update_current. simpl.
  rewrite Hcur. simpl. eexists. by repeat split.
Qed.

Lemma tracked_tool_uses ev0 ev p m k names :
  tracked ev0 ev p m k ->
  tracked ev0 (fold_left Evaluation.record_tool_use names ev) p m k.
Proof.
  revert ev. induction names as [|name names IH]; intros ev Ht; simpl; [done|].
  apply IH. destruct Ht as (? & ? & ? & e & Hcur & <- & <- & <-).
  repeat split; try done.
  unfold Evaluation.record_tool_use, Evaluation.update_current. simpl.
  rewrite Hcur. simpl. eexists. by repeat split.
Qed.

(** Ending a tracked task: it joins the history with the outcome given, no
    task is in flight, and the summary, when its write succeeds, is the one
    recomputed from the whole history. *)
Lemma tracked_end ev0 ev p m k ok err now stamp line_ok summary_ok :
  tracked ev0 ev p m k ->
  let ev' := Evaluation.end_task ev ok err now stamp line_ok summary_ok in
  exists t,
    Evaluation.executions_history ev'
    = (Evaluation.executions_history ev0 ++ [t])%list
    /\ Evaluation.success t = ok
    /\ Evaluation.error_message t = err
    /\ Evaluation.iterations t = k
    /\ Evaluation.prompt t = p
    /\ Evaluation.model t = m
    /\ Evaluation.current_execution ev' = None
    /\ (summary_ok = true ->
        Evaluation.get_summary ev'
        = Some (Evaluation.summarize (Evaluation.executions_history ev0 ++ [t]) stamp)).
Proof.
  intros (Hh & Hf & Hs & e & Hcur & <- & <- & <-) ev'. subst ev'.
  unfold Evaluation.end_task, Evaluation.get_summary, Evaluation._update_summary.
  rewrite Hcur. simpl. rewrite Hh.
  eexists (Evaluation.mkTaskExecution _ _ _ _ ok _ _ _ _ _ err _).
  destruct (Evaluation.executions_history ev0 ++ _)%list eqn:Happ.
  { by apply app_eq_nil in Happ as [_ ?]. }
  rewrite <- Happ. simpl. repeat split; try done. by intros ->.
Qed.


(** A tool call in a quiet environment returns, and the executor leaves the
    agent as [preserved] says. *)
Lemma execute_tool_quiet self tc env :
  quiet_call tc ->
  (forall k, quiet_attempt (enable_retry self) (env k)) ->
  exists out self' slept,
    _execute_tool_with_retry self tc env = (Return out, self', slept)
    /\ preserved self self'.
Proof.
  intros Hcall Hquiet. unfold _execute_tool_with_retry.
  destruct (enable_retry self) eqn:Hretry; cbn [negb].
  - set (cfg := default _ _).
    destruct (retry_loop_inv cfg tc env (max_retries cfg) O self None [])
      as (Hp & _ & _ & Hret).
    destruct (Hret Hquiet Hcall) as [out Hout].
    destruct (retry_loop cfg tc env (max_retries cfg) O self None [])
      as [[r self'] slept]. simpl in *. subst r. by exists out, self', slept.
  - destruct (outcome (env O)) as [output executed | e] eqn:Hout.
    + eexists _, _, _. split; [reflexivity|]. destruct executed.
      * apply preserved_after_execution.
      * apply preserved_refl.
    + destruct (Hquiet O) as [Hq _]. by destruct (Hq e Hout).
Qed.

(** A save that returns, or that is not made: the agent is left as
    [preserved] says, with its conversation. *)
Lemma save_to_session_returns self message save :
  (saving self = true -> exists now, save = Sessions.Appends now) ->
  exists self', save_to_session self message save = Return self'
                /\ preserved self self'
                /\ messages self' = messages self
                /\ evaluator self' = evaluator self.
Proof.
  unfold save_to_session, saving. intros Hsave.
  destruct (session_manager self) as [manager|] eqn:Hm;
    [|exists self; split; [done|]; split; [apply preserved_refl | done]].
  destruct (session_id self) as [[|c id]|] eqn:Hid;
    try (exists self; split; [done|]; split; [apply preserved_refl | done]).
  destruct (Hsave eq_refl) as [now ->]. cbn [Sessions.save_message].
  eexists. split; [reflexivity|]. split; [|done].
  repeat split; try done.
  - unfold saving. cbn [session_manager session_id set_session_manager].
    by rewrite Hm, Hid.
  - by exists [].
Qed.

Lemma dispatch_quiet tool_calls env saves :
  Forall quiet_call tool_calls ->
  forall self pos,
    (forall pos' k, quiet_attempt (enable_retry self) (env pos' k)) ->
    (saving self = true -> forall pos', exists now, saves pos' = Sessions.Appends now) ->
    exists self', dispatch self tool_calls pos env saves = (Return tt, self')
                  /\ preserved self self'.
Proof.
  induction 1 as [|tc tool_calls Hcall _ IH]; intros self pos Hquiet Hsaves; simpl.
  - exists self. split; [done | apply preserved_refl].
  - destruct (execute_tool_quiet self tc (env pos) Hcall (Hquiet pos))
      as (out & self1 & slept & -> & Hp1).
    set (self2 := set_messages self1 _).
    assert (preserved self self2) as Hp2.
    { eapply preserved_trans; [exact Hp1|]. repeat split. by exists []. }
    destruct (save_to_session_returns self2 (ToolMessage (call_id tc) out) (saves pos))
      as (self3 & -> & Hp3 & _).
    { destruct Hp2 as (_ & _ & _ & -> & _). intros Hs. apply (Hsaves Hs). }
    assert (preserved self self3) as Hp by (by eapply preserved_trans).
    destruct (IH self3 (S pos)) as (self' & -> & Hp').
    { destruct Hp as (_ & -> & _). exact Hquiet. }
    { destruct Hp as (_ & _ & _ & -> & _). exact Hsaves. }
    exists self'. split; [done|]. by eapply preserved_trans.
Qed.



End MainLoop.



(** ** The detectors of critical operations *)
Section Detectors.
Import Safety.

(** A match of a pattern that begins with [\bdd] begins with "dd". *)
Lemma match_here_dd rest prev s :
  PyRe.match_here (PyRe.Boundary :: PyRe.Lit "d" :: PyRe.Lit "d" :: rest) prev s = true ->
  PyStr.startswith s "dd" = true.
Proof.
  cbn [PyRe.match_here]. intros Hm.
  apply andb_true_iff in Hm as [_ Hm].
  destruct s as [|a [|b s]]; try discriminate.
  - by apply andb_true_iff in Hm as [_ Hm].
  - apply andb_true_iff in Hm as [Ha Hm]. apply andb_true_iff in Hm as [Hb _].
    cbn [PyStr.startswith]. rewrite Ha, Hb. by destruct s.
Qed.

Lemma search_from_dd rest prev s :
  PyRe.search_from (PyRe.Boundary :: PyRe.Lit "d" :: PyRe.Lit "d" :: rest) prev s = true ->
  PyStr.contains s "dd" = true.
Proof.
  revert prev. induction s as [|c s IH]; intros prev Hs.
  - cbn [PyRe.search_from] in Hs. rewrite orb_false_r in Hs.
    by apply match_here_dd in Hs.
  - cbn [PyRe.search_from] in Hs. apply orb_true_iff in Hs as [Hm | Hs].
    + apply match_here_dd in Hm. cbn [PyStr.contains]. by rewrite Hm.
    + cbn [PyStr.contains]. rewrite (IH _ Hs). apply orb_true_r.
Qed.

Lemma dd_patterns_contain_dd s :
  existsb (fun pattern => PyRe.search pattern s) dd_patterns = true ->
  PyStr.contains s "dd" = true.
Proof.
  unfold dd_patterns. cbn [existsb]. rewrite orb_false_r.
  intros [Hs | Hs]%orb_true_iff; exact (search_from_dd _ _ _ Hs).
Qed.

(** X1. [is_critical_bash] flags a command exactly when one of the three rm
    patterns matches its lower-case form or that form contains one of
    "mkfs", "fdisk", "parted", "dd" and ":`" as a substring.  The two dd
    patterns never decide the flag, since what they match contains "dd";
    they only choose the reason.  A flagged command comes with a reason, an
    unflagged one with none. *)
Theorem critical_bash_flag (command : string) :
  let cmd_lower := PyStr.lower command in
  (is_critical_bash command).1
  = existsb (fun pattern => PyRe.search pattern cmd_lower) rm_patterns
    || existsb (fun cmd => PyStr.contains cmd_lower cmd) (Dict.keys dangerous_bash_cmds)
  /\ ((is_critical_bash command).1 = true <-> is_Some (is_critical_bash command).2).
Proof.
  intros cmd_lower. unfold is_critical_bash. fold cmd_lower.
  destruct (existsb _ rm_patterns) eqn:Hrm.
  { split; [done|]. split; [by eexists | done]. }
  destruct (existsb _ dd_patterns) eqn:Hdd.
  { apply dd_patterns_contain_dd in Hdd. split.
    - simpl. rewrite Hdd. by rewrite !orb_true_r.
    - split; [by eexists | done]. }
  unfold dangerous_bash_cmds. simpl.
  destruct (PyStr.contains cmd_lower "mkfs"); [split; [done | split; [by eexists | done]]|].
  destruct (PyStr.contains cmd_lower "fdisk"); [split; [done | split; [by eexists | done]]|].
  destruct (PyStr.contains cmd_lower "parted"); [split; [done | split; [by eexists | done]]|].
  destruct (PyStr.contains cmd_lower "dd"); [split; [done | split; [by eexists | done]]|].
  destruct (PyStr.contains cmd_lower ":`"); [split; [done | split; [by eexists | done]]|].
  split; [done|]. split; [done | by intros [? ?]].
Qed.


(** At most one of the four extensions ends a path. *)
Lemma extension_unique file_path ext ext' :
  ext ∈ critical_extensions -> ext' ∈ critical_extensions ->
  endswith file_path ext = true -> endswith file_path ext' = true -> ext = ext'.
Proof.
  unfold critical_extensions, endswith. rewrite !elem_of_cons, !elem_of_nil.
  destruct (PyStr.reverse file_path) as [|c r].
  { intros [->|[->|[->|[->|[]]]]]; discriminate. }
  intros [->|[->|[->|[->|[]]]]] [->|[->|[->|[->|[]]]]]; try done;
    cbn [PyStr.reverse PyStr.rev_append PyStr.startswith];
    intros H1%andb_true_iff H2%andb_true_iff;
    destruct H1 as [H1%Ascii.eqb_eq _], H2 as [H2%Ascii.eqb_eq _]; congruence.
Qed.

Lemma first_extension_Some file_path order ext :
  (forall e, e ∈ order -> e ∈ critical_extensions) ->
  first_extension file_path order = Some ext <->
  ext ∈ order /\ endswith file_path ext = true.
Proof.
  induction order as [|e order IH]; intros Hsub; simpl.
  - split; [discriminate | intros [[]%elem_of_nil _]].
  - destruct (endswith file_path e) eqn:He.
    + split.
      * intros [= <-]. split; [left | done].
      * intros [Hin Hext]. f_equal.
        apply (extension_unique file_path); try done; apply Hsub; [left | done].
    + rewrite IH by (intros e' He'; apply Hsub; by right). split.
      * intros [Hin Hext]. split; [by right | done].
      * intros [[-> | Hin]%elem_of_cons Hext]; [congruence | done].
Qed.

(** X3. The set of critical extensions may be visited in any order: the
    answer of [is_critical_file_write], reason included, is the same, since
    at most one of the four extensions ends a given path. *)
Theorem critical_file_write_any_order (order : list string) (file_path : string) :
  order ≡ₚ critical_extensions ->
  is_critical_file_write order file_path
  = is_critical_file_write critical_extensions file_path.
Proof.
  intros Hperm. unfold is_critical_file_write.
  destruct (first_contained _ _); [done|].
  assert (first_extension file_path order
          = first_extension file_path critical_extensions) as ->; [|done].
  assert (Hsub : forall e, e ∈ order -> e ∈ critical_extensions).
  { intros e He. by rewrite <- Hperm. }
  destruct (first_extension file_path order) as [ext|] eqn:Ho;
    destruct (first_extension file_path critical_extensions) as [ext'|] eqn:Hc;
    try done.
  - apply (first_extension_Some _ _ _ Hsub) in Ho as [Hin Hext].
    apply first_extension_Some in Hc as [Hin' Hext']; [|done].
    f_equal. apply (extension_unique file_path); try done. by apply Hsub.
  - apply (first_extension_Some _ _ _ Hsub) in Ho as [Hin Hext].
    assert (first_extension file_path critical_extensions = Some ext) as Heq.
    { apply first_extension_Some; [done|]. split; [by apply Hsub | done]. }
    congruence.
  - apply first_extension_Some in Hc as [Hin' Hext']; [|done].
    assert (first_extension file_path order = Some ext') as Heq.
    { apply first_extension_Some; [done|]. split; [by rewrite Hperm | done]. }
    congruence.
Qed.

End Detectors.


Lemma critical_file_write_any_order_witness :
  Safety.is_critical_file_write [".pfx"; ".p12"; ".pem"; ".key"] "certs/server.pem"
  = (true, Some "Write to .pem file (possible secret)").
Proof.
  rewrite (critical_file_write_any_order [".pfx"; ".p12"; ".pem"; ".key"]
             "certs/server.pem"); [reflexivity|].
  unfold Safety.critical_extensions.
  apply (Permutation_rev [".pfx"; ".p12"; ".pem"; ".key"]).
Defined.

Example critical_bash_examples :
  map Safety.is_critical_bash
    ["rm -rf /tmp/data"; "ls -la"; "farm -x"; "echo hi >> /dev/null"; "git add ."]
  = [(true, Some "Delete files with 'rm' command"); (false, None); (false, None);
     (true, Some "Delete files with 'rm' command"); (true, Some "Low-level disk write")].
Proof. reflexivity. Qed.

(** ** The approval cache: what a process keeps *)
Section ApprovalInvariants.
Import Safety.

Lemma serve_keeps self r :
  approved_operations self ⊆ approved_operations (serve self r).1.2
  /\ denied_operations self ⊆ denied_operations (serve self r).1.2
  /\ (approved_operations self ## denied_operations self ->
      approved_operations (serve self r).1.2 ## denied_operations (serve self r).1.2).
Proof.
  unfold serve, prompt_approval.
  destruct (decide (_ ∈ approved_operations self)) as [Ha | Ha]; [done|].
  destruct (decide (_ ∈ denied_operations self)) as [Hd | Hd]; [done|].
  destruct (req_stdin r) as [text | |]; [|done..].
  destruct (_ || _); [done|]. destruct (_ || _); simpl.
  - split; [apply union_subseteq_l|]. split; [done|]. intros Hdisj.
    apply disjoint_union_l. split; [done|]. by apply disjoint_singleton_l.
  - split; [done|]. split; [apply union_subseteq_l|]. intros Hdisj.
    apply disjoint_union_r. split; [done|]. by apply disjoint_singleton_r.
Qed.

(** X4. Along any sequence of approval requests the two sets only grow,
    and they stay disjoint: no key is ever both approved and denied. *)
Theorem decisions_kept_and_disjoint (self : CriticalOperation) (rs : list request) :
  approved_operations self ## denied_operations self ->
  let final := (run self rs).1 in
  approved_operations self ⊆ approved_operations final
  /\ denied_operations self ⊆ denied_operations final
  /\ approved_operations final ## denied_operations final.
Proof.
  revert self. induction rs as [|r rs IH]; intros self Hdisj; simpl; [done|].
  destruct (serve_keeps self r) as (Ha & Hd & Hkeep).
  destruct (serve self r) as [[b self'] ev]. simpl in Ha, Hd, Hkeep.
  specialize (IH self' (Hkeep Hdisj)).
  destruct (run self' rs) as [final out]. simpl in *.
  destruct IH as (Ha' & Hd' & Hdisj'). split; [by etrans|]. split; [by etrans | done].
Qed.

End ApprovalInvariants.

Lemma decisions_kept_and_disjoint_witness :
  let final := (Safety.run Safety.init
                  [Safety.mkRequest "Execute bash command" "Delete files" "rm -rf build"
                     (Safety.Line "always");
                   Safety.mkRequest "Write to critical file" "Write to .pem file" "a.pem"
                     (Safety.Line "n")]).1 in
  Safety.approved_operations final ## Safety.denied_operations final.
Proof.
  apply (decisions_kept_and_disjoint Safety.init). simpl. apply disjoint_empty_l.
Defined.

(** ** The built-in permission profiles *)
Section BuiltinProfiles.
Import Permissions.

Lemma check_permission_returns fnmatch target rules :
  (exists level, rules_default rules = Some (level_value level)) ->
  exists level, _check_permission fnmatch target rules = Return level.
Proof.
  intros [level Hdef]. unfold _check_permission.
  destruct (loop_returns _ _ _); [by eexists|].
  destruct (loop_returns _ _ _); [by eexists|].
  unfold get_default. rewrite Hdef. exists level. apply PermissionLevel_of_value.
Qed.

(** X5. Whatever profile name a checker is built with (a name that is none
    of the three built-in ones gets the standard rules), its three checks
    answer with a level for every target: the Enum lookup on the default
    never raises. *)
Theorem builtin_profiles_return_level (fnmatch : string -> string -> bool)
    (profile target : string) :
  let self := PermissionChecker profile in
  (exists level, check_file_read fnmatch self target = Return level)
  /\ (exists level, check_file_write fnmatch self target = Return level)
  /\ (exists level, check_bash_command fnmatch self target = Return level)
  /\ (profile <> "permissive" -> profile <> "strict" -> self = standard).
Proof.
  intros self.
  pose proof (builtin_default_configured profile) as Hall.
  apply Forall_cons in Hall as [Hr Hall]. apply Forall_cons in Hall as [Hw Hall].
  apply Forall_cons in Hall as [Hb _].
  split; [by apply check_permission_returns|].
  split; [by apply check_permission_returns|].
  split; [by apply check_permission_returns|].
  intros Hp Hs. subst self. unfold PermissionChecker, _load_profile.
  destruct (String.eqb_spec profile "permissive"); [done|].
  destruct (String.eqb_spec profile "standard"); [done|].
  by destruct (String.eqb_spec profile "strict").
Qed.

Lemma glob_star pat name :
  glob (String "*" pat) name
  = glob pat name
    || match name with
       | EmptyString => false
       | String _ name' => glob (String "*" pat) name'
       end.
Proof. by destruct name. Qed.

Lemma glob_star_end name : glob "*" name = true.
Proof.
  induction name as [|c name IH]; [done|]. rewrite glob_star, IH. apply orb_true_r.
Qed.

Lemma glob_star_star pat name :
  glob (String "*" (String "*" pat)) name = glob (String "*" pat) name.
Proof.
  induction name as [|c name IH].
  - rewrite glob_star. apply orb_false_r.
  - rewrite glob_star, IH. rewrite (glob_star pat (String c name)).
    destruct (glob pat (String c name)); [done|]. simpl. apply orb_diag.
Qed.

Lemma glob_plain lit pat name :
  plain lit = true ->
  glob (lit ++ pat) name
  = PyStr.startswith name lit && glob pat (PyStr.drop (String.length lit) name).
Proof.
  revert name. induction lit as [|c lit IH]; intros name Hp.
  - by destruct name.
  - cbn [plain] in Hp. apply andb_true_iff in Hp as [Hc Hp].
    apply andb_true_iff in Hc as [Hs Hq].
    apply negb_true_iff in Hs, Hq.
    change (String c lit ++ pat) with (String c (lit ++ pat)).
    cbn [glob]. rewrite Hs, Hq. destruct name as [|d name]; [done|].
    cbn [PyStr.startswith String.length PyStr.drop]. rewrite IH by done.
    apply andb_assoc.
Qed.

Lemma glob_prefix lit name :
  plain lit = true -> glob (lit ++ "*") name = PyStr.startswith name lit.
Proof. intros Hp. by rewrite glob_plain, glob_star_end, andb_true_r. Qed.

Lemma glob_substring lit name :
  plain lit = true -> glob (String "*" (lit ++ "*")) name = PyStr.contains name lit.
Proof.
  intros Hp. induction name as [|c name IH].
  - rewrite glob_star, glob_prefix by done. done.
  - rewrite glob_star, glob_prefix, IH by done. done.
Qed.

(** X6. The bash rules of the built-in profiles, with [fnmatch] as on a
    POSIX system.  The patterns are anchored at the start of the command.
    The strict profile never asks: it allows a command that begins with
    "ls ", "cat ", "grep " or "echo " and denies every other one.  The
    standard profile denies a command that begins with "rm -rf " or
    "sudo ", or with "curl " or "wget " and has " | " later on, and asks
    about every other one. *)
Theorem builtin_bash_rules (command : string) :
  check_bash_command posix_fnmatch strict command
  = Return (if PyStr.startswith command "ls " || PyStr.startswith command "cat "
               || PyStr.startswith command "grep " || PyStr.startswith command "echo "
            then ALLOW else DENY)
  /\ check_bash_command posix_fnmatch standard command
     = Return (if PyStr.startswith command "rm -rf "
                  || PyStr.startswith command "sudo "
                  || PyStr.startswith command "curl "
                     && PyStr.contains (PyStr.drop 5 command) " | "
                  || PyStr.startswith command "wget "
                     && PyStr.contains (PyStr.drop 5 command) " | "
               then DENY else ASK).
Proof.
  unfold check_bash_command, _check_permission, posix_fnmatch. cbn [bash strict standard
    rules_deny rules_allow rules_default get_patterns get_default loop_returns].
  rewrite (glob_prefix "ls "), (glob_prefix "cat "), (glob_prefix "grep "),
    (glob_prefix "echo "), (glob_prefix "rm -rf "), (glob_prefix "sudo ") by done.
  rewrite (glob_plain "curl " "* | *"), (glob_plain "wget " "* | *") by done.
  rewrite !(glob_substring " | ") by done.
  cbn [String.length].
  split.
  - destruct (PyStr.startswith command "ls "); [done|].
    destruct (PyStr.startswith command "cat "); [done|].
    destruct (PyStr.startswith command "grep "); [done|].
    by destruct (PyStr.startswith command "echo ").
  - destruct (PyStr.startswith command "rm -rf "); [done|].
    destruct (PyStr.startswith command "sudo "); [done|].
    destruct (PyStr.startswith command "curl " && _); [done|].
    by destruct (PyStr.startswith command "wget " && _).
Qed.

(** X7. The file rules of the standard profile, with [fnmatch] as on a
    POSIX system.  A read is denied exactly when the path contains
    "/secret", "/.env" or "/password", and allowed otherwise: the patterns
    ask for a slash before the name, so a bare "secret.txt" or ".env" is
    allowed.  A write is denied exactly when the path contains
    "/production/" or "/prod/". *)
Theorem standard_file_rules (file_path : string) :
  check_file_read posix_fnmatch standard file_path
  = Return (if PyStr.contains file_path "/secret" || PyStr.contains file_path "/.env"
               || PyStr.contains file_path "/password"
            then DENY else ALLOW)
  /\ (check_file_write posix_fnmatch standard file_path = Return DENY
      <-> PyStr.contains file_path "/production/" || PyStr.contains file_path "/prod/"
          = true)
  /\ check_file_read posix_fnmatch standard "secret.txt" = Return ALLOW
  /\ check_file_read posix_fnmatch standard ".env" = Return ALLOW.
Proof.
  split; [|split; [|done]].
  - unfold check_file_read, _check_permission, posix_fnmatch. cbn [files_read standard
      rules_deny rules_allow rules_default get_patterns get_default loop_returns].
    rewrite (glob_star_star ("/secret" ++ "*")), (glob_star_star ("/.env" ++ "*")),
      (glob_star_star ("/password" ++ "*")).
    rewrite !glob_substring by done.
    destruct (PyStr.contains file_path "/secret"); [done|].
    destruct (PyStr.contains file_path "/.env"); [done|].
    by destruct (PyStr.contains file_path "/password").
  - unfold check_file_write, _check_permission, posix_fnmatch. cbn [files_write standard
      rules_deny rules_allow rules_default get_patterns get_default loop_returns].
    rewrite (glob_star_star ("/production/" ++ "**")), (glob_star_star ("/prod/" ++ "**")).
    change (String "*" ("/production/" ++ "**"))
      with (String "*" ("/production/" ++ String "*" "*")).
    assert (Hsub : forall lit name, plain lit = true ->
              glob (String "*" (lit ++ "**")) name = PyStr.contains name lit).
    { intros lit name Hp. rewrite <- glob_substring by done.
      induction name as [|c name IH].
      - rewrite !glob_star, !glob_plain by done. by rewrite glob_star_star.
      - rewrite (glob_star _ (String c name)), IH.
        rewrite (glob_star (lit ++ "*") (String c name)), !glob_plain by done.
        by rewrite glob_star_star. }
    rewrite !Hsub by done.
    destruct (PyStr.contains file_path "/production/"); [done|].
    destruct (PyStr.contains file_path "/prod/"); [done|]. cbn [orb].
    destruct (glob "test/**" file_path); [split; discriminate|].
    destruct (glob "docs/**" file_path); [split; discriminate|].
    destruct (glob "*.md" file_path); split; discriminate.
Qed.

End BuiltinProfiles.

(** ** The tracker: histogram, session counters, restart, recommendation *)
Section ToolTrackerMore.
Context `{PyFloat}.
Import ToolTracker.

Implicit Types (t : ToolTracker) (log : list execution) (name : string).


(** One execution and the histogram of a tool. *)
Lemma record_execution_errors t name name' ok error now disk key :
  errors (entry (record_execution t name' ok error now disk) name) !! key
  = if decide (name' = name ∧ ok = false ∧ error_type error = Some key)
    then Some (default 0 (errors (entry t name) !! key) + 1)
    else errors (entry t name) !! key.
Proof.
  destruct (decide (name' = name)) as [-> | Hne].
  - unfold entry, record_execution. cbn [stats _save_stats]. rewrite get_set_eq.
    cbn [default from_option id errors]. destruct ok.
    + rewrite decide_False by (intros (_ & ? & _); done). done.
    + destruct error as [[|c e]|]; cbn [error_type].
      * rewrite decide_False by (intros (_ & _ & ?); done). done.
      * destruct (decide (PyStr.before_first ":" (String c e) = key)) as [<- | Hk].
        -- rewrite decide_True by done. by rewrite lookup_insert_eq.
        -- rewrite decide_False by (intros (_ & _ & [= ?]); done).
           by rewrite lookup_insert_ne.
      * rewrite decide_False by (intros (_ & _ & ?); done). done.
  - rewrite decide_False by (intros (? & _); done).
    unfold entry. by rewrite record_execution_other.
Qed.

Lemma count_errors_cons name key e log :
  count_errors name key (e :: log)
  = (if decide (ex_tool e = name ∧ ex_success e = false
                ∧ error_type (ex_error e) = Some key) then 1 else 0)
    + count_errors name key log.
Proof.
  unfold count_errors. rewrite filter_cons. destruct (decide _); simpl; lia.
Qed.

Lemma record_all_errors name key log t :
  let c := count_errors name key log in
  errors (entry (record_all t log) name) !! key
  = if c =? 0 then errors (entry t name) !! key
    else Some (default 0 (errors (entry t name) !! key) + c).
Proof.
  revert t. induction log as [|e log IH]; intros t; [done|].
  cbn zeta in *. rewrite count_errors_cons.
  change (record_all t (e :: log))
    with (record_all (record_execution t (ex_tool e) (ex_success e) (ex_error e)
                        (ex_now e) (ex_disk e)) log).
  rewrite IH, record_execution_errors.
  assert (0 <= count_errors name key log) by (unfold count_errors; lia).
  destruct (decide _) as [Hhit | Hmiss].
  - destruct (Z.eqb_spec (count_errors name key log) 0) as [Hc | Hc];
      destruct (Z.eqb_spec (1 + count_errors name key log) 0); try lia;
      cbn [default from_option id]; f_equal; lia.
  - rewrite Z.add_0_l. done.
Qed.

(** X8. From an empty statistics table, the histogram [errors] of a tool
    counts, under each key, the failed executions that came with an error
    text whose part before the first colon is that key; a key without such
    a failure is absent.  Failures without an error text are in no bucket,
    so a bucket never exceeds the failure count. *)
Theorem error_histogram_counts (log : list execution) (name key : string) :
  let t := record_all (init Missing) log in
  let c := count_errors name key log in
  errors (entry t name) !! key = (if c =? 0 then None else Some c)
  /\ c <= count_failure name log.
Proof.
  intros t c. split.
  - subst t c. rewrite record_all_errors. unfold entry. cbn [init stats _load_stats
      Dict.get default new_stat errors]. rewrite lookup_empty. cbn [default].
    by rewrite Z.add_0_l.
  - subst c. clear t. unfold count_errors, count_failure. apply inj_le.
    induction log as [|e log IH]; [done|]. rewrite !filter_cons.
    destruct (decide (_ ∧ _ ∧ _)) as [(? & ? & ?) | _].
    + destruct (decide (ex_tool e = name ∧ ex_success e = false)) as [_ | Hn];
        [simpl in *; lia | by destruct Hn].
    + destruct (decide _); simpl in *; lia.
Qed.






(** X11. A recommendation names a tool with at least three recorded
    executions and a success rate of at least 0.8, and no ranked tool has a
    higher rate.  A tool with fewer than three executions is never
    recommended, whatever its rate. *)
Theorem recommendation_is_best (t : ToolTracker) (r : Ranked) :
  get_recommendation t = Some r ->
  r ∈ get_reliability_ranking t
  /\ 3 <= ranked_total r
  /\ fge (ranked_success_rate r) (of_Q (8 # 10)) = true
  /\ forall r', r' ∈ get_reliability_ranking t ->
                flt (ranked_success_rate r) (ranked_success_rate r') = false.
Proof.
  unfold get_recommendation.
  pose proof (sorted_reverse_sorted flt ranked_success_rate flt_asym flt_negtrans
                (omap (fun kv : string * ToolStat =>
                         if 3 <=? total kv.2
                         then Some (mkRanked kv.1 (success_rate kv.2) (total kv.2)
                                      (successful kv.2))
                         else None) (stats t))) as Hsorted.
  change (sorted_reverse flt ranked_success_rate _)
    with (get_reliability_ranking t) in Hsorted.
  destruct (get_reliability_ranking t) as [|best rest] eqn:Hrank; [discriminate|].
  destruct (fge _ _) eqn:Hge; [|discriminate]. intros [= <-].
  assert (Hin : best ∈ get_reliability_ranking t) by (rewrite Hrank; left).
  split; [by rewrite <- Hrank|]. split.
  { apply ranking_elem_of in Hin as (k & st & _ & Hle & ->). done. }
  split; [done|]. intros r' [-> | Hin']%elem_of_cons.
  - destruct (flt (ranked_success_rate best) (ranked_success_rate best)) eqn:Hlt; [|done].
    by rewrite (flt_asym _ _ Hlt) in Hlt.
  - apply StronglySorted_inv in Hsorted as [_ Hall].
    by apply (proj1 (Forall_forall _ _) Hall).
Qed.

End ToolTrackerMore.


(** After the ranking log the recommendation is "Write", with rate 1. *)
Lemma recommendation_is_best_witness :
  ToolTracker.mkRanked (H := QFloat) "Write" (@of_Q QFloat 1) 3 3
  ∈ ToolTracker.get_reliability_ranking
      (ToolTracker.record_all (ToolTracker.init ToolTracker.Missing) ranking_log).
Proof.
  apply (recommendation_is_best (H := QFloat)
           (ToolTracker.record_all (ToolTracker.init ToolTracker.Missing) ranking_log)
           (ToolTracker.mkRanked "Write" (@of_Q QFloat 1) 3 3) eq_refl).
Defined.

(** ** Episodic memory: similarity, limits, failures of the tool extraction *)
Section SemanticMemoryMore.
Context `{PyFloat}.
Import SemanticMemory.

Lemma words_comm (a b : gset string) : a ∩ b = b ∩ a /\ a ∪ b = b ∪ a.
Proof. split; [apply (comm_L (∩)) | apply (comm_L (∪))]. Qed.

Lemma words_idemp (a : gset string) : a ∩ a = a /\ a ∪ a = a.
Proof. split; [apply (idemp_L (∩)) | apply (idemp_L (∪))]. Qed.

Lemma words_size (a : gset string) : a <> ∅ -> 0 < Z.of_nat (size a).
Proof.
  intros Hne. assert (size a <> 0%nat); [|lia].
  intros Hs. apply Hne. apply leibniz_equiv. by apply size_empty_inv.
Qed.

Lemma truediv_same (n : Z) : 0 < n -> truediv n n = of_Q 1.
Proof.
  intros Hn. unfold truediv. apply of_Q_proper. unfold Qeq. simpl.
  rewrite Z2Pos.id by done. lia.
Qed.

Lemma jaccard_same (str1 str2 : string) :
  words str1 = words str2 -> words str1 <> ∅ ->
  jaccard_similarity str1 str2 = of_Q 1.
Proof.
  intros Heq Hne. unfold jaccard_similarity. rewrite <- Heq.
  rewrite !decide_False by done.
  destruct (words_idemp (words str1)) as [-> ->].
  pose proof (words_size _ Hne) as Hpos.
  destruct (Z.ltb_spec 0 (Z.of_nat (size (words str1)))); [|lia].
  by apply truediv_same.
Qed.

(** X12. The similarity is symmetric; it is 0 as soon as one of the two
    texts has no word (it is empty or all white space); and it is 1 for two
    texts with the same words, in whatever case, order, number and spacing,
    provided there is a word at all. *)
Theorem jaccard_symmetric (str1 str2 : string) :
  jaccard_similarity str1 str2 = jaccard_similarity str2 str1
  /\ (words str1 = ∅ ->
      jaccard_similarity str1 str2 = of_Q 0 /\ jaccard_similarity str2 str1 = of_Q 0)
  /\ (words str1 = words str2 -> words str1 <> ∅ ->
      jaccard_similarity str1 str2 = of_Q 1 /\ token_overlap str1 str2 = of_Q 1).
Proof.
  split; [|split].
  - unfold jaccard_similarity.
    destruct (decide (words str1 = ∅)), (decide (words str2 = ∅)); try done.
    destruct (words_comm (words str1) (words str2)) as [-> ->]. done.
  - unfold jaccard_similarity. intros Hempty. split; [by rewrite decide_True|].
    destruct (decide (words str2 = ∅)); [done|]. by rewrite decide_True.
  - intros Heq Hne. split; by apply jaccard_same.
Qed.

Lemma omap_length_le {A B : Type} (f : A -> option B) (l : list A) :
  (length (omap f l) <= length l)%nat.
Proof.
  induction l as [|x l IH]; [done|]. cbn [omap list_omap length].
  fold (omap f l). destruct (f x); cbn [length]; lia.
Qed.

(** X13. With a limit that is not negative, [find_similar_solutions]
    returns at most [limit] solutions; and when the limit is at least the
    number of stored solutions it leaves none out: every stored solution
    whose similarity reaches the threshold is returned. *)
Theorem find_similar_limit (self : SemanticMemory) (query : string)
    (threshold : float) (limit : Z) :
  0 <= limit ->
  let found := find_similar_solutions self query threshold limit in
  Z.of_nat (length found) <= limit
  /\ (Z.of_nat (length (solutions self)) <= limit ->
      forall s, s ∈ solutions self ->
                fge (token_overlap query (task s)) threshold = true ->
                s ∈ found).
Proof.
  intros Hlimit found. subst found. unfold find_similar_solutions.
  destruct (solutions self) as [|s0 stored] eqn:Hsol.
  { split; [simpl; lia|]. by intros _ s ?%elem_of_nil. }
  rewrite <- Hsol. clear s0 stored Hsol.
  unfold slice_to. destruct (Z.leb_spec 0 limit); [|lia]. split.
  - rewrite length_map, length_take. lia.
  - intros Hall s Hin Hge.
    set (sims := scored query threshold (solutions self)).
    assert (length sims <= length (solutions self))%nat as Hlen.
    { subst sims. unfold scored. apply omap_length_le. }
    rewrite take_ge.
    2:{ rewrite (Permutation_length (sorted_reverse_perm flt snd sims)). lia. }
    apply (list_elem_of_fmap_2 fst _ (s, token_overlap query (task s))).
    rewrite sorted_reverse_perm. by apply scored_elem_of.
Qed.

(** A text without the separator is not split. *)
Lemma split_sep_aux_absent sep s :
  PyStr.contains s sep = false ->
  forall fuel cur, exists piece, PyStr.split_sep_aux fuel sep s cur = [piece].
Proof.
  induction s as [|c s IH]; intros Hc fuel cur.
  - destruct fuel; by eexists.
  - cbn [PyStr.contains] in Hc. apply orb_false_iff in Hc as [Hstart Hrest].
    destruct fuel as [|fuel]; [by eexists|].
    cbn [PyStr.split_sep_aux]. rewrite Hstart. by apply IH.
Qed.

Lemma extract_tool_raises step e : extract_tool step = Raise e -> e = IndexError.
Proof.
  unfold extract_tool. destruct (PyStr.contains _ _); [|discriminate].
  destruct (PyStr.split_sep _ _) as [|? [|part ?]]; try by intros [= <-].
  destruct (PyStr.split_ws _); [by intros [= <-] | discriminate].
Qed.

Lemma extract_tools_raises path :
  forall tools step e,
    step ∈ path -> extract_tool step = Raise e ->
    _extract_tools_from path tools = Raise IndexError.
Proof.
  induction path as [|s path IH]; intros tools step e Hin Hraise.
  - by apply elem_of_nil in Hin.
  - cbn [_extract_tools_from].
    destruct (extract_tool s) as [[tool|]|e'] eqn:Hs.
    + apply elem_of_cons in Hin as [-> | Hin]; [congruence | by eapply IH].
    + apply elem_of_cons in Hin as [-> | Hin]; [congruence | by eapply IH].
    + by rewrite (extract_tool_raises s e' Hs).
Qed.

(** X14. The extraction of tool names looks for "tool:" in the lower-case
    step but splits the step as written.  A successful path with a step
    that has the marker in another case only ("Tool: Bash") makes
    [store_solution] raise IndexError, before anything is stored. *)
Theorem store_solution_index_error (self : SemanticMemory)
    (task_description : string) (path : list string) (now : string)
    (disk_ok : bool) (step : string) :
  step ∈ path ->
  PyStr.contains (PyStr.lower step) "tool:" = true ->
  PyStr.contains step "tool:" = false ->
  store_solution self task_description path true now disk_ok = Raise IndexError.
Proof.
  intros Hin Hlower Hstep. unfold store_solution, _extract_tools. cbn [negb].
  assert (extract_tool step = Raise IndexError) as Hraise.
  { unfold extract_tool. rewrite Hlower.
    destruct (split_sep_aux_absent "tool:" step Hstep (S (String.length step)) "")
      as [piece Hpiece].
    unfold PyStr.split_sep. by rewrite Hpiece. }
  by rewrite (extract_tools_raises path ∅ step IndexError Hin Hraise).
Qed.

(** X15. A stored task is recalled: after [store_solution] returns for a
    task that has a word, a search for the same description with a
    threshold of at most 1 and a limit of at least 1 finds something, and
    what it lists first is no less similar to the description than the
    task just stored, whose similarity is 1. *)
Theorem stored_task_is_recalled (self after : SemanticMemory)
    (task_description : string) (path : list string) (now : string)
    (disk_ok : bool) (threshold : float) (limit : Z) :
  store_solution self task_description path true now disk_ok = Return after ->
  words task_description <> ∅ ->
  fge (of_Q 1) threshold = true ->
  1 <= limit ->
  exists first rest,
    find_similar_solutions after task_description threshold limit = first :: rest
    /\ first ∈ solutions after
    /\ flt (token_overlap task_description (task first)) (of_Q 1) = false.
Proof.
  intros Hstore Hwords Hge Hlimit. unfold store_solution in Hstore. cbn [negb] in Hstore.
  destruct (_extract_tools path) as [tools|e]; [|discriminate].
  injection Hstore as <-.
  set (sol := {| task := task_description; steps := path; timestamp := now;
                 tools_used := tools |}).
  unfold find_similar_solutions, _persist_solution. cbn [solutions].
  destruct (solutions self ++ [sol])%list as [|s0 stored] eqn:Hsol.
  { by apply app_eq_nil in Hsol as [_ ?]. }
  rewrite <- Hsol. clear s0 stored Hsol.
  set (sims := scored task_description threshold (solutions self ++ [sol])).
  assert (Hsim : token_overlap task_description (task sol) = of_Q 1).
  { by apply jaccard_same. }
  assert (Hsol : (sol, of_Q 1) ∈ sorted_reverse flt snd sims).
  { rewrite sorted_reverse_perm. apply scored_elem_of. cbn [fst snd].
    split; [|by rewrite Hsim]. apply elem_of_app. right. left. }
  pose proof (sorted_reverse_sorted flt snd flt_asym flt_negtrans sims) as Hsorted.
  assert (Hmem : forall p, p ∈ sorted_reverse flt snd sims ->
            p.1 ∈ (solutions self ++ [sol])%list
            /\ p.2 = token_overlap task_description (task p.1)).
  { intros p Hp. rewrite sorted_reverse_perm in Hp.
    apply scored_elem_of in Hp as (? & ? & _). done. }
  destruct (sorted_reverse flt snd sims) as [|p ps] eqn:Hsorted_eq.
  { by apply elem_of_nil in Hsol. }
  unfold slice_to. destruct (Z.leb_spec 0 limit); [|lia].
  destruct (Z.to_nat limit) as [|k] eqn:Hk; [lia|]. cbn [take map].
  exists p.1, (map fst (take k ps)). split; [done|].
  destruct (Hmem p) as [Hp1 Hp2]; [left|]. split; [done|].
  rewrite <- Hp2. apply elem_of_cons in Hsol as [Heq | Hin].
  - rewrite <- Heq. cbn [snd].
    destruct (flt (of_Q 1) (of_Q 1)) eqn:Hlt; [|done].
    by rewrite (flt_asym _ _ Hlt) in Hlt.
  - apply StronglySorted_inv in Hsorted as [_ Hall].
    exact (proj1 (Forall_forall _ _) Hall _ Hin).
Qed.

End SemanticMemoryMore.

(** The search of the memory's test, with the default limit 3. *)
Lemma find_similar_limit_witness :
  Z.of_nat (length (SemanticMemory.find_similar_solutions (H := QFloat) sorting_memory
                      "python function for sorting" (@of_Q QFloat (2 # 10)) 3)) <= 3.
Proof.
  apply (find_similar_limit (H := QFloat) sorting_memory "python function for sorting"
           (@of_Q QFloat (2 # 10)) 3). lia.
Defined.

(** A step written "Tool: Bash ran tests". *)
Lemma store_solution_index_error_witness :
  SemanticMemory.store_solution (SemanticMemory.init [])
    "run the tests" ["Tool: Bash ran tests"] true "2024-01-01T00:00:00" true
  = Raise IndexError.
Proof.
  apply (store_solution_index_error (SemanticMemory.init [])
           "run the tests" ["Tool: Bash ran tests"] "2024-01-01T00:00:00" true
           "Tool: Bash ran tests"); [left | reflexivity | reflexivity].
Defined.

(** The stored task of the memory's test, searched for with the default
    threshold and limit. *)
Lemma stored_task_is_recalled_witness :
  exists first rest,
    SemanticMemory.find_similar_solutions (H := QFloat) sorting_memory
      "write python sorting function" (@of_Q QFloat (3 # 10)) 3 = first :: rest
    /\ first ∈ SemanticMemory.solutions sorting_memory
    /\ @flt QFloat
         (SemanticMemory.token_overlap (H := QFloat) "write python sorting function"
            (SemanticMemory.task first)) (@of_Q QFloat 1) = false.
Proof.
  apply (stored_task_is_recalled (H := QFloat) (SemanticMemory.init []) sorting_memory
           "write python sorting function"
           ["tool: Write implemented function"; "tool: Bash ran tests"]
           "2024-01-01T00:00:00" true (@of_Q QFloat (3 # 10)) 3);
    [reflexivity | | reflexivity | lia].
  by vm_compute.
Defined.

(** ** The evaluator: counting loops of the summary, recent executions *)
Section EvaluationMore.
Context `{PyFloat}.
Import Evaluation.

(** The counting loop over tool names, from any dict. *)
Lemma count_tools_from (tool : string) (all_tools : list string) (acc : Dict.dict Z) :
  let c := Z.of_nat (length (filter (fun x => x = tool) all_tools)) in
  Dict.get tool
    (fold_left (fun tool_counts x =>
                  Dict.set x (default 0 (Dict.get x tool_counts) + 1) tool_counts)
               all_tools acc)
  = if c =? 0 then Dict.get tool acc
    else Some (default 0 (Dict.get tool acc) + c).
Proof.
  revert acc. induction all_tools as [|x l IH]; intros acc; [done|].
  cbn zeta in *. cbn [fold_left]. rewrite IH, filter_cons.
  destruct (decide (x = tool)) as [-> | Hne].
  - rewrite get_set_eq. cbn [length default from_option id].
    destruct (Z.eqb_spec (Z.of_nat (length (filter (fun x => x = tool) l))) 0) as [Hz | Hz];
      destruct (Z.eqb_spec (Z.of_nat (S (length (filter (fun x => x = tool) l)))) 0);
      try lia; f_equal; lia.
  - by rewrite get_set_ne.
Qed.

(** X16. [tool_usage] counts the uses of each tool over the whole
    history: a tool is a key exactly when some task used it, and its value
    is the number of its occurrences in the [tools_used] lists. *)
Theorem tool_usage_counts (history : list TaskExecution) (stamp tool : string) :
  let uses := Z.of_nat (length (filter (fun x => x = tool)
                                       (concat (map tools_used history)))) in
  Dict.get tool (tool_usage (summarize history stamp))
  = if uses =? 0 then None else Some uses.
Proof.
  cbn [summarize tool_usage]. unfold count_tools. rewrite count_tools_from.
  cbn [Dict.get default from_option id]. by rewrite Z.add_0_l.
Qed.

Lemma count_model_cons (name : string) (e : TaskExecution) (history : list TaskExecution) :
  count_model name (e :: history)
  = ((if decide (model e = Some name) then 1 else 0) + (count_model name history).1,
     (if decide (model e = Some name ∧ success e = true) then 1 else 0)
     + (count_model name history).2).
Proof.
  unfold count_model. cbn [fst snd]. rewrite !filter_cons.
  destruct (decide (model e = Some name)), (decide (_ ∧ _)); cbn [length]; f_equal; lia.
Qed.

Lemma count_model_bounds (name : string) (history : list TaskExecution) :
  0 <= (count_model name history).2 <= (count_model name history).1.
Proof.
  induction history as [|e history IH]; [done|]. rewrite count_model_cons. cbn [fst snd].
  destruct (decide (model e = Some name)) as [Hm | Hm];
    destruct (decide (_ ∧ _)) as [[? ?] | Hn]; try done; lia.
Qed.

(** The counting loop over models, from any dict. *)
Lemma count_models_from (name : string) (history : list TaskExecution)
    (acc : Dict.dict (Z * Z)) :
  name <> "" ->
  Dict.get name
    (fold_left (fun model_stats e =>
                  match model e with
                  | Some (String c m) =>
                      let name := String c m in
                      let '(t, s) := default (0, 0) (Dict.get name model_stats) in
                      Dict.set name (t + 1, if success e then s + 1 else s) model_stats
                  | _ => model_stats
                  end) history acc)
  = if (count_model name history).1 =? 0 then Dict.get name acc
    else Some ((default (0, 0) (Dict.get name acc)).1 + (count_model name history).1,
               (default (0, 0) (Dict.get name acc)).2 + (count_model name history).2).
Proof.
  intros Hname. revert acc. induction history as [|e history IH]; intros acc; [done|].
  cbn [fold_left]. rewrite IH, count_model_cons. cbn [fst snd].
  pose proof (count_model_bounds name history) as Hb.
  destruct (count_model name history) as [a b]. cbn [fst snd] in *.
  destruct (model e) as [[|c m]|] eqn:Hmodel.
  - rewrite !decide_False by (try intros [? _]; congruence). by rewrite !Z.add_0_l.
  - destruct (decide (String c m = name)) as [<- | Hne].
    + rewrite (decide_True (P := Some (String c m) = Some (String c m))) by done.
      destruct (default (0, 0) (Dict.get (String c m) acc)) as [t s] eqn:Hacc.
      rewrite get_set_eq. cbn [default from_option id fst snd].
      destruct (success e) eqn:Hs.
      * rewrite decide_True by done.
        destruct (Z.eqb_spec a 0), (Z.eqb_spec (1 + a) 0); try lia;
          f_equal; f_equal; lia.
      * rewrite decide_False by (intros [_ ?]; done).
        destruct (Z.eqb_spec a 0), (Z.eqb_spec (1 + a) 0); try lia;
          f_equal; f_equal; lia.
    + rewrite !decide_False by (try intros [? _]; congruence).
      destruct (default (0, 0) (Dict.get (String c m) acc)) as [t s].
      rewrite get_set_ne by done. by rewrite !Z.add_0_l.
  - rewrite !decide_False by (try intros [? _]; congruence). by rewrite !Z.add_0_l.
Qed.

(** X17. [model_performance] counts, per model name, the tasks that ran on
    it and those of them that succeeded.  A task without a model, or with
    the empty string as its model, is counted under no name. *)
Theorem model_performance_counts (history : list TaskExecution) (stamp name : string) :
  Dict.get name (model_performance (summarize history stamp))
  = if ((count_model name history).1 =? 0) || String.eqb name ""
    then None else Some (count_model name history).
Proof.
  cbn [summarize model_performance]. unfold count_models.
  destruct (String.eqb_spec name "") as [-> | Hname].
  - rewrite orb_true_r.
    assert (forall acc, Dict.get "" acc = None ->
              Dict.get ""
                (fold_left (fun model_stats e =>
                  match model e with
                  | Some (String c m) =>
                      let name := String c m in
                      let '(t, s) := default (0, 0) (Dict.get name model_stats) in
                      Dict.set name (t + 1, if success e then s + 1 else s) model_stats
                  | _ => model_stats
                  end) history acc) = None) as Hnone; [|by apply Hnone].
    induction history as [|e history IH]; intros acc Hacc; [done|].
    cbn [fold_left]. apply IH. destruct (model e) as [[|c m]|]; try done.
    destruct (default (0, 0) _) as [t s]. by rewrite get_set_ne.
  - rewrite orb_false_r, count_models_from by done.
    cbn [Dict.get default from_option id fst snd]. rewrite !Z.add_0_l.
    by destruct (count_model name history).
Qed.

(** X18. [get_recent_executions(n)] lists the [n] newest executions,
    newest first, for [n >= 1] (all of them when there are fewer).  For
    [n = 0] the slice [history[-0:]] is the whole list: the call returns
    every execution, not none; and a negative [n] leaves out the [-n]
    oldest. *)
Theorem recent_executions (self : AgentEvaluator) (n : Z) :
  let history := executions_history self in
  (1 <= n -> get_recent_executions self n = take (Z.to_nat n) (rev history))
  /\ get_recent_executions self 0 = rev history
  /\ (n < 0 -> get_recent_executions self n = rev (drop (Z.to_nat (- n)) history)).
Proof.
  intros history.
  assert (Hcase : forall k, get_recent_executions self k = rev (slice_from (- k) history)).
  { intros k. unfold get_recent_executions. subst history.
    destruct (executions_history self); [|done]. unfold slice_from.
    by destruct (0 <=? - k); rewrite drop_nil. }
  rewrite !Hcase. unfold slice_from. split; [|split].
  - intros Hn. destruct (Z.leb_spec 0 (- n)); [lia|].
    rewrite Z.opp_involutive. symmetry. apply firstn_rev.
  - done.
  - intros Hn. by destruct (Z.leb_spec 0 (- n)); [|lia].
Qed.

End EvaluationMore.

(** ** The retry executor: what it returns *)
Section RetryResults.
Context `{PyFloat}.
Import Agent.

Implicit Types (self : Agent) (tc : ToolCall) (env : nat -> attempt_env).

Lemma length_waits cfg attempt k :
  (attempt + k <= max_retries cfg)%nat ->
  length (map (fun i => Qpower (backoff_factor cfg) (Z.of_nat i))
              (filter (fun i => (i < max_retries cfg - 1)%nat) (seq attempt k)))
  = Nat.min k (max_retries cfg - 1 - attempt).
Proof.
  rewrite length_map. revert attempt. induction k as [|k IH]; intros attempt Hk; [done|].
  cbn [seq]. rewrite filter_cons. destruct (decide _); cbn [length]; rewrite IH by lia; lia.
Qed.

(** X19. With retries on, the executor returns the output of the first
    attempt that returns one not calling for reflection: the attempts before
    it failed (they raised, or returned an output that calls for
    reflection), each of them was followed by a wait, and
    [last_tool_output] is set to what is returned. *)
Theorem first_good_output_is_returned self tc env (i : nat) (output : string)
    (executed : bool) :
  enable_retry self = true ->
  let cfg := default (mkRetryConfig 1 1) (Dict.get (function_name tc) RETRY_CONFIG) in
  (i < max_retries cfg)%nat ->
  (forall j, (j < i)%nat -> failed_attempt self tc (env j)) ->
  outcome (env i) = Returned output executed ->
  _should_reflect_on_output self output = false ->
  let res := _execute_tool_with_retry self tc env in
  res.1.1 = Return output
  /\ last_tool_output res.1.2 = output
  /\ length res.2 = i.
Proof.
  intros Hretry cfg Hi Hfail Hout Hgood res. subst res.
  unfold _execute_tool_with_retry. rewrite Hretry. cbn [negb]. fold cfg.
  remember (retry_loop cfg tc env (max_retries cfg) O self None []) as r eqn:Hr.
  replace (max_retries cfg) with (i + S (max_retries cfg - S i))%nat in Hr at 1 by lia.
  destruct (retry_loop_failed cfg tc env i (S (max_retries cfg - S i)) O self None [])
    as (self' & Hloop & Hp & _).
  { intros j Hj. apply Hfail. lia. }
  rewrite Hloop in Hr. simpl retry_loop in Hr. rewrite Hout in Hr.
  set (self1 := if executed then after_execution self' tc else self') in Hr.
  assert (preserved self self1) as Hp1.
  { eapply preserved_trans; [exact Hp|]. subst self1. destruct executed;
      [apply preserved_after_execution | apply preserved_refl]. }
  rewrite (should_reflect_preserved _ _ _ Hp1), Hgood in Hr. cbn [negb] in Hr.
  subst r. cbn [fst snd]. split; [done|]. split; [done|].
  rewrite length_waits by lia. lia.
Qed.

(** X20. With reflection switched off no output calls for reflection, so
    the executor never retries on what a tool returns: an error text comes
    back from the first attempt as it is, without a wait and without a
    message added; only an attempt that raises is retried. *)
Theorem no_reflection_no_retry_on_output self tc env (output : string)
    (executed : bool) :
  enable_retry self = true ->
  enable_reflection self = false ->
  outcome (env O) = Returned output executed ->
  let res := _execute_tool_with_retry self tc env in
  res.1.1 = Return output
  /\ res.2 = []
  /\ messages res.1.2 = messages self.
Proof.
  intros Hretry Hreflection Hout res. subst res.
  unfold _execute_tool_with_retry. rewrite Hretry. cbn [negb].
  pose proof (max_retries_positive tc) as Hpos.
  destruct (max_retries _) as [|remaining]; [lia|].
  simpl retry_loop. rewrite Hout.
  set (self1 := if executed then after_execution self tc else self).
  assert (enable_reflection self1 = false /\ messages self1 = messages self)
    as [Hr1 Hm1].
  { subst self1. destruct executed; [|done]. unfold after_execution.
    by destruct (enable_evaluation self). }
  assert (_should_reflect_on_output self1 output = false) as ->.
  { unfold _should_reflect_on_output. by rewrite Hr1. }
  done.
Qed.

(** X21. With retries on, when every attempt fails the executor returns
    the failure of the last one: its output, or the text of the exception
    it raised, or "Tool execution failed after retries" when that text is
    empty; it has waited after every attempt but the last. *)
Theorem exhausted_returns_last_failure self tc env :
  enable_retry self = true ->
  let cfg := default (mkRetryConfig 1 1) (Dict.get (function_name tc) RETRY_CONFIG) in
  (forall j, (j < max_retries cfg)%nat -> failed_attempt self tc (env j)) ->
  let res := _execute_tool_with_retry self tc env in
  let text := failure_text tc (env (max_retries cfg - 1)%nat) in
  let out := if String.eqb text "" then "Tool execution failed after retries"
             else text in
  res.1.1 = Return out
  /\ last_tool_output res.1.2 = out
  /\ length res.2 = (max_retries cfg - 1)%nat.
Proof.
  intros Hretry cfg Hfail res text out. subst res.
  unfold _execute_tool_with_retry. rewrite Hretry. cbn [negb]. fold cfg.
  pose proof (max_retries_positive tc) as Hpos. fold cfg in Hpos.
  remember (retry_loop cfg tc env (max_retries cfg) O self None []) as r eqn:Hr.
  replace (max_retries cfg) with (max_retries cfg + 0)%nat in Hr at 1 by lia.
  destruct (retry_loop_failed cfg tc env (max_retries cfg) O O self None [])
    as (self' & Hloop & Hp & _).
  { intros j Hj. apply Hfail. lia. }
  rewrite Hloop in Hr.
  assert (Hlen : length (map (fun i => Qpower (backoff_factor cfg) (Z.of_nat i))
                          (filter (fun i => (i < max_retries cfg - 1)%nat)
                                  (seq 0 (max_retries cfg))))
                 = (max_retries cfg - 1)%nat).
  { rewrite length_waits by lia. lia. }
  subst text out. destruct (max_retries cfg) as [|n] eqn:Hmax; [lia|].
  assert (Hn : (S n - 1 = n)%nat) by lia.
  cbn [Nat.add] in Hr. rewrite Hn in Hr, Hlen |- *. cbn [retry_loop] in Hr.
  subst r. cbn [fst snd]. rewrite app_nil_l, Hlen.
  by destruct (failure_text tc (env n)).
Qed.

End RetryResults.

(** The shell command fails once, then works: one wait, and "done". *)
Lemma first_good_output_is_returned_witness :
  let res := Agent._execute_tool_with_retry fresh_agent failing_call recovering_env in
  res.1.1 = Return "done" /\ Agent.last_tool_output res.1.2 = "done" /\ length res.2 = 1%nat.
Proof.
  apply (first_good_output_is_returned (H := QFloat) fresh_agent failing_call
           recovering_env 1 "done" true eq_refl).
  - simpl. lia.
  - intros j Hj. assert (j = O) as -> by lia. by split.
  - reflexivity.
  - reflexivity.
Defined.

(** The failing shell command with reflection off: its error text comes
    back from the first of the three attempts. *)
Lemma no_reflection_no_retry_on_output_witness :
  let res := Agent._execute_tool_with_retry unreflective_agent failing_call failing_env in
  res.1.1 = Return "Error: command failed"
  /\ res.2 = []
  /\ Agent.messages res.1.2 = Agent.messages unreflective_agent.
Proof.
  apply (no_reflection_no_retry_on_output (H := QFloat) unreflective_agent failing_call
           failing_env "Error: command failed" true eq_refl eq_refl eq_refl).
Defined.

(** The shell command fails three times: two waits, and the last output. *)
Lemma exhausted_returns_last_failure_witness :
  let res := Agent._execute_tool_with_retry fresh_agent failing_call failing_env in
  res.1.1 = Return "Error: command failed"
  /\ Agent.last_tool_output res.1.2 = "Error: command failed"
  /\ length res.2 = 2%nat.
Proof.
  apply (exhausted_returns_last_failure (H := QFloat) fresh_agent failing_call
           failing_env eq_refl).
  intros j Hj. split; [reflexivity|]. unfold failing_env. simpl.
  intros e. by destruct (j =? 2)%nat.
Defined.

(** ** The main loop: how a run ends *)
Section RunEndings.
Context `{PyFloat}.
Import Agent.

Section Invariant.

(** A property of the agent that the executor and the loop keep: every
    assignment they make keeps it, the step and the tool use recorded for a
    call with [Q] included. *)
Variable P : Agent -> Prop.
Variable Q : ToolCall -> Prop.
Hypothesis P_after : forall a tc, Q tc -> P a -> P (after_execution a tc).
Hypothesis P_messages : forall a m, P a -> P (set_messages a m).
Hypothesis P_output : forall a out, P a -> P (set_last_tool_output a out).
Hypothesis P_history : forall a h, P a -> P (set_execution_history a h).
Hypothesis P_evaluator :
  forall a, P a -> P (set_evaluator a (Evaluation.record_iteration (evaluator a))).
Hypothesis P_session : forall a manager, P a -> P (set_session_manager a manager).

Lemma reflect_keeps self name output reply text self' :
  _reflect_on_execution self name output reply = Return (text, self') ->
  P self -> P self'.
Proof.
  unfold _reflect_on_execution. destruct (negb _ || negb _); [by intros [= <- <-]|].
  destruct reply as [[[|c r]|]|e]; try by intros [= <- <-].
  - intros [= <- <-] Hp. by apply P_history.
  - destruct (is_Exception e); [by intros [= <- <-] | discriminate].
Qed.

Lemma retry_loop_keeps cfg tc env :
  Q tc ->
  forall remaining attempt self last_error slept,
    P self -> P (retry_loop cfg tc env remaining attempt self last_error slept).1.2.
Proof.
  intros Hq. induction remaining as [|remaining IH];
    intros attempt self last_error slept Hp.
  - simpl. by apply P_output.
  - simpl retry_loop. destruct (outcome (env attempt)) as [output executed | e].
    + set (self1 := if executed then after_execution self tc else self).
      assert (P self1) as Hp1.
      { subst self1. destruct executed; [by apply P_after | done]. }
      destruct (negb (_should_reflect_on_output self1 output)).
      { simpl. by apply P_output. }
      destruct (arguments tc) as [keys | e].
      * destruct (_reflect_on_execution self1 (function_name tc) output
                    (reflection_reply (env attempt)))
          as [[reflection self2] | e] eqn:Hr; [|done].
        apply IH. apply (reflect_keeps _ _ _ _ _ _ Hr) in Hp1.
        destruct reflection; [done | by apply P_messages].
      * destruct (is_Exception e); [by apply IH | done].
    + destruct (is_Exception e); [by apply IH | done].
Qed.

Lemma execute_tool_keeps self tc env :
  Q tc -> P self -> P (_execute_tool_with_retry self tc env).1.2.
Proof.
  intros Hq Hp. unfold _execute_tool_with_retry.
  destruct (negb (enable_retry self)); [|by apply retry_loop_keeps].
  destruct (outcome (env O)) as [output [|] | e]; simpl; [by apply P_after | done..].
Qed.

Lemma save_keeps self message save self' :
  save_to_session self message save = Return self' -> P self -> P self'.
Proof.
  unfold save_to_session.
  destruct (session_manager self) as [manager|]; [|by intros [= <-]].
  destruct (session_id self) as [[|c id]|]; try by intros [= <-].
  destruct (Sessions.save_message _ _ _ _); [|done].
  intros [= <-] Hp. by apply P_session.
Qed.

Lemma dispatch_keeps tool_calls env saves :
  Forall Q tool_calls ->
  forall self pos, P self -> P (dispatch self tool_calls pos env saves).2.
Proof.
  induction 1 as [|tc tool_calls Hq _ IH]; intros self pos Hp; [done|].
  simpl dispatch. pose proof (execute_tool_keeps self tc (env pos) Hq Hp) as Hp1.
  destruct (_execute_tool_with_retry self tc (env pos)) as [[[out | e] self1] slept];
    [|done].
  cbn [snd] in Hp1.
  set (self2 := set_messages self1 _).
  assert (P self2) as Hp2 by (by apply P_messages).
  destruct (save_to_session self2 _ (saves pos)) as [self3 | e] eqn:Hsave; [|done].
  apply IH. by apply (save_keeps _ _ _ _ Hsave).
Qed.

(** [k] rounds of tool calls: the loop goes on from iteration
    [iteration + k], with one iteration counted per round. *)
Lemma agent_loop_rounds ev0 prompt m stream env k :
  forall remaining iteration self,
    enable_evaluation self = true ->
    tracked ev0 (evaluator self) prompt m (Z.of_nat iteration) ->
    P self ->
    (forall i, (iteration <= i < iteration + k)%nat ->
               tool_round (enable_retry self) (saving self) env i) ->
    (forall i content tool_calls,
       (iteration <= i < iteration + k)%nat ->
       responses env i = Responds content tool_calls -> Forall Q tool_calls) ->
    exists self',
      agent_loop (k + remaining) iteration self prompt stream env
      = agent_loop remaining (iteration + k) self' prompt stream env
      /\ enable_evaluation self' = true
      /\ enable_retry self' = enable_retry self
      /\ saving self' = saving self
      /\ tracked ev0 (evaluator self') prompt m (Z.of_nat (iteration + k))
      /\ P self'.
Proof.
  induction k as [|k IH];
    intros remaining iteration self Heval Htr Hp Hround Hq.
  - exists self. by rewrite Nat.add_0_r.
  - destruct (Hround iteration ltac:(lia))
      as ((content & tool_calls & Hr & Hne & Hcalls) & Hquiet & Hsaves).
    cbn [Nat.add]. simpl agent_loop. rewrite Hr, Heval.
    destruct tool_calls as [|tc tool_calls]; [done|].
    set (self2 := set_messages _ _).
    assert (P self2) as Hp2 by (by apply P_messages, P_evaluator).
    destruct (save_to_session_returns self2
                (AssistantMessage content (tc :: tool_calls))
                (response_save env iteration)) as (saved & Hsave & Hps & _).
    { intros Hs. by destruct (Hsaves Hs) as (Hresponse & _). }
    rewrite Hsave. apply (save_keeps _ _ _ _ Hsave) in Hp2.
    pose proof (dispatch_keeps (tc :: tool_calls) (attempts env iteration)
                  (result_save env iteration)
                  (Hq iteration _ _ ltac:(lia) Hr) saved O Hp2) as Hp3.
    destruct (dispatch_quiet (tc :: tool_calls) (attempts env iteration)
                (result_save env iteration) Hcalls saved O) as (self3 & Hd & Hpres).
    { destruct Hps as (_ & -> & _). exact Hquiet. }
    { destruct Hps as (_ & _ & _ & -> & _). intros Hs pos.
      by destruct (Hsaves Hs) as (_ & Hresult). }
    rewrite Hd in Hp3 |- *. cbn [snd] in Hp3.
    assert (preserved self2 self3) as Hpres' by (by eapply preserved_trans).
    destruct Hpres' as (_ & Hretry & Heval3 & Hsaving & names & Hev).
    destruct (IH remaining (S iteration) self3)
      as (self' & Hloop & He & Hr' & Hs' & Htr' & Hp').
    + by rewrite Heval3.
    + rewrite Hev, Nat2Z.inj_succ. apply tracked_tool_uses.
      by apply tracked_iteration.
    + done.
    + intros i Hi. rewrite Hretry, Hsaving. apply Hround. lia.
    + intros i c calls Hi. apply Hq. lia.
    + exists self'. rewrite Hloop.
      replace (iteration + S k)%nat with (S iteration + k)%nat by lia.
      split; [done|]. split; [done|]. split; [by rewrite Hr', Hretry|].
      split; [by rewrite Hs', Hsaving | done].
Qed.

End Invariant.



(** [execute] up to its loop. *)
Lemma execute_enters_loop self prompt use_streaming env :
  enable_evaluation self = true ->
  (forall e, plan_reply env = Raise e -> is_Exception e = true) ->
  prompt_saved (saving self) env ->
  exists self6,
    execute self prompt use_streaming env
    = Return (agent_loop MAX_ITERATIONS O self6 prompt
                (use_streaming || enable_streaming self) env)
    /\ enable_evaluation self6 = true
    /\ enable_retry self6 = enable_retry self
    /\ saving self6 = saving self
    /\ memory_kept self self6
    /\ tracked (evaluator self) (evaluator self6) prompt (Some (model self)) 0.
Proof.
  intros Heval Hplan Hsaves. unfold execute. rewrite Heval.
  set (self1 := set_evaluator self _).
  set (self2 := set_current_execution_path self1 []).
  assert (exists plan self3,
            (if enable_planning self2 then _create_plan self2 (plan_reply env)
             else Return ("", self2)) = Return (plan, self3)
            /\ enable_evaluation self3 = true
            /\ enable_retry self3 = enable_retry self
            /\ enable_streaming self3 = enable_streaming self
            /\ enable_memory self3 = enable_memory self
            /\ semantic_memory self3 = semantic_memory self
            /\ current_execution_path self3 = []
            /\ saving self3 = saving self
            /\ evaluator self3 = evaluator self1)
    as (plan & self3 & -> & Heval3 & Hretry3 & Hstream3 & Hmem3 & Hsem3 & Hpath3
        & Hsaving3 & Hev3).
  { destruct (enable_planning self2) eqn:Hpl; [|by eexists _, _].
    unfold _create_plan. rewrite Hpl. cbn [negb].
    destruct (plan_reply env) as [[[|c r]|]|e] eqn:Hreply;
      try (by eexists _, _).
    rewrite (Hplan e eq_refl). by eexists _, _. }
  set (self6 := set_messages _ _).
  assert (enable_evaluation self6 = true /\ enable_retry self6 = enable_retry self
          /\ saving self6 = saving self /\ memory_kept self self6
          /\ evaluator self6 = evaluator self1)
    as (Heval6 & Hretry6 & Hsaving6 & Hmem6 & Hev6).
  { subst self6. destruct plan; destruct (if enable_memory self then _ else _);
      unfold memory_kept; cbn [enable_evaluation enable_retry set_messages
        enable_memory semantic_memory current_execution_path evaluator];
      rewrite ?Hmem3, ?Hsem3, ?Hpath3; repeat split; try done; constructor. }
  destruct (save_to_session_returns self6 (UserMessage prompt) (prompt_save env))
    as (saved & Hsave & (_ & Hretry7 & Heval7 & Hsaving7 & _) & _ & Hev7).
  { rewrite Hsaving6. exact Hsaves. }
  rewrite Hsave. exists saved. split; [reflexivity|].
  split; [by rewrite Heval7|]. split; [by rewrite Hretry7|].
  split; [by rewrite Hsaving7|]. split.
  - exact (save_keeps (memory_kept self) (fun a manager Ha => Ha)
             self6 (UserMessage prompt) (prompt_save env) saved Hsave Hmem6).
  - rewrite Hev7, Hev6. apply tracked_start.
Qed.



(** X23. Without streaming, a response without choices at iteration [k]
    makes [execute] return "Error: No response from model" at once, past
    [end_task]: the task stays in flight in the evaluator, is in neither
    its history nor its files, and the next [start_task] replaces it. *)
Theorem no_choices_leaves_task_open (self : Agent) (prompt : string)
    (env : run_env) (k : nat) :
  enable_evaluation self = true ->
  enable_streaming self = false ->
  (forall e, plan_reply env = Raise e -> is_Exception e = true) ->
  (k < MAX_ITERATIONS)%nat ->
  prompt_saved (saving self) env ->
  (forall i, (i < k)%nat -> tool_round (enable_retry self) (saving self) env i) ->
  responses env k = NoChoices ->
  exists self' e,
    execute self prompt false env = Return ("Error: No response from model", self')
    /\ Evaluation.current_execution (evaluator self') = Some e
    /\ Evaluation.iterations e = Z.of_nat k + 1
    /\ Evaluation.prompt e = prompt
    /\ Evaluation.executions_history (evaluator self')
       = Evaluation.executions_history (evaluator self)
    /\ Evaluation.executions_file (evaluator self')
       = Evaluation.executions_file (evaluator self)
    /\ Evaluation.summary_file (evaluator self')
       = Evaluation.summary_file (evaluator self)
    /\ forall prompt' model' id_clock now,
         Evaluation.executions_history
           (Evaluation.start_task (evaluator self') prompt' model' id_clock now).2
         = Evaluation.executions_history (evaluator self).
Proof.
  intros Heval Hstream Hplan Hk Hsaved Hround Hnone.
  destruct (execute_enters_loop self prompt false env Heval Hplan Hsaved)
    as (self6 & -> & Heval6 & Hretry6 & Hsaving6 & Hmem6 & Htr6).
  replace (agent_loop MAX_ITERATIONS O self6 prompt (false || enable_streaming self) env)
    with (agent_loop (k + S (MAX_ITERATIONS - S k)) O self6 prompt
            (false || enable_streaming self) env) by (f_equal; lia).
  destruct (agent_loop_rounds (fun _ => True) (fun _ => True))
    with (ev0 := evaluator self) (prompt := prompt) (m := Some (model self))
         (stream := false || enable_streaming self) (env := env) (k := k)
         (remaining := S (MAX_ITERATIONS - S k)) (iteration := O) (self := self6)
    as (self' & -> & Heval' & _ & _ & Htr' & _); try done.
  - intros i Hi. rewrite Hretry6, Hsaving6. apply Hround. lia.
  - intros i content tool_calls _ _. by apply Forall_forall.
  - simpl agent_loop. rewrite Hnone, Heval', Hstream. cbn [orb].
    apply tracked_iteration in Htr'. destruct Htr' as (Hh & Hf & Hs & e & He & Hi & Hp & _).
    eexists _, e. split; [reflexivity|]. cbn [evaluator set_evaluator].
    repeat split; try done.
Qed.

(** X24. When the request to the model fails at iteration [k], the run
    ends there and the task is recorded as failed after [k + 1]
    iterations: with the text of the exception as answer ("Error: ...") and
    as error message, or, for a keyboard interrupt, with "Interrupted by
    user". *)
Theorem failed_request_ends_run (self : Agent) (prompt : string)
    (use_streaming : bool) (env : run_env) (k : nat) (e : py_exn) :
  enable_evaluation self = true ->
  (forall e, plan_reply env = Raise e -> is_Exception e = true) ->
  (k < MAX_ITERATIONS)%nat ->
  prompt_saved (saving self) env ->
  (forall i, (i < k)%nat -> tool_round (enable_retry self) (saving self) env i) ->
  responses env k = Fails e ->
  exists self' t,
    execute self prompt use_streaming env
    = Return (if is_Exception e then "Error: " ++ exn_text e
              else String (ascii_of_nat 10) "Interrupted by user", self')
    /\ Evaluation.executions_history (evaluator self')
       = (Evaluation.executions_history (evaluator self) ++ [t])%list
    /\ Evaluation.success t = false
    /\ Evaluation.iterations t = Z.of_nat k + 1
    /\ Evaluation.error_message t
       = Some (if is_Exception e then exn_text e else "Interrupted by user")
    /\ Evaluation.current_execution (evaluator self') = None
    /\ semantic_memory self' = semantic_memory self.
Proof.
  intros Heval Hplan Hk Hsaved Hround Hfails.
  destruct (execute_enters_loop self prompt use_streaming env Heval Hplan Hsaved)
    as (self6 & -> & Heval6 & Hretry6 & Hsaving6 & (_ & Hsem6 & _) & Htr6).
  replace (agent_loop MAX_ITERATIONS O self6 prompt
             (use_streaming || enable_streaming self) env)
    with (agent_loop (k + S (MAX_ITERATIONS - S k)) O self6 prompt
            (use_streaming || enable_streaming self) env) by (f_equal; lia).
  destruct (agent_loop_rounds (fun a => semantic_memory a = semantic_memory self)
              (fun _ => True))
    with (ev0 := evaluator self) (prompt := prompt) (m := Some (model self))
         (stream := use_streaming || enable_streaming self) (env := env) (k := k)
         (remaining := S (MAX_ITERATIONS - S k)) (iteration := O) (self := self6)
    as (self' & -> & Heval' & _ & _ & Htr' & Hsem'); try done.
  - intros a tc _ Ha. unfold after_execution. by destruct (enable_evaluation a).
  - intros i Hi. rewrite Hretry6, Hsaving6. apply Hround. lia.
  - intros i content tool_calls _ _. by apply Forall_forall.
  - simpl agent_loop. rewrite Hfails, Heval'.
    apply tracked_iteration in Htr'.
    assert (forall err,
              exists t,
                Evaluation.executions_history
                  (evaluator (finish (set_evaluator self'
                                 (Evaluation.record_iteration (evaluator self')))
                                env false (Some err)))
                = (Evaluation.executions_history (evaluator self) ++ [t])%list
                /\ Evaluation.success t = false
                /\ Evaluation.iterations t = Z.of_nat k + 1
                /\ Evaluation.error_message t = Some err
                /\ Evaluation.current_execution
                     (evaluator (finish (set_evaluator self'
                                   (Evaluation.record_iteration (evaluator self')))
                                  env false (Some err))) = None
                /\ semantic_memory (finish (set_evaluator self'
                                      (Evaluation.record_iteration (evaluator self')))
                                     env false (Some err)) = semantic_memory self)
      as Hfinish.
    { intros err. unfold finish. cbn [enable_evaluation set_evaluator]. rewrite Heval'.
      cbn [evaluator set_evaluator semantic_memory].
      destruct (tracked_end _ _ _ _ _ false (Some err) (clock_end env) (stamp env)
                  (line_ok env) (summary_ok env) Htr')
        as (t & Hh & Hs & He & Hi & _ & _ & Hc & _).
      by exists t. }
    unfold handle. destruct e; cbn [is_Exception];
      match goal with
      | |- context [finish _ env false (Some ?err)] =>
          destruct (Hfinish err) as (t & ? & ? & ? & ? & ? & ?)
      end; eexists _, t; (split; [reflexivity|]); by repeat split.
Qed.

(** Ending a tracked task as failed. *)
Lemma finish_failed ev0 a prompt m k env err :
  enable_evaluation a = true ->
  tracked ev0 (evaluator a) prompt m k ->
  exists t,
    Evaluation.executions_history (evaluator (finish a env false (Some err)))
    = (Evaluation.executions_history ev0 ++ [t])%list
    /\ Evaluation.success t = false
    /\ Evaluation.iterations t = k
    /\ Evaluation.error_message t = Some err
    /\ Evaluation.current_execution (evaluator (finish a env false (Some err))) = None
    /\ messages (finish a env false (Some err)) = messages a.
Proof.
  intros Heval Htr. unfold finish. rewrite Heval. cbn [evaluator set_evaluator messages].
  destruct (tracked_end _ _ _ _ _ false (Some err) (clock_end env) (stamp env)
              (line_ok env) (summary_ok env) Htr)
    as (t & Hh & Hs & He & Hi & _ & _ & Hc & _).
  by exists t.
Qed.

Lemma save_to_session_raises self message e :
  saving self = true ->
  save_to_session self message (Sessions.AppendRaises e) = Raise e.
Proof.
  unfold saving, save_to_session.
  destruct (session_manager self); [|done]. by destruct (session_id self) as [[|c id]|].
Qed.

(** X25. The saves to the session are not guarded.  With a session logged
    and evaluation on: when the save of the prompt raises, [execute] raises
    the same exception; when the save of the response of iteration [k]
    raises, after [k] rounds of tool calls, the run ends there as for a
    failed request: the answer is "Error: " and the text of the exception
    (or the interrupt text), the task is recorded as failed after [k + 1]
    iterations, and the response, whose tool calls are not run, is the last
    message of the conversation. *)
Theorem failed_save_ends_run (self : Agent) (prompt : string)
    (use_streaming : bool) (env : run_env) :
  enable_evaluation self = true ->
  saving self = true ->
  (forall e, plan_reply env = Raise e -> is_Exception e = true) ->
  (forall e, prompt_save env = Sessions.AppendRaises e ->
             execute self prompt use_streaming env = Raise e)
  /\ (forall (k : nat) content tool_calls e,
        (k < MAX_ITERATIONS)%nat ->
        prompt_saved true env ->
        (forall i, (i < k)%nat -> tool_round (enable_retry self) true env i) ->
        responses env k = Responds content tool_calls ->
        response_save env k = Sessions.AppendRaises e ->
        exists self' t,
          execute self prompt use_streaming env
          = Return (if is_Exception e then "Error: " ++ exn_text e
                    else String (ascii_of_nat 10) "Interrupted by user", self')
          /\ Evaluation.executions_history (evaluator self')
             = (Evaluation.executions_history (evaluator self) ++ [t])%list
          /\ Evaluation.success t = false
          /\ Evaluation.iterations t = Z.of_nat k + 1
          /\ Evaluation.error_message t
             = Some (if is_Exception e then exn_text e else "Interrupted by user")
          /\ Evaluation.current_execution (evaluator self') = None
          /\ last (messages self') = Some (AssistantMessage content tool_calls)).
Proof.
  intros Heval Hsaving Hplan. split.
  - intros e Hsave. unfold execute. rewrite Heval.
    set (self1 := set_evaluator self _).
    set (self2 := set_current_execution_path self1 []).
    assert (exists plan self3,
              (if enable_planning self2 then _create_plan self2 (plan_reply env)
               else Return ("", self2)) = Return (plan, self3)
              /\ saving self3 = true)
      as (plan & self3 & -> & Hsaving3).
    { destruct (enable_planning self2) eqn:Hpl; [|by eexists _, _].
      unfold _create_plan. rewrite Hpl. cbn [negb].
      destruct (plan_reply env) as [[[|c r]|]|e'] eqn:Hreply;
        try (by eexists _, _).
      rewrite (Hplan e' eq_refl). by eexists _, _. }
    rewrite Hsave, save_to_session_raises; [done|].
    by destruct plan; destruct (if enable_memory self then _ else _).
  - intros k content tool_calls e Hk Hsaved Hround Hresp Hsave.
    rewrite <- Hsaving in Hsaved, Hround.
    destruct (execute_enters_loop self prompt use_streaming env Heval Hplan Hsaved)
      as (self6 & -> & Heval6 & Hretry6 & Hsaving6 & _ & Htr6).
    replace (agent_loop MAX_ITERATIONS O self6 prompt
               (use_streaming || enable_streaming self) env)
      with (agent_loop (k + S (MAX_ITERATIONS - S k)) O self6 prompt
              (use_streaming || enable_streaming self) env) by (f_equal; lia).
    destruct (agent_loop_rounds (fun _ => True) (fun _ => True))
      with (ev0 := evaluator self) (prompt := prompt) (m := Some (model self))
           (stream := use_streaming || enable_streaming self) (env := env) (k := k)
           (remaining := S (MAX_ITERATIONS - S k)) (iteration := O) (self := self6)
      as (self' & -> & Heval' & _ & Hsaving' & Htr' & _); try done.
    + intros i Hi. rewrite Hretry6, Hsaving6. apply Hround. lia.
    + intros i c calls _ _. by apply Forall_forall.
    + simpl agent_loop. rewrite Hresp, Heval', Hsave.
      set (self2 := set_messages _ _).
      rewrite save_to_session_raises
        by (change (saving self2) with (saving self'); congruence).
      apply tracked_iteration in Htr'.
      assert (forall err,
                exists t,
                  Evaluation.executions_history
                    (evaluator (finish self2 env false (Some err)))
                  = (Evaluation.executions_history (evaluator self) ++ [t])%list
                  /\ Evaluation.success t = false
                  /\ Evaluation.iterations t = Z.of_nat k + 1
                  /\ Evaluation.error_message t = Some err
                  /\ Evaluation.current_execution
                       (evaluator (finish self2 env false (Some err))) = None
                  /\ last (messages (finish self2 env false (Some err)))
                     = Some (AssistantMessage content tool_calls)) as Hfinish.
      { intros err.
        destruct (finish_failed (evaluator self) self2 prompt (Some (model self))
                    (Z.of_nat k + 1) env err Heval' Htr')
          as (t & Hh & Hs & Hi & He & Hc & Hm).
        exists t. rewrite Hm. repeat split; try done.
        subst self2. cbn [messages set_messages]. apply last_snoc. }
      unfold handle. destruct e; cbn [is_Exception];
        match goal with
        | |- context [finish _ env false (Some ?err)] =>
            destruct (Hfinish err) as (t & ? & ? & ? & ? & ? & ?)
        end; eexists _, t; (split; [reflexivity|]); by repeat split.
Qed.

End RunEndings.


(** The first response has no choices. *)
Lemma no_choices_leaves_task_open_witness :
  exists self' e,
    Agent.execute (looping_agent true) "list the files" false silent_env
    = Return ("Error: No response from model", self')
    /\ Evaluation.current_execution (Agent.evaluator self') = Some e
    /\ Evaluation.iterations e = 0 + 1
    /\ Evaluation.prompt e = "list the files"
    /\ Evaluation.executions_history (Agent.evaluator self') = []
    /\ Evaluation.executions_file (Agent.evaluator self') = []
    /\ Evaluation.summary_file (Agent.evaluator self') = None
    /\ forall prompt' model' id_clock now,
         Evaluation.executions_history
           (Evaluation.start_task (Agent.evaluator self') prompt' model' id_clock now).2
         = [].
Proof.
  apply (no_choices_leaves_task_open (H := QFloat) (looping_agent true) "list the files"
           silent_env 0).
  - reflexivity.
  - reflexivity.
  - intros e [=].
  - unfold Agent.MAX_ITERATIONS. lia.
  - intros _. by eexists.
  - intros i Hi. lia.
  - reflexivity.
Defined.

(** The first request to the model fails. *)
Lemma failed_request_ends_run_witness :
  exists self' t,
    Agent.execute (looping_agent true) "list the files" false failing_request_env
    = Return ("Error: rate limit exceeded", self')
    /\ Evaluation.executions_history (Agent.evaluator self') = ([] ++ [t])%list
    /\ Evaluation.success t = false
    /\ Evaluation.iterations t = 0 + 1
    /\ Evaluation.error_message t = Some "rate limit exceeded"
    /\ Evaluation.current_execution (Agent.evaluator self') = None
    /\ Agent.semantic_memory self' = SemanticMemory.init [].
Proof.
  apply (failed_request_ends_run (H := QFloat) (looping_agent true) "list the files"
           false failing_request_env 0 (OtherException "rate limit exceeded")).
  - reflexivity.
  - intros e [=].
  - unfold Agent.MAX_ITERATIONS. lia.
  - intros _. by eexists.
  - intros i Hi. lia.
  - reflexivity.
Defined.

(** The disk is full when the first response is to be saved. *)
Lemma failed_save_ends_run_witness :
  exists self' t,
    Agent.execute (looping_agent true) "keep going" false full_disk_env
    = Return ("Error: [Errno 28] No space left on device", self')
    /\ Evaluation.executions_history (Agent.evaluator self') = ([] ++ [t])%list
    /\ Evaluation.success t = false
    /\ Evaluation.iterations t = 0 + 1
    /\ Evaluation.error_message t = Some "[Errno 28] No space left on device"
    /\ Evaluation.current_execution (Agent.evaluator self') = None
    /\ last (Agent.messages self')
       = Some (Agent.AssistantMessage None [looping_call]).
Proof.
  apply (proj2 (failed_save_ends_run (H := QFloat) (looping_agent true) "keep going"
                  false full_disk_env eq_refl eq_refl ltac:(intros e [=]))
           O None [looping_call]
           (OtherException "[Errno 28] No space left on device")).
  - unfold Agent.MAX_ITERATIONS. lia.
  - intros _. by eexists.
  - intros i Hi. lia.
  - reflexivity.
  - reflexivity.
Defined.

(** ** The gate in front of the registry *)
Section GateFacts.
Context `{PyFloat}.
Import ToolRegistry Gate.
Variable fnmatch : string -> string -> bool.

Implicit Types (self : Agent) (env : call_env) (arguments : Dict.dict value).

Lemma executed_app (a b : list event) : executed (a ++ b) = executed a || executed b.
Proof. apply existsb_app. Qed.

Lemma executed_approvals (events : list Safety.console_event) :
  executed (map Approval events) = false.
Proof. by induction events. Qed.

Lemma ask_approval_quiet checker operation critical details refusal stdin :
  executed (ask_approval checker operation critical details refusal stdin).2 = false.
Proof.
  unfold ask_approval. destruct critical.1; [|done].
  destruct (Safety.prompt_approval _ _ _ _ _) as [[approved checker'] events].
  apply executed_approvals.
Qed.

Lemma approval_phase_quiet self function_name arguments env :
  executed (approval_phase self function_name arguments env).2 = false.
Proof.
  unfold approval_phase. destruct (negb _); [done|].
  destruct (String.eqb function_name "Bash").
  { destruct (default _ _); [apply ask_approval_quiet | done]. }
  destruct (String.eqb function_name "Write"); [|done].
  destruct (default _ _); [apply ask_approval_quiet | done].
Qed.

Lemma permission_phase_quiet self function_name arguments stdin :
  executed (permission_phase fnmatch self function_name arguments stdin).2 = false.
Proof.
  unfold permission_phase. destruct (use_permissions self); [|done].
  destruct (permission_checker self) as [checker|]; [|done].
  destruct (permission_request _ _ _ _) as [check|]; [|done].
  unfold ask_permission. destruct (level check) as [[| |]|e]; try done.
  by destruct (prompt_user _ _ _) as [[|]|e].
Qed.

(** The texts of a check begin with "Error:". *)
Lemma permission_request_texts checker function_name arguments check :
  permission_request fnmatch checker function_name arguments = Some check ->
  PyStr.startswith (denied check) "Error:" = true
  /\ PyStr.startswith (refused check) "Error:" = true
  /\ truthy (target check) = true.
Proof.
  unfold permission_request.
  destruct (_ || _).
  { destruct (or_else _ _) as [v|]; [|done]. destruct (truthy v) eqn:Hv; [|done].
    by intros [= <-]. }
  destruct (String.eqb function_name "Write").
  { destruct (Dict.get _ _) as [v|]; [|done]. destruct (truthy v) eqn:Hv; [|done].
    by intros [= <-]. }
  destruct (String.eqb function_name "Bash"); [|done].
  destruct (Dict.get _ _) as [v|]; [|done]. destruct (truthy v) eqn:Hv; [|done].
  by intros [= <-].
Qed.

(** X26. A call whose target the permission checker denies never reaches
    a tool: the method returns an error text (the denial, when the approval
    block before it lets the call through), and the tracker, the evaluator
    and the execution path are left as they were. *)
Theorem denied_call_is_not_executed self (function_name : string) arguments env
    (checker : Permissions.Profile) (check : permission_check) :
  use_permissions self = true ->
  permission_checker self = Some checker ->
  permission_request fnmatch checker function_name arguments = Some check ->
  level check = Return Permissions.DENY ->
  let res := _execute_tool_with_permissions fnmatch self function_name
               (Return arguments) env in
  executed res.2 = false
  /\ tool_tracker res.1.2 = tool_tracker self
  /\ evaluator res.1.2 = evaluator self
  /\ current_execution_path res.1.2 = current_execution_path self
  /\ (forall text, res.1.1 = Return text -> PyStr.startswith text "Error:" = true)
  /\ ((approval_phase self function_name arguments env).1.1.1 = Proceed ->
      res.1.1 = Return (denied check)).
Proof.
  intros Huse Hchecker Hrequest Hlevel res. subst res.
  unfold _execute_tool_with_permissions.
  pose proof (approval_phase_quiet self function_name arguments env) as Hquiet.
  assert (Hanswer : forall text,
            (approval_phase self function_name arguments env).1.1.1 = Answer text ->
            PyStr.startswith text "Error:" = true).
  { intros text. unfold approval_phase. destruct (negb _); [done|].
    unfold ask_approval.
    destruct (String.eqb function_name "Bash").
    { destruct (default _ _); [|done]. destruct (Safety.is_critical_bash _).1; [|done].
      destruct (Safety.prompt_approval _ _ _ _ _) as [[[|] ?] ?]; [done|].
      by intros [= <-]. }
    destruct (String.eqb function_name "Write"); [|done].
    destruct (default _ _); [|done].
    destruct (Safety.is_critical_file_write _ _).1; [|done].
    destruct (Safety.prompt_approval _ _ _ _ _) as [[[|] ?] ?]; [done|].
    by intros [= <-]. }
  destruct (approval_phase self function_name arguments env)
    as [[[approval checker1] stdin1] events1].
  cbn [fst snd] in *.
  destruct approval as [|text|e]; cbn [fst snd].
  - unfold permission_phase. cbn [use_permissions permission_checker set_critical_checker].
    rewrite Huse, Hchecker, Hrequest. unfold ask_permission. rewrite Hlevel.
    cbn [fst snd]. rewrite app_nil_r.
    destruct (permission_request_texts _ _ _ _ Hrequest) as (Hdenied & _ & _).
    repeat split; try done. by intros text [= <-].
  - repeat split; try done. intros text' [= <-]. by apply Hanswer.
  - by repeat split.
Qed.




(** X29. End of input at the two prompts.  When the operator's console
    is closed, the approval prompt for a critical command counts as a
    refusal and records nothing, while the permission prompt for a target
    on level ASK lets [EOFError] leave the method; in neither case is a
    tool entered. *)
Theorem end_of_input_at_the_prompts self (function_name : string) arguments env :
  stdin env = [] ->
  let res := _execute_tool_with_permissions fnmatch self function_name
               (Return arguments) env in
  (forall command,
     require_approval self = true -> function_name = "Bash" ->
     Dict.get "command" arguments = Some (Str command) ->
     (Safety.is_critical_bash command).1 = true ->
     Safety.cached (critical_checker self)
       (Safety._hash_operation "Execute bash command" command) = None ->
     res.1.1 = Return "Error: Critical operation denied by user"
     /\ critical_checker res.1.2 = critical_checker self
     /\ executed res.2 = false)
  /\ (forall checker check,
        (approval_phase self function_name arguments env).1.1.1 = Proceed ->
        use_permissions self = true -> permission_checker self = Some checker ->
        permission_request fnmatch checker function_name arguments = Some check ->
        level check = Return Permissions.ASK ->
        res.1.1 = Raise EOFError /\ executed res.2 = false).
Proof.
  intros Hstdin res. subst res. unfold _execute_tool_with_permissions. split.
  - intros command Happroval -> Hcommand Hcritical Hcached.
    unfold approval_phase. rewrite Happroval, Hcommand, Hstdin. cbn [negb String.eqb
      Ascii.eqb Bool.eqb default from_option id]. unfold ask_approval.
    rewrite Hcritical. cbn [next_input hd].
    apply cached_None in Hcached as [Ha Hd].
    unfold Safety.prompt_approval.
    rewrite decide_False by done. rewrite decide_False by done. cbn.
    by destruct (critical_checker self).
  - intros checker check Hproceed Huse Hchecker Hrequest Hlevel.
    pose proof (approval_phase_quiet self function_name arguments env) as Hquiet.
    assert ((approval_phase self function_name arguments env).1.2 = []) as Hin.
    { unfold approval_phase. rewrite Hstdin. destruct (negb _); [done|].
      unfold ask_approval.
      destruct (String.eqb function_name "Bash").
      { destruct (default _ _); [|done]. destruct (Safety.is_critical_bash _).1; [|done].
        destruct (Safety.prompt_approval _ _ _ _ _) as [[? ?] events].
        by destruct (Safety.prompted events). }
      destruct (String.eqb function_name "Write"); [|done].
      destruct (default _ _); [|done].
      destruct (Safety.is_critical_file_write _ _).1; [|done].
      destruct (Safety.prompt_approval _ _ _ _ _) as [[? ?] events].
      by destruct (Safety.prompted events). }
    destruct (approval_phase self function_name arguments env)
      as [[[approval checker1] stdin1] events1].
    cbn [fst snd] in *. subst approval stdin1.
    unfold permission_phase. cbn [use_permissions permission_checker set_critical_checker].
    rewrite Huse, Hchecker, Hrequest. unfold ask_permission. rewrite Hlevel.
    cbn [next_input hd prompt_user fst snd]. split; [done|].
    rewrite executed_app, Hquiet. done.
Qed.

End GateFacts.

(** The standard profile denies "sudo reboot". *)
Lemma denied_call_is_not_executed_witness :
  (Gate._execute_tool_with_permissions Permissions.posix_fnmatch guarded_agent "Bash"
     (Return [("command", ToolRegistry.Str "sudo reboot")]) closed_console).1.1
  = Return "Error: Permission denied to execute command: sudo reboot".
Proof.
  refine (proj2 (proj2 (proj2 (proj2 (proj2
            (denied_call_is_not_executed (H := QFloat) Permissions.posix_fnmatch
               guarded_agent "Bash" [("command", ToolRegistry.Str "sudo reboot")]
               closed_console (Permissions.PermissionChecker "standard") _
               eq_refl eq_refl eq_refl eq_refl))))) eq_refl).
Defined.

(** At a closed console: "rm -rf build" is critical and refused; "make test"
    is on level ASK and the prompt raises. *)
Lemma end_of_input_at_the_prompts_witness :
  (Gate._execute_tool_with_permissions Permissions.posix_fnmatch guarded_agent "Bash"
     (Return [("command", ToolRegistry.Str "rm -rf build")]) closed_console).1.1
  = Return "Error: Critical operation denied by user"
  /\ (Gate._execute_tool_with_permissions Permissions.posix_fnmatch guarded_agent "Bash"
        (Return [("command", ToolRegistry.Str "make test")]) closed_console).1.1
     = Raise EOFError.
Proof.
  split.
  - refine (proj1 (proj1 (end_of_input_at_the_prompts (H := QFloat)
                            Permissions.posix_fnmatch guarded_agent "Bash"
                            [("command", ToolRegistry.Str "rm -rf build")]
                            closed_console eq_refl)
                     "rm -rf build" eq_refl eq_refl eq_refl eq_refl eq_refl)).
  - refine (proj1 (proj2 (end_of_input_at_the_prompts (H := QFloat)
                            Permissions.posix_fnmatch guarded_agent "Bash"
                            [("command", ToolRegistry.Str "make test")]
                            closed_console eq_refl)
                     (Permissions.PermissionChecker "standard") _
                     eq_refl eq_refl eq_refl eq_refl eq_refl)).
Defined.

(** ** The session log *)
Section SessionLog.
Context `{PyFloat}.
Import Agent.

Section Follows.
Variables (id : string) (before : list Message) (log : list (string * Message)).
Hypothesis id_not_empty : id <> "".

Lemma follows_same a b :
  messages b = messages a -> session_id b = session_id a ->
  session_manager b = session_manager a ->
  log_kept id before log a -> log_kept id before log b.
Proof.
  intros Hm Hi Hs (new & Hmsg & Hid & manager & Hman & Hlog).
  exists new. split; [congruence|]. split; [congruence|].
  exists manager. split; [congruence | done].
Qed.

(** Messages that are not logged join the conversation. *)
Lemma follows_unlogged a ms :
  List.filter logged ms = [] -> log_kept id before log a ->
  log_kept id before log (set_messages a (messages a ++ ms)).
Proof.
  intros Hms (new & Hmsg & Hid & manager & Hman & Hlog).
  exists (new ++ ms)%list. split; [|split; [done|]].
  - cbn [messages set_messages]. by rewrite Hmsg, app_assoc.
  - exists manager. split; [done|]. by rewrite List.filter_app, Hms, app_nil_r.
Qed.

(** A logged message joins the conversation and is saved. *)
Lemma follows_saved a m save :
  logged m = true -> (exists now, save = Sessions.Appends now) ->
  log_kept id before log a ->
  exists a', save_to_session (set_messages a (messages a ++ [m])) m save = Return a'
             /\ log_kept id before log a'.
Proof.
  intros Hm [now ->] (new & Hmsg & Hid & manager & Hman & Hlog).
  unfold save_to_session. cbn [session_manager session_id set_messages].
  rewrite Hman, Hid. destruct id as [|c id']; [done|].
  cbn [Sessions.save_message]. eexists. split; [reflexivity|].
  exists (new ++ [m])%list. split; [|split; [done|]].
  - cbn [messages set_session_manager set_messages]. by rewrite Hmsg, app_assoc.
  - eexists. split; [reflexivity|]. cbn [Sessions.entries].
    rewrite map_app, Hlog, List.filter_app, map_app, <- app_assoc. cbn [List.filter].
    by rewrite Hm.
Qed.

Lemma reflections_unlogged ms : Forall is_reflection ms -> List.filter logged ms = [].
Proof.
  induction 1 as [|m ms Hm _ IH]; [done|]. cbn [List.filter].
  by destruct m.
Qed.

Lemma executor_follows a tc env :
  log_kept id before log a ->
  log_kept id before log (_execute_tool_with_retry a tc env).1.2.
Proof.
  intros Ha.
  assert (session_manager (_execute_tool_with_retry a tc env).1.2 = session_manager a
          /\ session_id (_execute_tool_with_retry a tc env).1.2 = session_id a)
    as [Hs Hi].
  { apply (execute_tool_keeps
             (fun x => session_manager x = session_manager a
                       /\ session_id x = session_id a) (fun _ => True));
      try done.
    intros x c _ Hx. unfold after_execution. by destruct (enable_evaluation x). }
  assert (exists rs, messages (_execute_tool_with_retry a tc env).1.2
                     = (messages a ++ rs)%list /\ Forall is_reflection rs)
    as (rs & Hm & Hrs).
  { unfold _execute_tool_with_retry. destruct (enable_retry a); cbn [negb].
    - set (cfg := default _ _).
      destruct (retry_loop_inv cfg tc env (max_retries cfg) O a None [])
        as (_ & (ms & Hms & Hr & _) & _). by exists ms.
    - exists []. rewrite app_nil_r. split; [|constructor].
      destruct (outcome (env O)) as [output [|] | e]; cbn [fst snd]; [|done..].
      apply messages_after_execution. }
  apply (follows_same (set_messages a (messages a ++ rs))); try done.
  apply follows_unlogged; [by apply reflections_unlogged | done].
Qed.

Lemma dispatch_follows tool_calls env saves :
  (forall pos, exists now, saves pos = Sessions.Appends now) ->
  forall a pos,
    log_kept id before log a ->
    log_kept id before log (dispatch a tool_calls pos env saves).2.
Proof.
  intros Hsaves. induction tool_calls as [|tc tool_calls IH]; intros a pos Ha; [done|].
  simpl dispatch. pose proof (executor_follows a tc (env pos) Ha) as H1.
  destruct (_execute_tool_with_retry a tc (env pos)) as [[[out | e] a1] slept];
    [|done].
  cbn [fst snd] in H1.
  destruct (follows_saved a1 (ToolMessage (call_id tc) out) (saves pos) eq_refl
              (Hsaves pos) H1) as (a2 & -> & H2).
  by apply IH.
Qed.

Lemma finish_follows a env ok err :
  log_kept id before log a -> log_kept id before log (finish a env ok err).
Proof.
  apply follows_same; unfold finish; by destruct (enable_evaluation a).
Qed.

Lemma handle_follows a env e :
  log_kept id before log a -> log_kept id before log (handle a env e).2.
Proof. intros Ha. unfold handle. destruct e; by apply finish_follows. Qed.

Lemma final_answer_follows a prompt content env :
  log_kept id before log a ->
  log_kept id before log (final_answer a prompt content env).2.
Proof.
  intros Ha. unfold final_answer.
  destruct (enable_memory a); [|by apply finish_follows].
  destruct (current_execution_path a); [by apply finish_follows|].
  destruct (SemanticMemory.store_solution _ _ _ _ _ _);
    [|by apply handle_follows].
  apply finish_follows. revert Ha. by apply follows_same.
Qed.

Lemma agent_loop_follows prompt stream env :
  saves_return env ->
  forall remaining iteration a,
    log_kept id before log a ->
    log_kept id before log (agent_loop remaining iteration a prompt stream env).2.
Proof.
  intros (_ & Hresponse & Hresult).
  induction remaining as [|remaining IH]; intros iteration a Ha.
  - by apply finish_follows.
  - simpl agent_loop.
    set (a1 := if enable_evaluation a then _ else a).
    assert (log_kept id before log a1) as H1.
    { revert Ha. apply follows_same; subst a1; by destruct (enable_evaluation a). }
    assert (forall content tool_calls,
              log_kept id before log
                (match save_to_session
                         (set_messages a1
                            (messages a1 ++ [AssistantMessage content tool_calls]))
                         (AssistantMessage content tool_calls)
                         (response_save env iteration) with
                 | Raise e =>
                     handle (set_messages a1
                               (messages a1 ++ [AssistantMessage content tool_calls]))
                       env e
                 | Return saved =>
                     match tool_calls with
                     | [] => final_answer saved prompt content env
                     | _ :: _ =>
                         match dispatch saved tool_calls O (attempts env iteration)
                                 (result_save env iteration) with
                         | (Return _, a3) =>
                             agent_loop remaining (S iteration) a3 prompt stream env
                         | (Raise e, a3) => handle a3 env e
                         end
                     end
                 end).2) as Hrespond.
    { intros content tool_calls.
      destruct (follows_saved a1 (AssistantMessage content tool_calls)
                  (response_save env iteration) eq_refl (Hresponse iteration) H1)
        as (saved & -> & Hsaved).
      destruct tool_calls as [|tc tool_calls]; [by apply final_answer_follows|].
      pose proof (dispatch_follows (tc :: tool_calls) (attempts env iteration)
                    (result_save env iteration) (Hresult iteration) saved O Hsaved)
        as H3.
      destruct (dispatch saved (tc :: tool_calls) O (attempts env iteration)
                  (result_save env iteration)) as [[u | e] a3];
        [by apply IH | by apply handle_follows]. }
    destruct (responses env iteration) as [|content tool_calls|e].
    + destruct stream; [apply Hrespond | done].
    + apply Hrespond.
    + by apply handle_follows.
Qed.

End Follows.

(** X30. What a run saves to the session.  With a session logged and
    every save returning, [execute] returns, and the session file has
    gained, in the order of the conversation and under the session id of
    the agent, exactly the prompt, the responses of the model and the
    results of the tool calls among the messages the conversation has
    gained: the plan, the memory context and the reflections are in the
    conversation but not in the session. *)
Theorem session_log_follows_conversation (self : Agent) (prompt : string)
    (use_streaming : bool) (env : run_env) (manager : Sessions.SessionManager Message)
    (id : string) :
  session_manager self = Some manager ->
  session_id self = Some id ->
  id <> "" ->
  (forall e, plan_reply env = Raise e -> is_Exception e = true) ->
  saves_return env ->
  exists out self' manager' new,
    execute self prompt use_streaming env = Return (out, self')
    /\ messages self' = (messages self ++ new)%list
    /\ session_id self' = Some id
    /\ session_manager self' = Some manager'
    /\ map fst (Sessions.entries manager')
       = (map fst (Sessions.entries manager)
          ++ map (pair id) (List.filter logged new))%list.
Proof.
  intros Hman Hid Hne Hplan Hsaves.
  assert (log_kept id (messages self) (map fst (Sessions.entries manager)) self) as H0.
  { exists []. split; [by rewrite app_nil_r|]. split; [done|].
    exists manager. split; [done|]. by rewrite app_nil_r. }
  assert (exists out self',
            execute self prompt use_streaming env = Return (out, self')
            /\ log_kept id (messages self) (map fst (Sessions.entries manager)) self')
    as (out & self' & Hrun & new & Hmsg & Hid' & manager' & Hman' & Hlog).
  { unfold execute.
    set (self1 := if enable_evaluation self then _ else self).
    set (self2 := set_current_execution_path self1 []).
    assert (exists plan self3,
              (if enable_planning self2 then _create_plan self2 (plan_reply env)
               else Return ("", self2)) = Return (plan, self3)
              /\ messages self3 = messages self
              /\ session_id self3 = session_id self
              /\ session_manager self3 = session_manager self)
      as (plan & self3 & -> & Hm3 & Hi3 & Hs3).
    { assert (messages self2 = messages self /\ session_id self2 = session_id self
              /\ session_manager self2 = session_manager self) as (? & ? & ?).
      { subst self2 self1. by destruct (enable_evaluation self). }
      destruct (enable_planning self2) eqn:Hpl; [|by eexists _, _].
      unfold _create_plan. rewrite Hpl. cbn [negb].
      destruct (plan_reply env) as [[[|c r]|]|e] eqn:Hreply;
        try (by eexists _, _).
      rewrite (Hplan e eq_refl). by eexists _, _. }
    apply (follows_same id (messages self) (map fst (Sessions.entries manager))
             self self3) in H0; [|done..].
    set (self4 := match plan with EmptyString => self3 | _ => _ end).
    assert (log_kept id (messages self) (map fst (Sessions.entries manager)) self4)
      as H4.
    { subst self4. destruct plan; [done|]. by apply follows_unlogged. }
    set (self5 := match (if enable_memory self then _ else _) with
                  | [] => self4 | _ => _ end).
    assert (log_kept id (messages self) (map fst (Sessions.entries manager)) self5)
      as H5.
    { subst self5. destruct (if enable_memory self then _ else _); [done|].
      by apply follows_unlogged. }
    destruct Hsaves as (Hprompt & Hrest).
    destruct (follows_saved id (messages self) (map fst (Sessions.entries manager)) Hne
                self5 (UserMessage prompt) (prompt_save env) eq_refl Hprompt H5)
      as (saved & -> & Hsaved).
    pose proof (agent_loop_follows id (messages self)
                  (map fst (Sessions.entries manager)) Hne prompt
                  (use_streaming || enable_streaming self) env
                  (conj Hprompt Hrest) MAX_ITERATIONS O saved Hsaved) as Hloop.
    destruct (agent_loop MAX_ITERATIONS O saved prompt _ env) as [out self'].
    by exists out, self'. }
  by exists out, self', manager', new.
Qed.

End SessionLog.

(** The run that exhausts its iterations: the log of the session "demo"
    gains the prompt and, for each of the 50 iterations, the response and
    the result of its tool call. *)
Lemma session_log_follows_conversation_witness :
  exists out self' manager' new,
    Agent.execute (looping_agent true) "keep going" false looping_env
    = Return (out, self')
    /\ Agent.messages self' = ([] ++ new)%list
    /\ Agent.session_id self' = Some "demo"
    /\ Agent.session_manager self' = Some manager'
    /\ map fst (Sessions.entries manager')
       = ([] ++ map (pair "demo") (List.filter Agent.logged new))%list.
Proof.
  apply (session_log_follows_conversation (H := QFloat) (looping_agent true)
           "keep going" false looping_env
           (Sessions.mkSessionManager "/home/user/.bladerunner/sessions" []) "demo").
  - reflexivity.
  - reflexivity.
  - discriminate.
  - intros e [=].
  - repeat split; intros; by eexists.
Defined.
